(** * The thread pool of skynet_start.c

    A machine model of [_start] and of the four thread routines it spawns
    ([_monitor], [_timer], [_socket], [_worker]), with the two helpers
    [create_thread] and [wakeup] and the destructor [free_monitor].

    Every routine is written as a table from its program points to the one
    call it makes there and to where it goes on with the value returned.
    The threads are interleaved by a scheduler that picks, at each step, the
    thread that moves and what the outside world answers to its call. *)

From Stdlib Require Import ZArith Lia.
From stdpp Require Import base list option numbers strings.

Local Open Scope Z_scope.

(** ** C [int] *)

Definition INT_MIN : Z := - 2 ^ 31.
Definition INT_MAX : Z := 2 ^ 31 - 1.

(** Two's-complement result of an [int] operation whose exact value is [z]. *)
Definition int_wrap (z : Z) : Z := (z + 2 ^ 31) mod 2 ^ 32 - 2 ^ 31.

Definition int_add (a b : Z) : Z := int_wrap (a + b).
Definition int_sub (a b : Z) : Z := int_wrap (a - b).

(** ** Threads, calls and events *)

(** [pid[0]], [pid[1]], [pid[2]] and [pid[i+3]] of [_start], and the thread
    that runs [_start] itself. *)
Inductive thread_id : Type :=
| T_start
| T_monitor
| T_timer
| T_socket
| T_worker (id : nat).

#[global] Instance thread_id_eq_dec : EqDecision thread_id.
Proof. solve_decision. Defined.

(** What [skynet_malloc] and [skynet_free] are applied to. *)
Inductive block : Type :=
| B_monitor            (* struct monitor *m *)
| B_array (n : Z).     (* m->m, n pointers *)

#[global] Instance block_eq_dec : EqDecision block.
Proof. solve_decision. Defined.

(** The calls of the file, with their arguments.  [load_sleep] and
    [store_sleep] are the reads and writes of [m->sleep]; [store_count] and
    [store_m] the writes of [m->count] and [m->m[i]] in [_start]. *)
Inductive call : Type :=
| skynet_malloc (b : block)
| memset
| store_count (v : Z)
| store_sleep (v : Z)
| load_sleep
| store_m (i h : Z)
| skynet_monitor_new
| skynet_monitor_delete (h : Z)
| skynet_monitor_check (h : Z)
| skynet_free (b : block)
| pthread_mutex_init
| pthread_cond_init
| pthread_mutex_destroy
| pthread_cond_destroy
| pthread_create (k : Z) (t : thread_id)
| pthread_join (k : Z)
| pthread_mutex_lock
| pthread_mutex_unlock
| pthread_cond_wait
| pthread_cond_signal
| pthread_cond_broadcast
| skynet_context_total
| skynet_context_message_dispatch (sm : Z)
| skynet_socket_poll
| skynet_socket_exit
| skynet_updatetime
| unistd_sleep (sec : Z)
| usleep (us : Z)
| fprintf (msg : string)
| exit (code : Z).

#[global] Instance call_eq_dec : EqDecision call.
Proof. solve_decision. Defined.

(** One executed call: who made it, what it was, what it returned. *)
Record event : Type := Ev { who : thread_id; what : call; result : Z }.

#[global] Instance event_eq_dec : EqDecision event.
Proof. solve_decision. Defined.

(** ** Routines as tables of program points *)

(** Where a routine goes after an instruction. *)
Inductive ctl (PC : Type) : Type :=
| Goto (pc : PC)
| Return.
Arguments Goto {PC} pc.
Arguments Return {PC}.

(** The instruction at a program point: a call with its continuation, or a
    test that makes no call (a [for] condition that fails). *)
Inductive instr (PC : Type) : Type :=
| Call (c : call) (k : Z -> ctl PC)
| Skip (k : ctl PC).
Arguments Call {PC} c k.
Arguments Skip {PC} k.

(** A routine called from another one: its program points are embedded by
    [inj] and its return goes on at [after]. *)
Definition lift_ctl {P Q : Type} (inj : P -> Q) (after : ctl Q) (c : ctl P) : ctl Q :=
  match c with
  | Goto p => Goto (inj p)
  | Return => after
  end.

Definition call_sub {P Q : Type} (inj : P -> Q) (after : ctl Q) (i : instr P) : instr Q :=
  match i with
  | Call c k => Call c (fun r => lift_ctl inj after (k r))
  | Skip k => Skip (lift_ctl inj after k)
  end.

(** ** struct monitor *)

(** [cond] has no field of its own: the threads waiting on it are those whose
    state is [CondBlocked].  [mutex] is the owner of the lock, if any. *)
Record monitor : Type := Monitor {
  count : Z;
  m : list Z;
  mutex : option thread_id;
  sleep : Z;
}.

Definition zero_monitor : monitor :=
  {| count := 0; m := []; mutex := None; sleep := 0 |}.

(** [m->m[i]] *)
Definition m_at (mo : monitor) (i : Z) : Z := default 0 (m mo !! Z.to_nat i).

(** ** The routines *)

(** [exit] does not return: the program point that calls it is its own
    successor, and the machine makes no step once [exit] has been called. *)

(** *** create_thread (lines 50-56) *)

Inductive create_pc : Type :=
| Ct_create      (* 52 *)
| Ct_fprintf     (* 53 *)
| Ct_exit.       (* 54 *)

Definition create_thread (k : Z) (t : thread_id) (pc : create_pc) : instr create_pc :=
  match pc with
  | Ct_create =>
      Call (pthread_create k t) (fun r => if r =? 0 then Return else Goto Ct_fprintf)
  | Ct_fprintf => Call (fprintf "Create thread failed") (fun _ => Goto Ct_exit)
  | Ct_exit => Call (exit 1) (fun _ => Goto Ct_exit)
  end.

(** *** wakeup (lines 62-68) *)

Inductive wakeup_pc : Type :=
| Wk_test        (* 64 *)
| Wk_signal.     (* 66 *)

Definition wakeup (mo : monitor) (busy : Z) (pc : wakeup_pc) : instr wakeup_pc :=
  match pc with
  | Wk_test =>
      Call load_sleep
        (fun s => if s >=? int_sub (count mo) busy then Goto Wk_signal else Return)
  | Wk_signal => Call pthread_cond_signal (fun _ => Return)
  end.

(** *** _socket (lines 73-87) *)

Inductive socket_pc : Type :=
| So_poll                     (* 77-80 *)
| So_abort                    (* 81-82 *)
| So_wakeup (w : wakeup_pc).  (* 84 *)

Definition _socket (mo : monitor) (pc : socket_pc) : instr socket_pc :=
  match pc with
  | So_poll =>
      Call skynet_socket_poll
        (fun r => if r =? 0 then Return
                  else if r <? 0 then Goto So_abort
                  else Goto (So_wakeup Wk_test))
  | So_abort =>
      Call skynet_context_total (fun r => if r =? 0 then Return else Goto So_poll)
  | So_wakeup w => call_sub So_wakeup (Goto So_poll) (wakeup mo 0 w)
  end.

(** *** free_monitor (lines 92-103) *)

Inductive free_pc : Type :=
| Fm_delete (i : Z)     (* 96-98 *)
| Fm_mutex_destroy      (* 99 *)
| Fm_cond_destroy       (* 100 *)
| Fm_free_m             (* 101 *)
| Fm_free.              (* 102 *)

Definition free_monitor (mo : monitor) (pc : free_pc) : instr free_pc :=
  let n := count mo in
  match pc with
  | Fm_delete i =>
      if i <? n
      then Call (skynet_monitor_delete (m_at mo i)) (fun _ => Goto (Fm_delete (int_add i 1)))
      else Skip (Goto Fm_mutex_destroy)
  | Fm_mutex_destroy => Call pthread_mutex_destroy (fun _ => Goto Fm_cond_destroy)
  | Fm_cond_destroy => Call pthread_cond_destroy (fun _ => Goto Fm_free_m)
  | Fm_free_m => Call (skynet_free (B_array n)) (fun _ => Goto Fm_free)
  | Fm_free => Call (skynet_free B_monitor) (fun _ => Return)
  end.

(** *** _monitor (lines 108-125) *)

Inductive monitor_pc : Type :=
| Mo_abort              (* 114 *)
| Mo_check (i : Z)      (* 115-117 *)
| Mo_inner (i : Z)      (* 118-119 *)
| Mo_sleep (i : Z).     (* 120 *)

(** The [break] of line 119 leaves the inner [for] only: the routine goes on
    at line 114. *)
Definition _monitor (mo : monitor) (pc : monitor_pc) : instr monitor_pc :=
  let n := count mo in
  match pc with
  | Mo_abort =>
      Call skynet_context_total (fun r => if r =? 0 then Return else Goto (Mo_check 0))
  | Mo_check i =>
      if i <? n
      then Call (skynet_monitor_check (m_at mo i)) (fun _ => Goto (Mo_check (int_add i 1)))
      else Skip (Goto (Mo_inner 0))
  | Mo_inner i =>
      if i <? 5
      then Call skynet_context_total (fun r => if r =? 0 then Goto Mo_abort else Goto (Mo_sleep i))
      else Skip (Goto Mo_abort)
  | Mo_sleep i => Call (unistd_sleep 1) (fun _ => Goto (Mo_inner (int_add i 1)))
  end.

(** *** _timer (lines 130-144) *)

Inductive timer_pc : Type :=
| Ti_updatetime               (* 134 *)
| Ti_abort                    (* 135 *)
| Ti_wakeup (w : wakeup_pc)   (* 136 *)
| Ti_usleep                   (* 137 *)
| Ti_socket_exit              (* 140 *)
| Ti_broadcast.               (* 142 *)

Definition _timer (mo : monitor) (pc : timer_pc) : instr timer_pc :=
  match pc with
  | Ti_updatetime => Call skynet_updatetime (fun _ => Goto Ti_abort)
  | Ti_abort =>
      Call skynet_context_total
        (fun r => if r =? 0 then Goto Ti_socket_exit else Goto (Ti_wakeup Wk_test))
  | Ti_wakeup w =>
      call_sub Ti_wakeup (Goto Ti_usleep) (wakeup mo (int_sub (count mo) 1) w)
  | Ti_usleep => Call (usleep 2500) (fun _ => Goto Ti_updatetime)
  | Ti_socket_exit => Call skynet_socket_exit (fun _ => Goto Ti_broadcast)
  | Ti_broadcast => Call pthread_cond_broadcast (fun _ => Return)
  end.

(** *** _worker (lines 149-172) *)

Inductive worker_pc : Type :=
| W_dispatch            (* 156 *)
| W_abort               (* 157 *)
| W_lock                (* 158 *)
| W_inc_load            (* 159, read of m->sleep *)
| W_inc_store (v : Z)   (* 159, write of m->sleep *)
| W_cond_wait           (* 162 *)
| W_dec_load            (* 163, read of m->sleep *)
| W_dec_store (v : Z)   (* 163, write of m->sleep *)
| W_unlock              (* 164 *)
| W_fprintf             (* 165 *)
| W_exit.               (* 166 *)

Definition _worker (mo : monitor) (id : nat) (pc : worker_pc) : instr worker_pc :=
  let sm := m_at mo (Z.of_nat id) in
  match pc with
  | W_dispatch =>
      Call (skynet_context_message_dispatch sm)
        (fun r => if r =? 0 then Goto W_dispatch else Goto W_abort)
  | W_abort =>
      Call skynet_context_total (fun r => if r =? 0 then Return else Goto W_lock)
  | W_lock =>
      Call pthread_mutex_lock (fun r => if r =? 0 then Goto W_inc_load else Goto W_dispatch)
  | W_inc_load => Call load_sleep (fun v => Goto (W_inc_store v))
  | W_inc_store v => Call (store_sleep (int_add v 1)) (fun _ => Goto W_cond_wait)
  | W_cond_wait => Call pthread_cond_wait (fun _ => Goto W_dec_load)
  | W_dec_load => Call load_sleep (fun v => Goto (W_dec_store v))
  | W_dec_store v => Call (store_sleep (int_sub v 1)) (fun _ => Goto W_unlock)
  | W_unlock =>
      Call pthread_mutex_unlock (fun r => if r =? 0 then Goto W_dispatch else Goto W_fprintf)
  | W_fprintf => Call (fprintf "unlock mutex error") (fun _ => Goto W_exit)
  | W_exit => Call (exit 1) (fun _ => Goto W_exit)
  end.

(** *** _start (lines 177-216) *)

Inductive start_pc : Type :=
| St_malloc                          (* 181 *)
| St_memset                          (* 182 *)
| St_count                           (* 183 *)
| St_sleep                           (* 184 *)
| St_malloc_m                        (* 186 *)
| St_new (i : Z)                     (* 188-189, the call *)
| St_new_store (i h : Z)             (* 189, the assignment *)
| St_mutex_init                      (* 191 *)
| St_mutex_fprintf                   (* 192 *)
| St_cond_init                       (* 195 *)
| St_cond_fprintf                    (* 196 *)
| St_exit                            (* 193, 197 *)
| St_create_monitor (c : create_pc)  (* 200 *)
| St_create_timer (c : create_pc)    (* 201 *)
| St_create_socket (c : create_pc)   (* 202 *)
| St_worker (i : Z)                  (* 205-207 *)
| St_create_worker (i : Z) (c : create_pc)  (* 208 *)
| St_join (i : Z)                    (* 211-213 *)
| St_free (f : free_pc).             (* 215 *)

Definition _start (thread : Z) (mo : monitor) (pc : start_pc) : instr start_pc :=
  match pc with
  | St_malloc => Call (skynet_malloc B_monitor) (fun _ => Goto St_memset)
  | St_memset => Call memset (fun _ => Goto St_count)
  | St_count => Call (store_count thread) (fun _ => Goto St_sleep)
  | St_sleep => Call (store_sleep 0) (fun _ => Goto St_malloc_m)
  | St_malloc_m => Call (skynet_malloc (B_array thread)) (fun _ => Goto (St_new 0))
  | St_new i =>
      if i <? thread
      then Call skynet_monitor_new (fun h => Goto (St_new_store i h))
      else Skip (Goto St_mutex_init)
  | St_new_store i h => Call (store_m i h) (fun _ => Goto (St_new (int_add i 1)))
  | St_mutex_init =>
      Call pthread_mutex_init (fun r => if r =? 0 then Goto St_cond_init else Goto St_mutex_fprintf)
  | St_mutex_fprintf => Call (fprintf "Init mutex error") (fun _ => Goto St_exit)
  | St_cond_init =>
      Call pthread_cond_init
        (fun r => if r =? 0 then Goto (St_create_monitor Ct_create) else Goto St_cond_fprintf)
  | St_cond_fprintf => Call (fprintf "Init cond error") (fun _ => Goto St_exit)
  | St_exit => Call (exit 1) (fun _ => Goto St_exit)
  | St_create_monitor c =>
      call_sub St_create_monitor (Goto (St_create_timer Ct_create)) (create_thread 0 T_monitor c)
  | St_create_timer c =>
      call_sub St_create_timer (Goto (St_create_socket Ct_create)) (create_thread 1 T_timer c)
  | St_create_socket c =>
      call_sub St_create_socket (Goto (St_worker 0)) (create_thread 2 T_socket c)
  | St_worker i =>
      if i <? thread
      then Skip (Goto (St_create_worker i Ct_create))
      else Skip (Goto (St_join 0))
  | St_create_worker i c =>
      call_sub (St_create_worker i) (Goto (St_worker (int_add i 1)))
        (create_thread (int_add i 3) (T_worker (Z.to_nat i)) c)
  | St_join i =>
      if i <? int_add thread 3
      then Call (pthread_join i) (fun _ => Goto (St_join (int_add i 1)))
      else Skip (Goto (St_free (Fm_delete 0)))
  | St_free f => call_sub St_free Return (free_monitor mo f)
  end.

(** ** The machine *)

(** State of a thread: not yet created, at a program point, inside
    [pthread_cond_wait] (waiting for a wakeup, then for the mutex), or
    returned from its routine.  [pc] of the last two is the point of the
    call to [pthread_cond_wait]. *)
Inductive tstate (PC : Type) : Type :=
| NotCreated
| Running (pc : PC)
| CondBlocked (pc : PC)
| CondWoken (pc : PC)
| Returned.
Arguments NotCreated {PC}.
Arguments Running {PC} pc.
Arguments CondBlocked {PC} pc.
Arguments CondWoken {PC} pc.
Arguments Returned {PC}.

Definition resume {PC : Type} (c : ctl PC) : tstate PC :=
  match c with
  | Goto pc => Running pc
  | Return => Returned
  end.

Definition is_returned {PC : Type} (st : tstate PC) : bool :=
  match st with Returned => true | _ => false end.

Definition is_blocked {PC : Type} (st : tstate PC) : bool :=
  match st with CondBlocked _ => true | _ => false end.

(** [mon] is the struct [m] points to, once allocated and until freed;
    [pid] the array of [_start]; [trace] the calls made so far, the latest
    first; [exited] is set by [exit]. *)
Record system : Type := System {
  mon : option monitor;
  pid : list (option thread_id);
  th_start : tstate start_pc;
  th_monitor : tstate monitor_pc;
  th_timer : tstate timer_pc;
  th_socket : tstate socket_pc;
  th_worker : list (tstate worker_pc);
  exited : bool;
  trace : list event;
}.

Definition set_mon (x : option monitor) (s : system) : system :=
  {| mon := x; pid := pid s; th_start := th_start s; th_monitor := th_monitor s;
     th_timer := th_timer s; th_socket := th_socket s; th_worker := th_worker s;
     exited := exited s; trace := trace s |}.

Definition set_pid (x : list (option thread_id)) (s : system) : system :=
  {| mon := mon s; pid := x; th_start := th_start s; th_monitor := th_monitor s;
     th_timer := th_timer s; th_socket := th_socket s; th_worker := th_worker s;
     exited := exited s; trace := trace s |}.

Definition set_th_start (x : tstate start_pc) (s : system) : system :=
  {| mon := mon s; pid := pid s; th_start := x; th_monitor := th_monitor s;
     th_timer := th_timer s; th_socket := th_socket s; th_worker := th_worker s;
     exited := exited s; trace := trace s |}.

Definition set_th_monitor (x : tstate monitor_pc) (s : system) : system :=
  {| mon := mon s; pid := pid s; th_start := th_start s; th_monitor := x;
     th_timer := th_timer s; th_socket := th_socket s; th_worker := th_worker s;
     exited := exited s; trace := trace s |}.

Definition set_th_timer (x : tstate timer_pc) (s : system) : system :=
  {| mon := mon s; pid := pid s; th_start := th_start s; th_monitor := th_monitor s;
     th_timer := x; th_socket := th_socket s; th_worker := th_worker s;
     exited := exited s; trace := trace s |}.

Definition set_th_socket (x : tstate socket_pc) (s : system) : system :=
  {| mon := mon s; pid := pid s; th_start := th_start s; th_monitor := th_monitor s;
     th_timer := th_timer s; th_socket := x; th_worker := th_worker s;
     exited := exited s; trace := trace s |}.

Definition set_th_worker (x : list (tstate worker_pc)) (s : system) : system :=
  {| mon := mon s; pid := pid s; th_start := th_start s; th_monitor := th_monitor s;
     th_timer := th_timer s; th_socket := th_socket s; th_worker := x;
     exited := exited s; trace := trace s |}.

Definition set_exited (x : bool) (s : system) : system :=
  {| mon := mon s; pid := pid s; th_start := th_start s; th_monitor := th_monitor s;
     th_timer := th_timer s; th_socket := th_socket s; th_worker := th_worker s;
     exited := x; trace := trace s |}.

Definition log (e : event) (s : system) : system :=
  {| mon := mon s; pid := pid s; th_start := th_start s; th_monitor := th_monitor s;
     th_timer := th_timer s; th_socket := th_socket s; th_worker := th_worker s;
     exited := exited s; trace := e :: trace s |}.

Definition set_count (v : Z) (mo : monitor) : monitor :=
  {| count := v; m := m mo; mutex := mutex mo; sleep := sleep mo |}.
Definition set_m (v : list Z) (mo : monitor) : monitor :=
  {| count := count mo; m := v; mutex := mutex mo; sleep := sleep mo |}.
Definition set_mutex (v : option thread_id) (mo : monitor) : monitor :=
  {| count := count mo; m := m mo; mutex := v; sleep := sleep mo |}.
Definition set_sleep (v : Z) (mo : monitor) : monitor :=
  {| count := count mo; m := m mo; mutex := mutex mo; sleep := v |}.

(** The struct the routines read [count] and [m] from.  Both fields are
    written by [_start] before the first [pthread_create] and never again,
    so the routines take them as they stand; [sleep], written while the
    threads run, is reached through [load_sleep] and [store_sleep] only. *)
Definition the_monitor (s : system) : monitor := default zero_monitor (mon s).

(** What the scheduler decides at a step: the thread that moves, the value
    the outside world returns to its call, and the waiting worker that a
    [pthread_cond_signal] releases. *)
Record label : Type := Label { tid : thread_id; ret : Z; pick : nat }.

Definition returned (s : system) (t : thread_id) : bool :=
  match t with
  | T_start => is_returned (th_start s)
  | T_monitor => is_returned (th_monitor s)
  | T_timer => is_returned (th_timer s)
  | T_socket => is_returned (th_socket s)
  | T_worker i => from_option is_returned false (th_worker s !! i)
  end.

(** A successful [pthread_create]: the thread starts at the first program
    point of its routine. *)
Definition spawn (t : thread_id) (s : system) : option system :=
  match t with
  | T_start => None
  | T_monitor =>
      match th_monitor s with
      | NotCreated => Some (set_th_monitor (Running Mo_abort) s)
      | _ => None
      end
  | T_timer =>
      match th_timer s with
      | NotCreated => Some (set_th_timer (Running Ti_updatetime) s)
      | _ => None
      end
  | T_socket =>
      match th_socket s with
      | NotCreated => Some (set_th_socket (Running So_poll) s)
      | _ => None
      end
  | T_worker i =>
      match th_worker s !! i with
      | Some NotCreated => Some (set_th_worker (<[i := Running W_dispatch]> (th_worker s)) s)
      | _ => None
      end
  end.

Definition wake {PC : Type} (st : tstate PC) : tstate PC :=
  match st with
  | CondBlocked pc => CondWoken pc
  | _ => st
  end.

(** [pthread_cond_signal] releases one of the waiting threads, if there is
    one: the one the scheduler picks. *)
Definition signal (k : nat) (ws : list (tstate worker_pc)) : option (list (tstate worker_pc)) :=
  if existsb is_blocked ws
  then match ws !! k with
       | Some (CondBlocked pc) => Some (<[k := CondWoken pc]> ws)
       | _ => None
       end
  else Some ws.

(** [pthread_cond_broadcast] releases them all. *)
Definition broadcast (ws : list (tstate worker_pc)) : list (tstate worker_pc) :=
  wake <$> ws.

Definition with_mon (f : monitor -> monitor) (s : system) : option system :=
  mo ← mon s; Some (set_mon (Some (f mo)) s).

(** The effect of a call made by thread [t]: [None] when the call cannot
    proceed in this state (the mutex is taken, the joined thread still
    runs), otherwise the value returned, the new state, and whether the
    caller is left waiting inside the call. *)
Definition perform (t : thread_id) (c : call) (l : label) (s : system)
  : option (Z * system * bool) :=
  match c with
  | skynet_malloc B_monitor => Some (0, set_mon (Some zero_monitor) s, false)
  | skynet_malloc (B_array n) =>
      s' ← with_mon (set_m (replicate (Z.to_nat n) 0)) s; Some (0, s', false)
  | memset => s' ← with_mon (fun _ => zero_monitor) s; Some (0, s', false)
  | store_count v => s' ← with_mon (set_count v) s; Some (0, s', false)
  | store_sleep v => s' ← with_mon (set_sleep v) s; Some (0, s', false)
  | load_sleep => mo ← mon s; Some (sleep mo, s, false)
  | store_m i h =>
      if i <? 0 then None
      else s' ← with_mon (fun mo => set_m (<[Z.to_nat i := h]> (m mo)) mo) s; Some (0, s', false)
  | skynet_free (B_array _) => s' ← with_mon (set_m []) s; Some (0, s', false)
  | skynet_free B_monitor => Some (0, set_mon None s, false)
  | pthread_mutex_init =>
      if ret l =? 0
      then s' ← with_mon (set_mutex None) s; Some (0, s', false)
      else Some (ret l, s, false)
  | pthread_create k t' =>
      if ret l =? 0
      then if k <? 0 then None
           else s' ← spawn t' s;
                Some (0, set_pid (<[Z.to_nat k := Some t']> (pid s')) s', false)
      else Some (ret l, s, false)
  | pthread_join k =>
      if k <? 0 then None
      else match pid s !! Z.to_nat k with
           | Some (Some t') => if returned s t' then Some (0, s, false) else None
           | _ => None
           end
  | pthread_mutex_lock =>
      if ret l =? 0
      then mo ← mon s;
           match mutex mo with
           | None => Some (0, set_mon (Some (set_mutex (Some t) mo)) s, false)
           | Some _ => None
           end
      else Some (ret l, s, false)
  | pthread_mutex_unlock =>
      if ret l =? 0
      then mo ← mon s;
           if decide (mutex mo = Some t)
           then Some (0, set_mon (Some (set_mutex None mo)) s, false)
           else None
      else Some (ret l, s, false)
  | pthread_cond_wait =>
      mo ← mon s;
      if decide (mutex mo = Some t)
      then Some (0, set_mon (Some (set_mutex None mo)) s, true)
      else None
  | pthread_cond_signal =>
      ws ← signal (pick l) (th_worker s); Some (0, set_th_worker ws s, false)
  | pthread_cond_broadcast => Some (0, set_th_worker (broadcast (th_worker s)) s, false)
  | exit _ => Some (0, set_exited true s, false)
  | skynet_monitor_new | pthread_cond_init | skynet_context_total
  | skynet_context_message_dispatch _ | skynet_socket_poll => Some (ret l, s, false)
  | skynet_monitor_delete _ | skynet_monitor_check _ | pthread_mutex_destroy
  | pthread_cond_destroy | skynet_socket_exit | skynet_updatetime | unistd_sleep _
  | usleep _ | fprintf _ => Some (0, s, false)
  end.

(** One step of a thread whose routine is [code] and whose state is [st]:
    the new state of the system and of the thread.  A thread inside
    [pthread_cond_wait] may leave its wait without having been signalled
    (the "spurious wakeup" of the comments of lines 65 and 160); woken, it
    returns from the call once it has the mutex again. *)
Definition exec {PC : Type} (code : PC -> instr PC) (t : thread_id) (l : label)
    (s : system) (st : tstate PC) : option (system * tstate PC) :=
  match st with
  | Running pc =>
      match code pc with
      | Skip k => Some (s, resume k)
      | Call c k =>
          '(r, s', waits) ← perform t c l s;
          Some (log (Ev t c r) s', if waits : bool then CondBlocked pc else resume (k r))
      end
  | CondBlocked pc => Some (s, CondWoken pc)
  | CondWoken pc =>
      mo ← mon s;
      match mutex mo, code pc with
      | None, Call _ k => Some (set_mon (Some (set_mutex (Some t) mo)) s, resume (k 0))
      | _, _ => None
      end
  | NotCreated | Returned => None
  end.

Section Machine.

Variable thread : Z.

(** One step of the machine.  [exit] is taken to end the process at once:
    after it no thread makes a step.  What the other threads may still do
    while the process goes down is not modelled. *)
Definition step (s : system) (l : label) : option system :=
  if exited s then None
  else
    let mo := the_monitor s in
    match tid l with
    | T_start =>
        '(s', st) ← exec (_start thread mo) T_start l s (th_start s);
        Some (set_th_start st s')
    | T_monitor =>
        '(s', st) ← exec (_monitor mo) T_monitor l s (th_monitor s);
        Some (set_th_monitor st s')
    | T_timer =>
        '(s', st) ← exec (_timer mo) T_timer l s (th_timer s);
        Some (set_th_timer st s')
    | T_socket =>
        '(s', st) ← exec (_socket mo) T_socket l s (th_socket s);
        Some (set_th_socket st s')
    | T_worker i =>
        st0 ← th_worker s !! i;
        '(s', st) ← exec (_worker mo i) (T_worker i) l s st0;
        Some (set_th_worker (<[i := st]> (th_worker s')) s')
    end.

Fixpoint run (ls : list label) (s : system) : option system :=
  match ls with
  | [] => Some s
  | l :: ls' => s' ← step s l; run ls' s'
  end.

(** Entry of [_start]: nothing allocated, no thread created. *)
Definition init : system :=
  {| mon := None;
     pid := replicate (Z.to_nat (int_add thread 3)) None;
     th_start := Running St_malloc;
     th_monitor := NotCreated;
     th_timer := NotCreated;
     th_socket := NotCreated;
     th_worker := replicate (Z.to_nat thread) NotCreated;
     exited := false;
     trace := [] |}.

Definition reachable (s : system) : Prop := exists ls, run ls init = Some s.

End Machine.

(** * Invariants and properties: definitions *)

(** Only [pthread_cond_wait] leaves its caller waiting, and only [_worker]
    calls it. *)
Definition no_wait {PC : Type} (st : tstate PC) : Prop :=
  match st with
  | CondBlocked _ | CondWoken _ => False
  | _ => True
  end.

Definition waits_at_162 (w : tstate worker_pc) : Prop :=
  match w with
  | CondBlocked pc | CondWoken pc => pc = W_cond_wait
  | _ => True
  end.

Record wf (s : system) : Prop := Wf {
  wf_start : no_wait (th_start s);
  wf_monitor : no_wait (th_monitor s);
  wf_timer : no_wait (th_timer s);
  wf_socket : no_wait (th_socket s);
  wf_worker : forall i w, th_worker s !! i = Some w -> waits_at_162 w;
}.

(** A worker is counted in [m->sleep] from the write of line 159 to the
    write of line 163. *)
Definition asleep (w : tstate worker_pc) : bool :=
  match w with
  | Running (W_cond_wait | W_dec_load | W_dec_store _) | CondBlocked _ | CondWoken _ => true
  | _ => false
  end.

Fixpoint sleeping (ws : list (tstate worker_pc)) : Z :=
  match ws with
  | [] => 0
  | w :: ws' => (if asleep w then 1 else 0) + sleeping ws'
  end.

(** What the program point of worker [i] says about the struct: between
    lines 158 and 164 it owns the mutex, and the value it has read of
    [m->sleep] is still the one stored. *)
Definition worker_ok (mo : monitor) (i : nat) (w : tstate worker_pc) : Prop :=
  match w with
  | Running (W_inc_store v) | Running (W_dec_store v) =>
      mutex mo = Some (T_worker i) /\ v = sleep mo
  | Running (W_inc_load | W_cond_wait | W_dec_load | W_unlock | W_fprintf | W_exit) =>
      mutex mo = Some (T_worker i)
  | _ => True
  end.

(** The program points of [_start] at which no worker has been created. *)
Definition before_workers (st : tstate start_pc) : bool :=
  match st with
  | Running (St_worker _ | St_create_worker _ _ | St_join _ | St_free _) | Returned => false
  | _ => true
  end.

Definition count_ok (thread : Z) (st : tstate start_pc) (mo : monitor) : Prop :=
  match st with
  | Running (St_malloc | St_memset | St_count) => count mo = 0
  | _ => count mo = thread
  end.

Definition owner_ok (mo : monitor) : Prop :=
  match mutex mo with
  | None | Some (T_worker _) => True
  | _ => False
  end.

Record sleep_inv (thread : Z) (s : system) : Prop := SleepInv {
  si_length : length (th_worker s) = Z.to_nat thread;
  si_entry : th_start s = Running St_malloc -> mon s = None;
  si_early : before_workers (th_start s) = true ->
             forall i w, th_worker s !! i = Some w -> w = NotCreated;
  si_count : forall mo, mon s = Some mo -> count_ok thread (th_start s) mo;
  si_owner : forall mo, mon s = Some mo -> owner_ok mo;
  si_sleep : forall mo, mon s = Some mo -> sleep mo = sleeping (th_worker s);
  si_worker : forall mo i w, mon s = Some mo -> th_worker s !! i = Some w -> worker_ok mo i w;
}.

(** The thread whose handle [_start] stores in [pid[k]]. *)
Definition pid_thread (k : nat) : thread_id :=
  match k with
  | 0%nat => T_monitor
  | 1%nat => T_timer
  | 2%nat => T_socket
  | S (S (S i)) => T_worker i
  end.

(** The threads of [pid[0]] ... [pid[i-1]] have returned. *)
Record joined (s : system) (i : Z) : Prop := Joined {
  jn_monitor : 1 <= i -> th_monitor s = Returned;
  jn_timer : 2 <= i -> th_timer s = Returned;
  jn_socket : 3 <= i -> th_socket s = Returned;
  jn_worker : forall j w, Z.of_nat j + 3 < i -> th_worker s !! j = Some w -> w = Returned;
}.

(** How far [_start] has come, by its program point. *)
Definition start_ok (thread : Z) (s : system) : Prop :=
  match th_start s with
  | Running (St_worker i) => 0 <= i <= thread
  | Running (St_create_worker i _) => 0 <= i < thread
  | Running (St_join i) => 0 <= i <= thread + 3 /\ joined s i
  | Running (St_free _) | Returned => joined s (thread + 3)
  | _ => True
  end.

(** The program points of [_start] before the first [pthread_create]. *)
Definition before_threads (st : tstate start_pc) : bool :=
  match st with
  | Running (St_malloc | St_memset | St_count | St_sleep | St_malloc_m | St_new _
            | St_new_store _ _ | St_mutex_init | St_mutex_fprintf | St_cond_init
            | St_cond_fprintf | St_exit) => true
  | _ => false
  end.

Record start_inv (thread : Z) (s : system) : Prop := StartInv {
  st_pid : forall k t, pid s !! k = Some (Some t) -> t = pid_thread k;
  st_ok : start_ok thread s;
  st_mon : mon s = None -> th_start s = Running St_malloc \/ th_start s = Returned;
  st_early : before_threads (th_start s) = true ->
             th_monitor s = NotCreated /\ th_timer s = NotCreated /\ th_socket s = NotCreated;
}.

(** The call a thread makes at its next step, when it is at a program point
    that makes one. *)
Definition instr_call {PC : Type} (i : instr PC) : option call :=
  match i with
  | Call c _ => Some c
  | Skip _ => None
  end.

Definition at_call {PC : Type} (code : PC -> instr PC) (st : tstate PC) : option call :=
  match st with
  | Running pc => instr_call (code pc)
  | _ => None
  end.

Definition next_call (thread : Z) (s : system) (t : thread_id) : option call :=
  let mo := the_monitor s in
  match t with
  | T_start => at_call (_start thread mo) (th_start s)
  | T_monitor => at_call (_monitor mo) (th_monitor s)
  | T_timer => at_call (_timer mo) (th_timer s)
  | T_socket => at_call (_socket mo) (th_socket s)
  | T_worker i => th_worker s !! i ≫= at_call (_worker mo i)
  end.

(** The calls that read or write [m->sleep]: its load and its stores, and
    the [memset] of line 182, which clears the whole struct. *)
Definition accesses_sleep (c : call) : bool :=
  match c with
  | load_sleep | store_sleep _ | memset => true
  | _ => false
  end.

Definition holds_lock (s : system) (t : thread_id) : Prop :=
  exists mo, mon s = Some mo /\ mutex mo = Some t.

(** [_start] has not created any thread. *)
Definition no_thread_yet (s : system) : Prop :=
  th_monitor s = NotCreated /\ th_timer s = NotCreated /\ th_socket s = NotCreated /\
  forall i w, th_worker s !! i = Some w -> w = NotCreated.

(** A schedule entry: thread [t] moves and its call returns [r]. *)
Definition L (t : thread_id) (r : Z) : label := Label t r 0.

(** [_start 2] up to the first [pthread_join]: two detectors, 100 and 101,
    and five threads. *)
Definition boot2 : list label :=
  [L T_start 0; L T_start 0; L T_start 0; L T_start 0; L T_start 0;
   L T_start 100; L T_start 0; L T_start 101; L T_start 0; L T_start 0;
   L T_start 0; L T_start 0;
   L T_start 0; L T_start 0; L T_start 0;
   L T_start 0; L T_start 0; L T_start 0; L T_start 0; L T_start 0].

(** Worker 0 finds no work and goes to sleep on the condition variable. *)
Definition worker0_sleeps : list label :=
  [L (T_worker 0) 1; L (T_worker 0) 1; L (T_worker 0) 0;
   L (T_worker 0) 0; L (T_worker 0) 0; L (T_worker 0) 0].

(** Worker 0 finds no work, takes the mutex and reads [m->sleep]. *)
Definition worker0_locks : list label :=
  [L (T_worker 0) 1; L (T_worker 0) 1; L (T_worker 0) 0; L (T_worker 0) 0].

(** The timer advances the clock and finds a live service. *)
Definition timer_ticks : list label := [L T_timer 0; L T_timer 1].

Definition run_from_init (thread : Z) (ls : list label) : system :=
  default (init thread) (run thread ls (init thread)).

Definition one_asleep : system :=
  Eval vm_compute in run_from_init 2 (boot2 ++ worker0_sleeps).

(** Worker 1 finds no work and goes to sleep as well. *)
Definition worker1_sleeps : list label :=
  [L (T_worker 1) 1; L (T_worker 1) 1; L (T_worker 1) 0;
   L (T_worker 1) 0; L (T_worker 1) 0; L (T_worker 1) 0].

(** Both workers of [_start 2] sleep; the timer has not moved yet. *)
Definition both_asleep : system :=
  Eval vm_compute in run_from_init 2 (boot2 ++ worker0_sleeps ++ worker1_sleeps).

Definition worker0_locked : system :=
  Eval vm_compute in run_from_init 2 (boot2 ++ worker0_locks).

(** [_start 2] is about to write [m->sleep = 0] (line 184). *)
Definition start_at_sleep : system :=
  Eval vm_compute in run_from_init 2 (take 3 boot2).

Definition timer_in_wakeup : system :=
  Eval vm_compute in run_from_init 2 (boot2 ++ timer_ticks).

(** The second argument of [wakeup] at its two call sites, for a struct
    whose [count] is [thread]. *)
Definition busy_of (thread : Z) (t : thread_id) : Z :=
  match t with
  | T_timer => thread - 1
  | _ => 0
  end.

(** The latest event of thread [t] in a trace. *)
Fixpoint last_of (t : thread_id) (tr : list event) : option event :=
  match tr with
  | [] => None
  | e :: tr' => if decide (who e = t) then Some e else last_of t tr'
  end.

(** Every [pthread_cond_signal] of the trace directly follows, in its
    thread, a read of [m->sleep] that passed the test of [wakeup]. *)
Fixpoint signals_justified (thread : Z) (tr : list event) : Prop :=
  match tr with
  | [] => True
  | e :: tr' =>
      (what e = pthread_cond_signal ->
       exists v, last_of (who e) tr' = Some (Ev (who e) load_sleep v) /\
                 v >= thread - busy_of thread (who e)) /\
      signals_justified thread tr'
  end.

Record signal_inv (thread : Z) (s : system) : Prop := SignalInv {
  sg_trace : signals_justified thread (trace s);
  sg_timer : th_timer s = Running (Ti_wakeup Wk_signal) ->
             exists v, last_of T_timer (trace s) = Some (Ev T_timer load_sleep v) /\
                       v >= thread - busy_of thread T_timer;
  sg_socket : th_socket s = Running (So_wakeup Wk_signal) ->
              exists v, last_of T_socket (trace s) = Some (Ev T_socket load_sleep v) /\
                        v >= thread - busy_of thread T_socket;
}.

(** Worker 0 sleeps, worker 1 runs, and [skynet_socket_poll] returns 1. *)
Definition one_asleep_polled : system :=
  Eval vm_compute in run_from_init 2 (boot2 ++ worker0_sleeps ++ [L T_socket 1]).

(** In a trace (latest event first) every [pthread_cond_broadcast] comes
    after a [skynet_socket_exit] of the timer thread. *)
Fixpoint exit_before_broadcast (tr : list event) : Prop :=
  match tr with
  | [] => True
  | e :: tr' =>
      (what e = pthread_cond_broadcast -> Ev T_timer skynet_socket_exit 0 ∈ tr') /\
      exit_before_broadcast tr'
  end.

Record shutdown_inv (s : system) : Prop := ShutdownInv {
  sd_trace : exit_before_broadcast (trace s);
  sd_timer : th_timer s = Running Ti_broadcast -> Ev T_timer skynet_socket_exit 0 ∈ trace s;
}.

(** The events of thread [t] in a trace. *)
Definition events_of (t : thread_id) (tr : list event) : list event :=
  filter (fun e => who e = t) tr.
Arguments events_of : simpl never.

(** What the shutdown of the timer leaves of the state [s]: the timer has
    returned, every waiting worker is released, the struct is as it was. *)
Definition timer_shutdown (s s' : system) : Prop :=
  th_timer s' = Returned /\
  th_worker s' = broadcast (th_worker s) /\
  (forall i w, th_worker s' !! i = Some w -> is_blocked w = false) /\
  mon s' = mon s /\ exited s' = false.

(** The last calls of the timer thread when it is past its loop: the read
    of a live-service count of zero, then [skynet_socket_exit], then
    [pthread_cond_broadcast]. *)
Definition timer_hist (s : system) : Prop :=
  let evs := events_of T_timer (trace s) in
  match th_timer s with
  | Running Ti_socket_exit =>
      exists tl, evs = Ev T_timer skynet_context_total 0 :: tl
  | Running Ti_broadcast =>
      exists tl, evs = [Ev T_timer skynet_socket_exit 0;
                        Ev T_timer skynet_context_total 0] ++ tl
  | Returned =>
      exists tl, evs = [Ev T_timer pthread_cond_broadcast 0;
                        Ev T_timer skynet_socket_exit 0;
                        Ev T_timer skynet_context_total 0] ++ tl
  | _ => True
  end.

(** The call [c] of the thread of [l] fails with [ret l]: the thread prints
    [msg], calls [exit(1)], and the machine makes no further step. *)
Definition dies (thread : Z) (s : system) (l : label) (c : call) (msg : string) : Prop :=
  forall l2 l3, tid l2 = tid l -> tid l3 = tid l ->
  exists s', run thread [l; l2; l3] s = Some s' /\
    exited s' = true /\
    trace s' = [Ev (tid l) (exit 1) 0; Ev (tid l) (fprintf msg) 0; Ev (tid l) c (ret l)]
               ++ trace s /\
    forall l', step thread s' l' = None.

(** The watchdog has checked both detectors and enters its sleep loop. *)
Definition watchdog_checks : list label :=
  [L T_monitor 1; L T_monitor 0; L T_monitor 0; L T_monitor 0].

Definition watchdog_sleeping : system :=
  Eval vm_compute in run_from_init 2 (boot2 ++ watchdog_checks).

(** The calls [skynet_monitor_check(m->m[i])] for [i] from [from], [len] of
    them, in the order they are made. *)
Definition check_events (mo : monitor) (from len : Z) : list event :=
  (fun i => Ev T_monitor (skynet_monitor_check (m_at mo i)) 0) <$> seqZ from len.

(** The state in which the watchdog is at [st], having made the calls [evs]
    (latest last) since [s]. *)
Definition watchdog_at (st : tstate monitor_pc) (evs : list event) (s : system) : system :=
  {| mon := mon s; pid := pid s; th_start := th_start s; th_monitor := st;
     th_timer := th_timer s; th_socket := th_socket s; th_worker := th_worker s;
     exited := exited s; trace := rev evs ++ trace s |}.

(** *** What [_start] does, call by call *)

Definition st_ev (c : call) (r : Z) : event := Ev T_start c r.

(** Lines 181-186. *)
Definition alloc_events (thread : Z) : list event :=
  [st_ev (skynet_malloc B_monitor) 0; st_ev memset 0; st_ev (store_count thread) 0;
   st_ev (store_sleep 0) 0; st_ev (skynet_malloc (B_array thread)) 0].

(** Lines 188-190: the detectors [hs] are created and stored from index [i]. *)
Fixpoint new_events (i : Z) (hs : list Z) : list event :=
  match hs with
  | [] => []
  | h :: hs' => st_ev skynet_monitor_new h :: st_ev (store_m i h) 0 :: new_events (i + 1) hs'
  end.

(** Lines 191-198. *)
Definition init_events : list event :=
  [st_ev pthread_mutex_init 0; st_ev pthread_cond_init 0].

(** Lines 200-209, up to the worker of index [k]. *)
Definition fixed_creates : list event :=
  [st_ev (pthread_create 0 T_monitor) 0; st_ev (pthread_create 1 T_timer) 0;
   st_ev (pthread_create 2 T_socket) 0].

Definition worker_creates (k : Z) : list event :=
  (fun i => st_ev (pthread_create (i + 3) (T_worker (Z.to_nat i))) 0) <$> seqZ 0 k.

(** Lines 211-213, up to [pid[k]]. *)
Definition join_events (k : Z) : list event :=
  (fun i => st_ev (pthread_join i) 0) <$> seqZ 0 k.

(** [free_monitor], lines 96-102. *)
Definition delete_events (hs : list Z) : list event :=
  (fun h => st_ev (skynet_monitor_delete h) 0) <$> hs.

Definition destroy_events (thread : Z) : list event :=
  [st_ev pthread_mutex_destroy 0; st_ev pthread_cond_destroy 0;
   st_ev (skynet_free (B_array thread)) 0; st_ev (skynet_free B_monitor) 0].

(** The whole of [_start thread], for the detectors [hs], when nothing
    fails. *)
Definition start_events (thread : Z) (hs : list Z) : list event :=
  alloc_events thread ++ new_events 0 hs ++ init_events ++ fixed_creates ++
  worker_creates thread ++ join_events (thread + 3) ++ delete_events hs ++
  destroy_events thread.

(** The calls of [_start] so far, the earliest first. *)
Definition start_log (s : system) : list event := rev (events_of T_start (trace s)).

(** [hs] is the whole array [m->m]. *)
Definition detectors (thread : Z) (s : system) (hs : list Z) : Prop :=
  m (the_monitor s) = hs /\ length hs = Z.to_nat thread.

(** [hs] is the part of [m->m] filled so far, up to index [i]. *)
Definition detectors_upto (thread : Z) (s : system) (i : Z) (hs : list Z) : Prop :=
  length (m (the_monitor s)) = Z.to_nat thread /\ hs = take (Z.to_nat i) (m (the_monitor s)).

(** What [_start] has done when it is at a given program point; nothing is
    said of the points that follow a failure. *)
Definition hist_ok (thread : Z) (s : system) (hs : list Z) : Prop :=
  let tr := start_log s in
  let a := alloc_events thread in
  let b := a ++ new_events 0 hs in
  let c := b ++ init_events in
  let d := c ++ fixed_creates in
  let e := d ++ worker_creates thread ++ join_events (thread + 3) in
  match th_start s with
  | Running St_malloc => tr = []
  | Running St_memset => tr = take 1 a
  | Running St_count => tr = take 2 a
  | Running St_sleep => tr = take 3 a
  | Running St_malloc_m => tr = take 4 a
  | Running (St_new i) =>
      0 <= i <= thread /\ detectors_upto thread s i hs /\ tr = b
  | Running (St_new_store i h) =>
      0 <= i < thread /\ detectors_upto thread s i hs /\
      tr = b ++ [st_ev skynet_monitor_new h]
  | Running St_mutex_init => detectors thread s hs /\ tr = b
  | Running St_cond_init => detectors thread s hs /\ tr = b ++ take 1 init_events
  | Running (St_create_monitor Ct_create) => detectors thread s hs /\ tr = c
  | Running (St_create_timer Ct_create) => detectors thread s hs /\ tr = c ++ take 1 fixed_creates
  | Running (St_create_socket Ct_create) => detectors thread s hs /\ tr = c ++ take 2 fixed_creates
  | Running (St_worker i) | Running (St_create_worker i Ct_create) =>
      detectors thread s hs /\ tr = d ++ worker_creates i
  | Running (St_join i) =>
      detectors thread s hs /\ tr = d ++ worker_creates thread ++ join_events i
  | Running (St_free (Fm_delete i)) =>
      0 <= i <= thread /\ detectors thread s hs /\
      tr = e ++ delete_events (take (Z.to_nat i) hs)
  | Running (St_free Fm_mutex_destroy) =>
      detectors thread s hs /\ tr = e ++ delete_events hs
  | Running (St_free Fm_cond_destroy) =>
      detectors thread s hs /\ tr = e ++ delete_events hs ++ take 1 (destroy_events thread)
  | Running (St_free Fm_free_m) =>
      detectors thread s hs /\ tr = e ++ delete_events hs ++ take 2 (destroy_events thread)
  | Running (St_free Fm_free) =>
      length hs = Z.to_nat thread /\
      tr = e ++ delete_events hs ++ take 3 (destroy_events thread)
  | Returned => length hs = Z.to_nat thread /\ tr = start_events thread hs
  | _ => True
  end.

(** The calls that release the struct. *)
Definition releases (c : call) : bool :=
  match c with
  | skynet_monitor_delete _ | pthread_mutex_destroy | pthread_cond_destroy
  | skynet_free _ => true
  | _ => false
  end.

(** How many calls of a kind a list of events holds. *)
Fixpoint count_calls (p : call -> bool) (evs : list event) : Z :=
  match evs with
  | [] => 0
  | e :: evs' => (if p (what e) then 1 else 0) + count_calls p evs'
  end.

Definition is_new (c : call) : bool :=
  match c with skynet_monitor_new => true | _ => false end.

Definition is_create (c : call) : bool :=
  match c with pthread_create _ _ => true | _ => false end.

Definition is_join (c : call) : bool :=
  match c with pthread_join _ => true | _ => false end.

Definition is_delete (c : call) : bool :=
  match c with skynet_monitor_delete _ => true | _ => false end.

(** The watchdog, the timer, the socket thread and both workers of
    [_start 2] see that no service is left, and return. *)
Definition all_return : list label :=
  [L T_monitor 0; L T_timer 0; L T_timer 0; L T_timer 0; L T_timer 0; L T_socket 0;
   L (T_worker 0) 1; L (T_worker 0) 0; L (T_worker 1) 1; L (T_worker 1) 0].

(** [_start 2] joins its five threads and runs [free_monitor]. *)
Definition join_and_free : list label := replicate 13 (L T_start 0).

Definition start2_done : system :=
  Eval vm_compute in run_from_init 2 (boot2 ++ all_return ++ join_and_free).

(** [_start 2] is about to initialise the mutex (line 191). *)
Definition at_mutex_init : system :=
  Eval vm_compute in run_from_init 2 (take 10 boot2).

(** [_start 2] has created its five threads; none of them has moved. *)
Definition booted : system :=
  Eval vm_compute in run_from_init 2 boot2.

(** Worker 0 found no work, saw a live service and is at line 158. *)
Definition worker0_at_lock : system :=
  Eval vm_compute in run_from_init 2 (boot2 ++ [L (T_worker 0) 1; L (T_worker 0) 1]).

(** Worker 0 sleeps and the timer is about to read the live-service
    count. *)
Definition timer_at_abort : system :=
  Eval vm_compute in run_from_init 2 (boot2 ++ worker0_sleeps ++ [L T_timer 0]).

(** Worker 0 slept, was signalled by the timer, has decremented [m->sleep]
    and is about to unlock the mutex (line 164). *)
Definition worker0_at_unlock : system :=
  Eval vm_compute in
    run_from_init 2 (boot2 ++ worker0_sleeps ++ timer_ticks ++ [L T_timer 0; L T_timer 0] ++
                     [L (T_worker 0) 0; L (T_worker 0) 0; L (T_worker 0) 0]).

(** * skynet_start and _start_master (lines 223-274) *)

(** A [const char *] argument; [None] is the null pointer. *)
Definition cstr : Type := option string.

(** The fields of [struct skynet_config] that [skynet_start] reads. *)
Record skynet_config : Type := SkynetConfig {
  harbor : Z;
  module_path : cstr;
  logger : cstr;
  standalone : cstr;
  master : cstr;
  local : cstr;
  start : cstr;
  thread : Z;
}.

(** The calls of [skynet_start] and [_start_master].  [libc] takes the
    [fprintf] and [exit] of the thread routines; [call_start] is the call
    [_start(thread)] of line 272.  A context is the address
    [skynet_context_new] returns, 0 for [NULL]. *)
Inductive main_call : Type :=
| skynet_harbor_init (h : Z)
| skynet_handle_init (h : Z)
| skynet_mq_init
| skynet_module_init (path : cstr)
| skynet_timer_init
| skynet_socket_init
| skynet_context_new (name : string) (param : cstr)
| skynet_harbor_start (ma lo : cstr)
| skynet_command (ctx : Z) (cmd param : string)
| libc (c : call)
| call_start (n : Z)
| skynet_socket_free.

#[global] Instance main_call_eq_dec : EqDecision main_call.
Proof. solve_decision. Defined.

(** A sequential routine: it returns [r], or makes the call [c] and goes on
    with the value returned. *)
Inductive prog (R : Type) : Type :=
| Ret (r : R)
| Do (c : main_call) (k : Z -> prog R).
Arguments Ret {R} r.
Arguments Do {R} c k.

Fixpoint prog_bind {R S : Type} (f : R -> prog S) (p : prog R) : prog S :=
  match p with
  | Ret r => f r
  | Do c k => Do c (fun v => prog_bind f (k v))
  end.

#[global] Instance prog_mret : MRet prog := @Ret.
#[global] Instance prog_mbind : MBind prog := @prog_bind.

Definition ask (c : main_call) : prog Z := Do c Ret.

(** Lines 223-229. *)
Definition _start_master (ma : cstr) : prog Z :=
  ctx ← ask (skynet_context_new "master" ma);
  if ctx =? 0 then mret 1 else mret 0.

(** Lines 235-274.  The two [return]s of lines 255 and 262 end the
    routine; [exit] does not return, which is left to [interp]. *)
Definition skynet_start (config : skynet_config) : prog unit :=
  ask (skynet_harbor_init (harbor config));;
  ask (skynet_handle_init (harbor config));;
  ask skynet_mq_init;;
  ask (skynet_module_init (module_path config));;
  ask skynet_timer_init;;
  ask skynet_socket_init;;
  ctx ← ask (skynet_context_new "logger" (logger config));
  (if ctx =? 0
   then ask (libc (fprintf "launch logger error"));; ask (libc (exit 1));; mret tt
   else mret tt);;
  failed ← match standalone config with
           | Some _ => _start_master (standalone config)
           | None => mret 0
           end;
  if negb (failed =? 0)
  then ask (libc (fprintf "Init fail : mater"));; mret tt
  else
    failed ← ask (skynet_harbor_start (master config) (local config));
    if negb (failed =? 0)
    then ask (libc (fprintf "Init fail : no master"));; mret tt
    else
      ctx ← ask (skynet_context_new "snlua" (Some "launcher"));
      (if negb (ctx =? 0)
       then ask (skynet_command ctx "REG" ".launcher");;
            ask (skynet_context_new "snlua" (start config));; mret tt
       else mret tt);;
      ask (call_start (thread config));;
      ask skynet_socket_free;;
      mret tt.

(** What a run of [skynet_start] has done: a call with the value it
    returned, or the run of the thread pool of [_start n] with the state in
    which it ended. *)
Inductive main_event : Type :=
| Called (c : main_call) (r : Z)
| Pool (n : Z) (s : system).

(** How a run ends: the routine returned; [exit] was called by the routine
    itself or by a thread of the pool; or the run stops inside [_start],
    whose threads have not finished ([PoolRunning]) or were given a schedule
    they cannot follow ([PoolStuck]). *)
Inductive outcome : Type :=
| Finished
| Exited (code : Z)
| PoolExited
| PoolRunning
| PoolStuck.

Record main_result : Type := MainResult { calls : list main_event; ending : outcome }.

Definition then_ (e : main_event) (r : main_result) : main_result :=
  {| calls := e :: calls r; ending := ending r |}.

(** The calls whose value the routines use; the others are [void] or have
    their value dropped. *)
Definition returns_value (c : main_call) : bool :=
  match c with
  | skynet_context_new _ _ | skynet_harbor_start _ _ => true
  | _ => false
  end.

(** A run of a routine.  The outside world is [answers]: the value
    returned to the [n]-th call that returns one; the threads of the pool
    follow the schedule [ls].  [calls] lists the earliest call first. *)
Fixpoint interp {R : Type} (p : prog R) (answers : nat -> Z) (ls : list label)
    (n : nat) : main_result :=
  match p with
  | Ret _ => {| calls := []; ending := Finished |}
  | Do c k =>
      match c with
      | libc (exit code) => {| calls := [Called c 0]; ending := Exited code |}
      | call_start th =>
          match run th ls (init th) with
          | None => {| calls := []; ending := PoolStuck |}
          | Some s =>
              if exited s then {| calls := [Pool th s]; ending := PoolExited |}
              else if is_returned (th_start s)
                   then then_ (Pool th s) (interp (k 0) answers ls n)
                   else {| calls := [Pool th s]; ending := PoolRunning |}
          end
      | _ =>
          if returns_value c
          then then_ (Called c (answers n)) (interp (k (answers n)) answers ls (S n))
          else then_ (Called c 0) (interp (k 0) answers ls n)
      end
  end.

Definition run_main (config : skynet_config) (answers : nat -> Z) (ls : list label) : main_result :=
  interp (skynet_start config) answers ls 0.

(** The calls of lines 237-242. *)
Definition init_calls (config : skynet_config) : list main_call :=
  [skynet_harbor_init (harbor config); skynet_handle_init (harbor config);
   skynet_mq_init; skynet_module_init (module_path config);
   skynet_timer_init; skynet_socket_init].

(** The run of the pool inside [skynet_start]: what [_start(n)] leaves in
    [calls], and how the run goes on. *)
Definition pool_part (n : Z) (ls : list label) : main_result :=
  match run n ls (init n) with
  | None => {| calls := []; ending := PoolStuck |}
  | Some s =>
      if exited s then {| calls := [Pool n s]; ending := PoolExited |}
      else if is_returned (th_start s)
           then {| calls := [Pool n s; Called skynet_socket_free 0]; ending := Finished |}
           else {| calls := [Pool n s]; ending := PoolRunning |}
  end.

(** The calls of lines 237-245, the logger context being [ctx]. *)
Definition boot_calls (config : skynet_config) (ctx : Z) : list main_event :=
  ((fun c => Called c 0) <$> init_calls config) ++
  [Called (skynet_context_new "logger" (logger config)) ctx].

(** A configuration of two workers, with and without a master to start. *)
Definition config2 : skynet_config :=
  {| harbor := 1; module_path := Some "./service/?.so"; logger := None;
     standalone := None; master := Some "127.0.0.1:2012"; local := Some "127.0.0.1:2525";
     start := Some "main"; thread := 2 |}.

Definition config2_master : skynet_config :=
  {| harbor := 1; module_path := Some "./service/?.so"; logger := None;
     standalone := Some "0.0.0.0:2012"; master := Some "127.0.0.1:2012";
     local := Some "127.0.0.1:2525"; start := Some "main"; thread := 2 |}.

(** The answers of the outside world, from a list; 0 beyond it. *)
Definition answers_of (l : list Z) (n : nat) : Z := default 0 (l !! n).

(** Lines 253: the master, when [standalone] is set, its context being
    [ctx]. *)
Definition master_calls (config : skynet_config) (ctx : Z) : list main_event :=
  match standalone config with
  | Some _ => [Called (skynet_context_new "master" (standalone config)) ctx]
  | None => []
  end.

(** Lines 266-270: the launcher, and with it the first Lua service. *)
Definition launcher_calls (config : skynet_config) (ctx r : Z) : list main_event :=
  Called (skynet_context_new "snlua" (Some "launcher")) ctx ::
  (if ctx =? 0 then []
   else [Called (skynet_command ctx "REG" ".launcher") 0;
         Called (skynet_context_new "snlua" (start config)) r]).

(** How many answers the master takes. *)
Definition master_answers (config : skynet_config) : nat :=
  match standalone config with
  | Some _ => 1
  | None => 0
  end.

(** * Further invariants of the thread pool: definitions *)

(** A worker between the lock of line 158 and the unlock of line 164,
    outside [pthread_cond_wait]. *)
Definition in_critical (w : tstate worker_pc) : bool :=
  match w with
  | Running (W_inc_load | W_inc_store _ | W_cond_wait | W_dec_load | W_dec_store _
            | W_unlock | W_fprintf | W_exit) => true
  | _ => false
  end.

(** The owner of the mutex is a worker inside the critical section. *)
Definition lock_inv (s : system) : Prop :=
  forall mo t, mon s = Some mo -> mutex mo = Some t ->
  exists i w, t = T_worker i /\ th_worker s !! i = Some w /\ in_critical w = true.

(** [pid[0]] ... [pid[k-1]] hold the handles of their threads. *)
Definition pid_filled (s : system) (k : Z) : Prop :=
  forall j, 0 <= j < k -> pid s !! Z.to_nat j = Some (Some (pid_thread (Z.to_nat j))).

(** The workers of index [i] and above have not been created. *)
Definition workers_fresh (s : system) (i : Z) : Prop :=
  forall j w, i <= Z.of_nat j -> th_worker s !! j = Some w -> w = NotCreated.

(** Thread [t] has not been created. *)
Definition not_created (s : system) (t : thread_id) : Prop :=
  match t with
  | T_start => False
  | T_monitor => th_monitor s = NotCreated
  | T_timer => th_timer s = NotCreated
  | T_socket => th_socket s = NotCreated
  | T_worker i => th_worker s !! i = Some NotCreated
  end.

(** The array [pid] along lines 200-213. *)
Definition pid_ok (thread : Z) (s : system) : Prop :=
  match th_start s with
  | Running (St_create_monitor Ct_create) =>
      th_monitor s = NotCreated /\ th_timer s = NotCreated /\ th_socket s = NotCreated /\
      workers_fresh s 0
  | Running (St_create_timer Ct_create) =>
      pid_filled s 1 /\ th_timer s = NotCreated /\ th_socket s = NotCreated /\
      workers_fresh s 0
  | Running (St_create_socket Ct_create) =>
      pid_filled s 2 /\ th_socket s = NotCreated /\ workers_fresh s 0
  | Running (St_worker i) | Running (St_create_worker i Ct_create) =>
      pid_filled s (i + 3) /\ workers_fresh s i
  | Running (St_join _) | Running (St_free _) | Returned => pid_filled s (thread + 3)
  | _ => True
  end.

Record pid_inv (thread : Z) (s : system) : Prop := PidInv {
  pi_length : length (pid s) = Z.to_nat (thread + 3);
  pi_ok : pid_ok thread s;
}.

(** The values [skynet_monitor_new] has returned, in the order of [evs]. *)
Fixpoint new_results (evs : list event) : list Z :=
  match evs with
  | [] => []
  | e :: evs' =>
      match what e with
      | skynet_monitor_new => result e :: new_results evs'
      | _ => new_results evs'
      end
  end.

(** The detectors created so far, the earliest first. *)
Definition detectors_made (s : system) : list Z := new_results (rev (trace s)).

(** The array [m->m] along [_start]: filled from index 0 by the loop of
    lines 188-190, then left as it is until line 101. *)
Definition m_ok (thread : Z) (s : system) : Prop :=
  let mo := the_monitor s in
  let hs := detectors_made s in
  match th_start s with
  | Running (St_malloc | St_memset | St_count | St_sleep | St_malloc_m) => hs = []
  | Running (St_new i) =>
      0 <= i <= thread /\ Z.of_nat (length hs) = i /\
      m mo = hs ++ replicate (Z.to_nat (thread - i)) 0
  | Running (St_new_store i h) =>
      0 <= i < thread /\
      exists hs0, hs = hs0 ++ [h] /\ Z.of_nat (length hs0) = i /\
                  m mo = hs0 ++ replicate (Z.to_nat (thread - i)) 0
  | Running (St_free Fm_free) | Returned => Z.of_nat (length hs) = thread
  | _ => m mo = hs /\ Z.of_nat (length hs) = thread
  end.

(** The loop counters of [_monitor]. *)
Definition monitor_ok (thread : Z) (s : system) : Prop :=
  match th_monitor s with
  | Running (Mo_check i) => 0 <= i <= thread
  | Running (Mo_inner i) => 0 <= i <= 5
  | Running (Mo_sleep i) => 0 <= i < 5
  | _ => True
  end.

(** A thread that has been created and has not returned. *)
Definition alive {PC : Type} (st : tstate PC) : bool :=
  match st with
  | NotCreated | Returned => false
  | _ => true
  end.

(** The calls that release a thread waiting on the condition variable. *)
Definition is_wake (c : call) : bool :=
  match c with
  | pthread_cond_signal | pthread_cond_broadcast => true
  | _ => false
  end.

(** Some thread created by [_start] has not returned. *)
Definition some_alive (s : system) : Prop :=
  alive (th_monitor s) = true \/ alive (th_timer s) = true \/ alive (th_socket s) = true \/
  exists i w, th_worker s !! i = Some w /\ alive w = true.

(** Worker 0 of [_start 2] has seen a live service; the timer then reads a
    live count of zero, shuts the pool down and returns, the socket thread
    returns, and worker 0 goes to sleep on the condition variable. *)
Definition late_sleeper : list label :=
  boot2 ++ [L (T_worker 0) 1; L (T_worker 0) 1] ++
  [L T_timer 0; L T_timer 0; L T_timer 0; L T_timer 0; L T_socket 0] ++
  [L (T_worker 0) 0; L (T_worker 0) 0; L (T_worker 0) 0; L (T_worker 0) 0].

Definition lost_wakeup : system := Eval vm_compute in run_from_init 2 late_sleeper.

(** [_start 2] has joined its five threads and enters [free_monitor]. *)
Definition start2_freeing : system :=
  Eval vm_compute in run_from_init 2 (boot2 ++ all_return ++ replicate 6 (L T_start 0)).

(** [pthread_mutex_init] has failed in [_start 2], and the message is
    printed. *)
Definition init_failed : system :=
  Eval vm_compute in run_from_init 2 (take 10 boot2 ++ [L T_start 1; L T_start 0]).

(** No [pthread_create] has been called before line 200. *)
Definition no_create_yet (s : system) : Prop :=
  before_threads (th_start s) = true ->
  Forall (fun e => is_create (what e) = false) (trace s).

(** The timer and the socket thread have returned, and [evs] (the latest
    first) are the calls made since the state whose trace is [tr]. *)
Definition quiet_since (tr : list event) (s : system) : Prop :=
  th_timer s = Returned /\ th_socket s = Returned /\
  exists evs, trace s = evs ++ tr /\ Forall (fun e => is_wake (what e) = false) evs.

(** When [_start] has returned the struct is freed. *)
Definition freed_ok (s : system) : Prop := th_start s = Returned -> mon s = None.

(** * The progress of [_start]: definitions *)

(** [_start] is on a path that ends in [exit(1)]. *)
Definition failed (st : tstate start_pc) : bool :=
  match st with
  | Running (St_mutex_fprintf | St_cond_fprintf | St_exit
            | St_create_monitor (Ct_fprintf | Ct_exit)
            | St_create_timer (Ct_fprintf | Ct_exit)
            | St_create_socket (Ct_fprintf | Ct_exit)
            | St_create_worker _ (Ct_fprintf | Ct_exit)) => true
  | _ => false
  end.

(** [_start] has created its threads: it is in the loop of line 211, in
    [free_monitor], or has returned. *)
Definition joining (st : tstate start_pc) : bool :=
  match st with
  | Running (St_join _ | St_free _) | Returned => true
  | _ => false
  end.

(** The number of steps [_start thread] has still to make before it
    returns, when none of its calls fails: 21 + 6 * thread at its entry, 9 +
    2 * thread at the first [pthread_join]. *)
Definition steps_left (thread : Z) (st : tstate start_pc) : Z :=
  match st with
  | Running pc =>
      match pc with
      | St_malloc => 21 + 6 * thread
      | St_memset => 20 + 6 * thread
      | St_count => 19 + 6 * thread
      | St_sleep => 18 + 6 * thread
      | St_malloc_m => 17 + 6 * thread
      | St_new i => 16 + 4 * thread + 2 * (thread - i)
      | St_new_store i _ => 15 + 4 * thread + 2 * (thread - i)
      | St_mutex_init => 15 + 4 * thread
      | St_cond_init => 14 + 4 * thread
      | St_create_monitor Ct_create => 13 + 4 * thread
      | St_create_timer Ct_create => 12 + 4 * thread
      | St_create_socket Ct_create => 11 + 4 * thread
      | St_worker i => 10 + 2 * thread + 2 * (thread - i)
      | St_create_worker i Ct_create => 9 + 2 * thread + 2 * (thread - i)
      | St_join i => 6 + thread + (thread + 3 - i)
      | St_free (Fm_delete i) => 5 + (thread - i)
      | St_free Fm_mutex_destroy => 4
      | St_free Fm_cond_destroy => 3
      | St_free Fm_free_m => 2
      | St_free Fm_free => 1
      | _ => 0
      end
  | _ => 0
  end.

(** The calls of [_start] that can fail succeed when made with [l]. *)
Definition calls_succeed (thread : Z) (s : system) (l : label) : Prop :=
  forall c, next_call thread s T_start = Some c ->
  c = pthread_mutex_init \/ c = pthread_cond_init \/ (exists k t, c = pthread_create k t) ->
  ret l = 0.

(** The thread [_start] waits for in its next [pthread_join], if that is
    its next call, has returned. *)
Definition join_ready (thread : Z) (s : system) : Prop :=
  forall k, next_call thread s T_start = Some (pthread_join k) ->
  returned s (pid_thread (Z.to_nat k)) = true.

(** Nothing but the thread of [_start] differs between [s] and [s']. *)
Definition same_threads (s s' : system) : Prop :=
  th_monitor s' = th_monitor s /\ th_timer s' = th_timer s /\
  th_socket s' = th_socket s /\ th_worker s' = th_worker s.

(** The event a step of [_start] adds to the trace: its next call, with
    the value returned ([l] gives the detector that [skynet_monitor_new]
    returns; the other calls return 0 when they succeed); nothing at a loop
    test that fails. *)
Definition start_event (thread : Z) (s : system) (l : label) : list event :=
  match next_call thread s T_start with
  | Some c => [Ev T_start c (if is_new c then ret l else 0)]
  | None => []
  end.

(** The workers while only [_start] has moved: those of index below [i]
    are at the entry of [_worker], the others are not created. *)
Definition spawned_workers (thread i : Z) : list (tstate worker_pc) :=
  replicate (Z.to_nat i) (Running W_dispatch) ++
  replicate (Z.to_nat (thread - i)) NotCreated.

(** The threads [_start] has created so far are at the entry of their
    routines. *)
Definition spawn_ok (thread : Z) (s : system) : Prop :=
  match th_start s with
  | Running (St_create_timer Ct_create) => th_monitor s = Running Mo_abort
  | Running (St_create_socket Ct_create) =>
      th_monitor s = Running Mo_abort /\ th_timer s = Running Ti_updatetime
  | Running (St_worker i) | Running (St_create_worker i Ct_create) =>
      th_monitor s = Running Mo_abort /\ th_timer s = Running Ti_updatetime /\
      th_socket s = Running So_poll /\ th_worker s = spawned_workers thread i
  | Running (St_join _) =>
      th_monitor s = Running Mo_abort /\ th_timer s = Running Ti_updatetime /\
      th_socket s = Running So_poll /\ th_worker s = spawned_workers thread thread
  | _ => True
  end.

(** The schedule entry that lets [_start] make its next step: the call
    succeeds, and at line 189 [skynet_monitor_new] returns the detector of
    [hs] for the index [i]. *)
Definition start_label (hs : list Z) (s : system) : label :=
  L T_start (match th_start s with
             | Running (St_new i) => default 0 (hs !! Z.to_nat i)
             | _ => 0
             end).

(** [n] steps of [_start], with the detectors [hs]. *)
Fixpoint start_labels (thread : Z) (hs : list Z) (n : nat) (s : system) : list label :=
  match n with
  | O => []
  | S n' =>
      start_label hs s ::
      match step thread s (start_label hs s) with
      | Some s' => start_labels thread hs n' s'
      | None => []
      end
  end.

(** The detectors [_start] has created so far are the first of [hs]. *)
Definition made_from (hs : list Z) (s : system) : Prop :=
  exists k, new_results (start_log s) = take k hs.

(** Worker [i] finds no work, sees that no service is left and returns. *)
Definition worker_returns (i : nat) : list label := [L (T_worker i) 1; L (T_worker i) 0].

(** The watchdog, the timer, the socket thread and the workers see one
    after the other that no service is left, and return. *)
Definition pool_returns (thread : Z) : list label :=
  [L T_monitor 0; L T_timer 0; L T_timer 0; L T_timer 0; L T_timer 0; L T_socket 0] ++
  (seq 0 (Z.to_nat thread) ≫= worker_returns).

(** A whole run of [_start thread] that creates the detectors [hs]:
    [_start] up to its first [pthread_join], the threads of the pool, and
    [_start] to its end. *)
Definition whole_run (thread : Z) (hs : list Z) : list label :=
  start_labels thread hs (Z.to_nat (12 + 4 * thread)) (init thread) ++
  pool_returns thread ++
  replicate (Z.to_nat (9 + 2 * thread)) (L T_start 0).

(** The five threads of [_start 2] have returned; [_start] has not joined
    them yet. *)
Definition pool2_returned : system :=
  Eval vm_compute in run_from_init 2 (boot2 ++ all_return).

(** * Proofs *)

(** ** Inversion of a step *)

Lemma exec_inv {PC : Type} (code : PC -> instr PC) t l s st s' st' :
  exec code t l s st = Some (s', st') ->
  match st with
  | Running pc =>
      match code pc with
      | Skip k => s' = s /\ st' = resume k
      | Call c k =>
          exists r s1 w, perform t c l s = Some (r, s1, w) /\
            s' = log (Ev t c r) s1 /\
            st' = if w : bool then CondBlocked pc else resume (k r)
      end
  | CondBlocked pc => s' = s /\ st' = CondWoken pc
  | CondWoken pc =>
      exists mo, mon s = Some mo /\ mutex mo = None /\
        match code pc with
        | Call _ k => s' = set_mon (Some (set_mutex (Some t) mo)) s /\ st' = resume (k 0)
        | Skip _ => False
        end
  | _ => False
  end.
Proof.
  destruct st as [|pc|pc|pc|]; simpl; try discriminate.
  - destruct (code pc) as [c k|k].
    + destruct (perform t c l s) as [[[r s1] w]|]; simpl; [|discriminate].
      intros [= <- <-]. eauto 6.
    + intros [= <- <-]. auto.
  - intros [= <- <-]. auto.
  - destruct (mon s) as [mo|]; simpl; [|discriminate].
    destruct (mutex mo) eqn:Hm; [discriminate|].
    destruct (code pc) as [c k|k]; [|discriminate].
    intros [= <- <-]. eauto.
Qed.

Ltac destruct_pcs :=
  repeat match goal with
  | x : start_pc |- _ => destruct x
  | x : monitor_pc |- _ => destruct x
  | x : timer_pc |- _ => destruct x
  | x : socket_pc |- _ => destruct x
  | x : worker_pc |- _ => destruct x
  | x : create_pc |- _ => destruct x
  | x : free_pc |- _ => destruct x
  | x : wakeup_pc |- _ => destruct x
  end.

Ltac perform_inv H :=
  cbn [perform] in H; unfold with_mon, spawn, signal in H;
  repeat first
    [ discriminate H
    | match type of H with
      | context [if ?b then _ else _] => destruct b eqn:?
      | context [mon ?s] => destruct (mon s) eqn:?
      | context [match ?x with _ => _ end] => destruct x eqn:?
      end
    | progress cbn [mbind option_bind] in H ];
  injection H as <- <- <-.

Ltac resume_cases Hst :=
  simpl in Hst;
  repeat match type of Hst with
  | context [if ?b then _ else _] =>
      first [ match goal with E : b = _ |- _ => rewrite E in Hst end
            | destruct b eqn:? ]
  end;
  cbn [resume lift_ctl] in Hst;
  subst.

(** The state of the moving thread is case-split; with [Hwf : wf s] the
    waiting states that cannot occur are dropped, and a waiting worker is
    placed at line 162. *)
Ltac exec_cases He Hwf :=
  match type of He with
  | match ?st with _ => _ end =>
      let E := fresh "Est" in
      destruct st eqn:E; try contradiction;
      try (exfalso;
           first [ generalize (wf_start _ Hwf); rewrite E; exact (fun x => x)
                 | generalize (wf_monitor _ Hwf); rewrite E; exact (fun x => x)
                 | generalize (wf_timer _ Hwf); rewrite E; exact (fun x => x)
                 | generalize (wf_socket _ Hwf); rewrite E; exact (fun x => x) ]);
      try match goal with
          | Hw : th_worker _ !! _ = Some (CondBlocked _) |- _ =>
              generalize (wf_worker _ Hwf _ _ Hw); simpl; intros ->
          | Hw : th_worker _ !! _ = Some (CondWoken _) |- _ =>
              generalize (wf_worker _ Hwf _ _ Hw); simpl; intros ->
          end
  end;
  destruct_pcs;
  cbn -[the_monitor perform] in He;
  repeat match type of He with
  | context [if ?b then _ else _] => destruct b eqn:?
  end;
  first
    [ contradiction
    | let Hp := fresh "Hp" in
      let Hst := fresh "Hst" in
      destruct He as (? & ? & ? & Hp & -> & Hst); perform_inv Hp; resume_cases Hst
    | destruct He as (? & ? & ? & -> & ->)
    | destruct He as (? & ? & ? & ?); contradiction
    | destruct He as [-> ->] ].

Ltac step_inv H Hwf :=
  unfold step in H;
  match type of H with context [exited ?s] => destruct (exited s) eqn:? end;
  [discriminate H|];
  match type of H with context [tid ?l] => destruct (tid l) eqn:? end;
  try match type of H with
  | context [th_worker ?s !! ?i] => destruct (th_worker s !! i) eqn:?; [|discriminate H]
  end;
  cbn [mbind option_bind] in H;
  match type of H with
  | context [exec ?c ?t ?l ?s ?st] =>
      let He := fresh "He" in
      destruct (exec c t l s st) as [[? ?]|] eqn:He; [|discriminate H];
      apply exec_inv in He;
      injection H as <-;
      exec_cases He Hwf
  end.

Lemma lookup_insert_cases {A : Type} (l : list A) (i j : nat) (x y : A) :
  <[i := x]> l !! j = Some y ->
  (j = i /\ y = x) \/ (j <> i /\ l !! j = Some y).
Proof.
  destruct (decide (j = i)) as [->|Hne].
  - intros H. left. split; [done|].
    assert (i < length l)%nat as Hi.
    { apply lookup_lt_Some in H. by rewrite length_insert in H. }
    rewrite list_lookup_insert_eq in H by done. congruence.
  - rewrite list_lookup_insert_ne by done. auto.
Qed.

Lemma wf_step thread s l s' : wf s -> step thread s l = Some s' -> wf s'.
Proof.
  intros Hwf H. pose proof Hwf as [H1 H2 H3 H4 H5].
  step_inv H Hwf.
  all: constructor; simpl; try done.
  all: try (rewrite ?Est; done).
  all: try (intros j w Hj; apply lookup_insert_cases in Hj as [[-> ->]|[_ Hj]]; simpl; by eauto).
  all: try (intros j w Hj; apply lookup_insert_cases in Hj as [[-> ->]|[_ Hj]]; simpl;
            [ match goal with
              | Hq : th_worker _ !! _ = Some (CondBlocked _) |- _ => exact (H5 _ _ Hq)
              end
            | by eauto ]).
  intros j w. unfold broadcast. rewrite list_lookup_fmap.
  destruct (th_worker s !! j) as [w0|] eqn:Hj; [|done].
  intros [= <-]. specialize (H5 _ _ Hj). by destruct w0.
Qed.

Lemma wf_init thread : wf (init thread).
Proof.
  constructor; simpl; try done.
  intros i w Hi. apply lookup_replicate in Hi as [-> _]. done.
Qed.

(** Induction over the runs of the machine. *)
Lemma run_invariant thread (P : system -> Prop) :
  (forall s l s', P s -> step thread s l = Some s' -> P s') ->
  forall ls s s', P s -> run thread ls s = Some s' -> P s'.
Proof.
  intros Hstep ls. induction ls as [|l ls IH]; intros s s' Hs; simpl.
  - by intros [= <-].
  - destruct (step thread s l) as [s1|] eqn:H1; simpl; [|discriminate].
    intros H. exact (IH _ _ (Hstep _ _ _ Hs H1) H).
Qed.

Lemma run_app thread ls1 ls2 s :
  run thread (ls1 ++ ls2) s = run thread ls1 s ≫= run thread ls2.
Proof.
  revert s. induction ls1 as [|l ls1 IH]; intros s; simpl; [done|].
  destruct (step thread s l); simpl; auto.
Qed.

Lemma reachable_wf thread s : reachable thread s -> wf s.
Proof.
  intros [ls H]. revert H. apply run_invariant with (P := wf); [|apply wf_init].
  intros ? ? ?. apply wf_step.
Qed.

Lemma events_of_cons t e tr :
  events_of t (e :: tr) = if decide (who e = t) then e :: events_of t tr else events_of t tr.
Proof. unfold events_of. rewrite filter_cons. by destruct (decide (who e = t)). Qed.


(** ** The accounting of [m->sleep] *)

Lemma int_wrap_id z : INT_MIN <= z <= INT_MAX -> int_wrap z = z.
Proof.
  unfold INT_MIN, INT_MAX, int_wrap. intros H.
  rewrite Z.mod_small; lia.
Qed.

Lemma sleeping_bounds ws : 0 <= sleeping ws <= Z.of_nat (length ws).
Proof. induction ws as [|w ws IH]; simpl; [lia|]. destruct (asleep w); lia. Qed.

Lemma sleeping_insert ws i w w' :
  ws !! i = Some w ->
  sleeping (<[i := w']> ws) =
  sleeping ws - (if asleep w then 1 else 0) + (if asleep w' then 1 else 0).
Proof.
  revert i. induction ws as [|w0 ws IH]; intros [|i]; simpl; try done.
  - intros [= ->]. lia.
  - intros H. rewrite (IH _ H). lia.
Qed.

Lemma sleeping_broadcast ws : sleeping (broadcast ws) = sleeping ws.
Proof.
  unfold broadcast. induction ws as [|w ws IH]; [done|].
  rewrite fmap_cons. cbn [sleeping]. rewrite IH. by destruct w.
Qed.

Lemma sleeping_not_created ws :
  (forall i w, ws !! i = Some w -> w = NotCreated) -> sleeping ws = 0.
Proof.
  induction ws as [|w ws IH]; intros H; simpl; [done|].
  rewrite (H 0%nat w eq_refl). simpl. apply IH. intros i. apply (H (S i)).
Qed.

Lemma worker_ok_other mo mo' j w :
  worker_ok mo j w -> mutex mo <> Some (T_worker j) -> worker_ok mo' j w.
Proof. destruct w as [|[]| | |]; simpl; tauto. Qed.

Lemma worker_ok_same mo mo' j w :
  worker_ok mo j w -> mutex mo' = mutex mo -> sleep mo' = sleep mo -> worker_ok mo' j w.
Proof. intros H Hm Hs. destruct w as [|[]| | |]; simpl in *; rewrite ?Hm, ?Hs; tauto. Qed.

Lemma worker_ok_update mo mo' (ws : list (tstate worker_pc)) i w' :
  (forall j w, ws !! j = Some w -> worker_ok mo j w) ->
  worker_ok mo' i w' ->
  (mutex mo' = mutex mo /\ sleep mo' = sleep mo) \/
  mutex mo = None \/ mutex mo = Some (T_worker i) ->
  forall j w, <[i := w']> ws !! j = Some w -> worker_ok mo' j w.
Proof.
  intros Hall Hi Hside j w Hj.
  apply lookup_insert_cases in Hj as [[-> ->]|[Hne Hj]]; [done|].
  specialize (Hall _ _ Hj).
  destruct Hside as [[Hm Hs]|Hside].
  - by apply worker_ok_same with mo.
  - apply worker_ok_other with mo; [done|].
    destruct Hside as [-> | ->]; congruence.
Qed.

Lemma worker_ok_broadcast mo (ws : list (tstate worker_pc)) :
  (forall j w, ws !! j = Some w -> worker_ok mo j w) ->
  forall j w, broadcast ws !! j = Some w -> worker_ok mo j w.
Proof.
  intros Hall j w. unfold broadcast. rewrite list_lookup_fmap.
  destruct (ws !! j) as [w0|] eqn:Hj; [|done].
  intros [= <-]. specialize (Hall _ _ Hj). by destruct w0.
Qed.

Lemma not_created_broadcast (ws : list (tstate worker_pc)) :
  (forall j w, ws !! j = Some w -> w = NotCreated) ->
  forall j w, broadcast ws !! j = Some w -> w = NotCreated.
Proof.
  intros Hall j w. unfold broadcast. rewrite list_lookup_fmap.
  destruct (ws !! j) as [w0|] eqn:Hj; [|done].
  intros [= <-]. by rewrite (Hall _ _ Hj).
Qed.

Lemma sleep_inv_init thread : sleep_inv thread (init thread).
Proof.
  constructor; simpl; try done.
  - by rewrite length_replicate.
  - intros _ i w Hi. by apply lookup_replicate in Hi as [-> _].
Qed.

Lemma length_broadcast ws : length (broadcast ws) = length ws.
Proof. apply length_fmap. Qed.

Ltac intro_mon Hmo :=
  intros Hmo;
  try match goal with
      | E : mon _ = Some _ |- _ =>
          tryif constr_eq E Hmo then fail else rewrite E in Hmo
      | E : mon _ = None |- _ => rewrite E in Hmo; discriminate Hmo
      end.

Section SleepInv.

Variable thread : Z.
Hypothesis thread_range : 0 <= thread <= INT_MAX.

Lemma sleep_inv_step s l s' :
  wf s -> sleep_inv thread s -> step thread s l = Some s' -> sleep_inv thread s'.
Proof.
  intros Hwf Hinv H. pose proof Hinv as [Hlen Hentry Hearly Hcount Hown Hsleep Hwok].
  step_inv H Hwf.
  all: rewrite ?Est in *; simpl in Hearly, Hcount, Hentry.
  all: try specialize (Hearly eq_refl).
  all: try match goal with
           | E : mon _ = Some _ |- _ =>
               specialize (Hcount _ E); specialize (Hown _ E); specialize (Hsleep _ E);
               pose proof (fun i w => Hwok _ i w E) as Hwok'; clear Hwok;
               rename Hwok' into Hwok
           | _ =>
               specialize (Hcount _ eq_refl); specialize (Hown _ eq_refl);
               specialize (Hsleep _ eq_refl);
               pose proof (fun i w => Hwok _ i w eq_refl) as Hwok'; clear Hwok;
               rename Hwok' into Hwok
           end.
  all: try match goal with
           | Hq : th_worker _ !! _ = Some _ |- _ =>
               let Hself := fresh "Hself" in
               first [ pose proof (Hwok _ _ Hq) as Hself
                     | pose proof (fun mo E => Hwok mo _ _ E Hq) as Hself ];
               simpl in Hself
           end.
  all: constructor; simpl.
  all: rewrite ?length_insert, ?length_broadcast.
  all: try done.
  all: try (intros Hs; specialize (Hentry Hs); congruence).
  all: try (intros Hb; specialize (Hearly Hb);
            first [ apply not_created_broadcast; assumption
                  | match goal with
                    | Hq : th_worker _ !! _ = Some _ |- _ =>
                        specialize (Hearly _ _ Hq); discriminate
                    end ]).
  all: try (by eauto).
  all: try match goal with
           | |- forall mo : monitor, _ -> count_ok _ _ _ =>
               let Hmo := fresh "Hmo" in
               intros ?; intro_mon Hmo; first [ injection Hmo as <-; assumption | by apply Hcount ]
           | |- forall mo : monitor, _ -> count _ = _ =>
               let Hmo := fresh "Hmo" in
               intros ?; intro_mon Hmo; injection Hmo as <-; simpl; done
           | |- forall mo : monitor, _ -> owner_ok _ =>
               let Hmo := fresh "Hmo" in
               intros ?; intro_mon Hmo; first [ injection Hmo as <-; done | by apply Hown ]
           end.
  all: try match goal with
           | |- forall mo : monitor, _ -> sleep mo = _ =>
               let Hmo := fresh "Hmo" in
               intros ?; intro_mon Hmo;
               first [ injection Hmo as <-
                     | specialize (Hsleep _ Hmo); try specialize (Hself _ Hmo) ];
               simpl
           | |- forall (mo : monitor) (i : nat) (w : _), _ -> _ -> worker_ok _ _ _ =>
               let Hmo := fresh "Hmo" in
               let j := fresh "j" in
               let w := fresh "w" in
               intros ? j w; intro_mon Hmo; revert j w;
               first [ injection Hmo as <-
                     | pose proof (fun i w => Hwok _ i w Hmo) as Hwok'; clear Hwok;
                       rename Hwok' into Hwok; try specialize (Hself _ Hmo) ]
           end.
  all: try assumption.
  all: try match goal with
           | |- _ = sleeping _ =>
               match type of Hlen with
               | length ?ws = _ => pose proof (sleeping_bounds ws) as Hb0
               end;
               rewrite ?sleeping_broadcast;
               try rewrite (sleeping_not_created _ Hearly);
               try match goal with
                   | |- context [sleeping (<[?i := ?w]> ?ws)] =>
                       pose proof (sleeping_bounds (<[i := w]> ws)) as Hb1;
                       rewrite length_insert in Hb1;
                       erewrite sleeping_insert in Hb1 |- * by eassumption;
                       cbn [asleep] in Hb1 |- *
                   end;
               rewrite Hlen, Z2Nat.id in * by lia;
               unfold int_add, int_sub;
               rewrite ?int_wrap_id by (unfold INT_MIN, INT_MAX in *; lia);
               lia
           end.
  all: try (apply worker_ok_broadcast; exact Hwok).
  all: try (eapply worker_ok_update;
            [ exact Hwok
            | simpl; tauto
            | first [ left; split; reflexivity
                    | right; left; assumption
                    | right; right; tauto ] ]).
  all: try (intros j w Hj; rewrite (Hearly _ _ Hj); exact I).
  all: try (intros j w Hj; eapply worker_ok_same; [ by eapply Hwok | done | done ]).
Qed.

End SleepInv.

(** ** The progress of [_start] *)

Lemma pid_thread_worker i : 0 <= i -> pid_thread (Z.to_nat (i + 3)) = T_worker (Z.to_nat i).
Proof.
  intros Hi. rewrite Z2Nat.inj_add by lia.
  replace (Z.to_nat 3) with 3%nat by reflexivity.
  rewrite Nat.add_comm. reflexivity.
Qed.

Lemma returned_pid_thread s (k : Z) :
  0 <= k -> returned s (pid_thread (Z.to_nat k)) = true ->
  (k = 0 -> th_monitor s = Returned) /\
  (k = 1 -> th_timer s = Returned) /\
  (k = 2 -> th_socket s = Returned) /\
  (forall j, k = Z.of_nat j + 3 -> th_worker s !! j = Some Returned).
Proof.
  intros Hk H. repeat split.
  - intros ->. simpl in H. by destruct (th_monitor s).
  - intros ->. simpl in H. by destruct (th_timer s).
  - intros ->. simpl in H. by destruct (th_socket s).
  - intros j ->. rewrite pid_thread_worker in H by lia.
    rewrite Nat2Z.id in H. simpl in H.
    destruct (th_worker s !! j) as [[]|]; done.
Qed.

Lemma joined_next s i :
  0 <= i -> joined s i -> returned s (pid_thread (Z.to_nat i)) = true -> joined s (i + 1).
Proof.
  intros Hi [H1 H2 H3 H4] Hr.
  apply returned_pid_thread in Hr as (R1 & R2 & R3 & R4); [|done].
  constructor.
  - intros ?. destruct (decide (i = 0)); [auto | apply H1; lia].
  - intros ?. destruct (decide (i = 1)); [auto | apply H2; lia].
  - intros ?. destruct (decide (i = 2)); [auto | apply H3; lia].
  - intros j w Hj Hw. destruct (decide (i = Z.of_nat j + 3)) as [E|E].
    + specialize (R4 _ E). congruence.
    + apply (H4 j); [lia | done].
Qed.

Lemma joined_le s i j : j <= i -> joined s i -> joined s j.
Proof.
  intros Hji [H1 H2 H3 H4]. constructor; intros; eauto with lia.
  eapply H4; [|done]. lia.
Qed.

Lemma start_inv_init thread : start_inv thread (init thread).
Proof.
  constructor; unfold start_ok; simpl; auto.
  intros k t Hk. apply lookup_replicate in Hk as [? _]. done.
Qed.

Lemma returned_broadcast (ws : list (tstate worker_pc)) :
  forall j w, broadcast ws !! j = Some w ->
  exists w0, ws !! j = Some w0 /\ w = wake w0.
Proof.
  intros j w. unfold broadcast. rewrite list_lookup_fmap.
  destruct (ws !! j) as [w0|]; [|done]. intros [= <-]. eauto.
Qed.

Ltac bool_hyps :=
  repeat match goal with
  | H : (_ <? _) = true |- _ => apply Z.ltb_lt in H
  | H : (_ <? _) = false |- _ => apply Z.ltb_ge in H
  | H : (_ =? _) = true |- _ => apply Z.eqb_eq in H
  | H : (_ =? _) = false |- _ => apply Z.eqb_neq in H
  end.

Ltac int_arith :=
  unfold int_add, int_sub in *;
  repeat match goal with
  | |- context [int_wrap ?z] =>
      rewrite (int_wrap_id z) by (unfold INT_MIN, INT_MAX in *; lia)
  | H : context [int_wrap ?z] |- _ =>
      rewrite (int_wrap_id z) in H by (unfold INT_MIN, INT_MAX in *; lia)
  end.

(** [joined] after a step, from [joined] before it: a thread that has
    returned makes no step and is not woken. *)
Ltac solve_joined :=
  match goal with
  | J : joined _ _ |- joined _ _ =>
      let J1 := fresh "J" in
      let J2 := fresh "J" in
      let J3 := fresh "J" in
      let J4 := fresh "J" in
      destruct J as [J1 J2 J3 J4]; constructor; simpl;
      [ first [ intros Hi; apply J1; lia | intros Hi; specialize (J1 ltac:(lia)); congruence ]
      | first [ intros Hi; apply J2; lia | intros Hi; specialize (J2 ltac:(lia)); congruence ]
      | first [ intros Hi; apply J3; lia | intros Hi; specialize (J3 ltac:(lia)); congruence ]
      | let j := fresh "j" in
        let w := fresh "w" in
        let Hj := fresh "Hj" in
        let Hw := fresh "Hw" in
        intros j w Hj Hw;
        first
          [ apply (J4 j w); [lia | exact Hw]
          | apply returned_broadcast in Hw as (? & Hw & ->);
            rewrite (J4 j _ ltac:(lia) Hw); reflexivity
          | apply lookup_insert_cases in Hw as [[-> ->]|[_ Hw]];
            [ match goal with
              | Hq : th_worker _ !! _ = Some _ |- _ =>
                  let E := fresh "E" in
                  pose proof (fun Hlt => J4 _ _ Hlt Hq) as E;
                  specialize (E ltac:(lia)); discriminate E
              end
            | apply (J4 j w); [lia | exact Hw] ] ] ]
  end.

Section StartInv.

Variable thread : Z.
Hypothesis thread_range : 0 <= thread <= INT_MAX - 3.

Lemma start_inv_step s l s' :
  wf s -> start_inv thread s -> step thread s l = Some s' -> start_inv thread s'.
Proof.
  intros Hwf Hinv H. pose proof Hinv as [Hpid Hok Hmon Hearly].
  unfold start_ok in Hok.
  step_inv H Hwf.
  all: rewrite ?Est in *.
  all: bool_hyps.
  all: constructor; unfold start_ok; simpl.
  all: rewrite ?Est.
  all: try done.
  all: try (intros Hb; destruct (Hearly Hb) as (? & ? & ?); congruence).
  all: try (intros Hn;
            first [ discriminate Hn | congruence | exact (Hmon Hn)
                  | destruct (Hmon Hn); congruence ]).
  all: try (intros k t Hk; apply lookup_insert_cases in Hk as [[-> E]|[_ Hk]];
            [ injection E as ->;
              first [ reflexivity | int_arith; by rewrite pid_thread_worker by lia ]
            | by eauto ]).
  all: try match goal with
           | |- context [match th_start ?s with _ => _ end] =>
               revert Hok; destruct (th_start s) as [|[]| | |] eqn:?; intros Hok
           end.
  all: try done.
  all: try match goal with
           | Hq : pid _ !! Z.to_nat ?i = Some (Some ?t), Hr : returned _ ?t = true,
             J : _ /\ joined ?s ?i |- _ =>
               rewrite (Hpid _ _ Hq) in Hr;
               apply (joined_next s i ltac:(lia) (proj2 J)) in Hr
           end.
  all: int_arith.
  all: try lia.
  all: try match goal with
           | |- _ /\ joined _ _ => split; [lia|]
           end.
  all: try match goal with
           | J : _ /\ joined _ _ |- _ => destruct J as [? ?]
           end.
  all: try solve_joined.
  all: try (constructor; simpl; intros; lia).
  all: auto.
Qed.

End StartInv.

(** ** Reachable states *)

Lemma reachable_init thread : reachable thread (init thread).
Proof. by exists []. Qed.

Lemma reachable_step thread s l s' :
  reachable thread s -> step thread s l = Some s' -> reachable thread s'.
Proof.
  intros [ls H] Hs. exists (ls ++ [l]). rewrite run_app, H. simpl. by rewrite Hs.
Qed.

Lemma reachable_run thread ls s s' :
  reachable thread s -> run thread ls s = Some s' -> reachable thread s'.
Proof.
  intros [ls0 H] Hs. exists (ls0 ++ ls). by rewrite run_app, H.
Qed.

Lemma reachable_sleep_inv thread s :
  0 <= thread <= INT_MAX -> reachable thread s -> wf s /\ sleep_inv thread s.
Proof.
  intros Hr [ls H]. revert H.
  apply run_invariant with (P := fun s => wf s /\ sleep_inv thread s).
  - intros s0 l s1 [Hwf Hsi] Hs. split; [by eapply wf_step|by eapply sleep_inv_step].
  - split; [apply wf_init|apply sleep_inv_init].
Qed.

Lemma reachable_start_inv thread s :
  0 <= thread <= INT_MAX - 3 -> reachable thread s -> start_inv thread s.
Proof.
  intros Hr [ls H].
  assert (wf s /\ start_inv thread s) as [_ ?]; [|done]. revert H.
  apply run_invariant with (P := fun s => wf s /\ start_inv thread s).
  - intros s0 l s1 [Hwf Hsi] Hs. split; [by eapply wf_step|by eapply start_inv_step].
  - split; [apply wf_init|apply start_inv_init].
Qed.

(** ** [m->sleep] stays within its bounds *)

(** C5. In every reachable state of the scheduler in which the struct
    exists, [0 <= m->sleep <= m->count]; [m->sleep] is 0 once [_start] has
    initialised it (line 184), and equals the number of workers between
    their increment and their decrement of it. *)
Theorem sleep_bounds thread s mo :
  0 <= thread <= INT_MAX ->
  reachable thread s ->
  mon s = Some mo ->
  0 <= sleep mo <= count mo /\
  sleep mo = sleeping (th_worker s) /\
  (th_start s = Running St_malloc_m -> sleep mo = 0).
Proof.
  intros Hr Hreach Hmo.
  destruct (reachable_sleep_inv _ _ Hr Hreach) as [Hwf [Hlen Hentry Hearly Hcount Hown Hsleep Hwok]].
  specialize (Hcount _ Hmo). specialize (Hsleep _ Hmo).
  pose proof (sleeping_bounds (th_worker s)) as Hb.
  rewrite Hlen, Z2Nat.id in Hb by lia.
  split; [|split; [done|]].
  - unfold count_ok in Hcount.
    destruct (th_start s) as [|[]| | |] eqn:Est; try lia.
    all: rewrite Hsleep, (sleeping_not_created _ (Hearly eq_refl)); lia.
  - intros Est. rewrite Est in Hearly.
    by rewrite Hsleep, (sleeping_not_created _ (Hearly eq_refl)).
Qed.

Lemma sleep_bounds_witness :
  0 <= 1 <= 2 /\ 1 = sleeping (th_worker one_asleep) /\
  (th_start one_asleep = Running St_malloc_m -> 1 = 0).
Proof.
  apply (sleep_bounds 2 one_asleep
           {| count := 2; m := [100; 101]; mutex := None; sleep := 1 |}).
  - unfold INT_MAX. lia.
  - exists (boot2 ++ worker0_sleeps). vm_compute. reflexivity.
  - reflexivity.
Defined.

(** ** Who touches [m->sleep], and under which lock *)

Section SleepAccess.

Variable thread : Z.
Hypothesis thread_range : 0 <= thread <= INT_MAX - 3.

(** A worker that has been created and has not returned finds the struct
    allocated. *)
Lemma worker_running_mon s i w :
  reachable thread s -> th_worker s !! i = Some w ->
  w <> NotCreated -> w <> Returned -> exists mo, mon s = Some mo.
Proof.
  intros Hreach Hw Hn Hr.
  destruct (mon s) as [mo|] eqn:Hmo; [eauto|]. exfalso.
  assert (0 <= thread <= INT_MAX) as Hr' by (unfold INT_MAX in *; lia).
  destruct (reachable_sleep_inv _ _ Hr' Hreach) as [_ [Hlen _ Hearly _ _ _ _]].
  destruct (reachable_start_inv _ _ thread_range Hreach) as [_ Hok Hmon].
  destruct (Hmon Hmo) as [E|E]; unfold start_ok in Hok; rewrite E in *.
  - apply Hn. by eapply Hearly.
  - apply Hr. eapply (jn_worker _ _ Hok); [|done].
    apply lookup_lt_Some in Hw. lia.
Qed.

(** C2, as the code has it. Every read and every write of [m->sleep] by a
    worker (lines 159 and 163) is made while that worker holds the mutex.
    The only other accesses are the read in [wakeup], made by the timer and
    socket threads (line 64), and the two writes of [_start]: the [memset]
    of line 182 and [m->sleep = 0] of line 184.  None of these is made with
    the mutex held, which only workers ever hold; the writes of [_start]
    are made before any thread has been created. *)
Theorem sleep_access_lock s :
  reachable thread s ->
  (forall i c, next_call thread s (T_worker i) = Some c ->
                accesses_sleep c = true -> holds_lock s (T_worker i)) /\
  (forall t c, next_call thread s t = Some c -> accesses_sleep c = true ->
                (exists i, t = T_worker i) \/
                ((t = T_timer \/ t = T_socket) /\ c = load_sleep /\ ~ holds_lock s t) \/
                (t = T_start /\ (c = memset \/ c = store_sleep 0) /\
                 ~ holds_lock s t /\ no_thread_yet s)) /\
  (forall t, holds_lock s t -> exists i, t = T_worker i).
Proof.
  intros Hreach.
  assert (0 <= thread <= INT_MAX) as Hr' by (unfold INT_MAX in *; lia).
  destruct (reachable_sleep_inv _ _ Hr' Hreach) as [Hwf [_ _ Hearly _ Hown _ Hwok]].
  destruct (reachable_start_inv _ _ thread_range Hreach) as [_ _ _ Hst].
  assert (forall t, holds_lock s t -> exists i, t = T_worker i) as Howner.
  { intros t (mo & Hmo & Hm). specialize (Hown _ Hmo). unfold owner_ok in Hown.
    rewrite Hm in Hown. destruct t; try done. eauto. }
  assert (forall t, (forall i, t <> T_worker i) -> ~ holds_lock s t) as Hfree.
  { intros t Hne Hl. destruct (Howner _ Hl) as [i ->]. by destruct (Hne i). }
  split; [|split; [|exact Howner]].
  - intros i c Hc Ha. unfold next_call in Hc.
    destruct (th_worker s !! i) as [w|] eqn:Hw; [|done]. simpl in Hc.
    destruct w as [|pc|pc|pc|]; try done.
    destruct (worker_running_mon s i _ Hreach Hw) as [mo Hmo]; [done..|].
    specialize (Hwok _ _ _ Hmo Hw). exists mo. split; [done|].
    destruct pc; simpl in Hc; injection Hc as <-; try done; simpl in Hwok; tauto.
  - intros t c Hc Ha. destruct t as [| | | |i]; [| | | |by eauto]; unfold next_call in Hc.
    + right. right. split; [done|].
      destruct (th_start s) as [|pc|pc|pc|] eqn:Est; try done.
      assert (c = memset \/ c = store_sleep 0) as Hcs
        by (destruct_pcs; simpl in Hc; repeat case_match; simplify_eq/=; try done; auto).
      split; [done|]. split; [by apply Hfree|].
      assert (before_threads (Running pc) = true /\ before_workers (Running pc) = true)
        as [Hb1 Hb2]
        by (destruct_pcs; simpl in Hc; repeat case_match; simplify_eq/=; try done;
            destruct Hcs; done).
      destruct (Hst Hb1) as (? & ? & ?). repeat split; try done. by apply Hearly.
    + exfalso. destruct (th_monitor s) as [|pc|pc|pc|]; try done.
      destruct_pcs; simpl in Hc; repeat case_match; simplify_eq/=; done.
    + right. left. split; [auto|]. split; [|by apply Hfree].
      destruct (th_timer s) as [|pc|pc|pc|]; try done.
      destruct_pcs; simpl in Hc; simplify_eq/=; done.
    + right. left. split; [auto|]. split; [|by apply Hfree].
      destruct (th_socket s) as [|pc|pc|pc|]; try done.
      destruct_pcs; simpl in Hc; simplify_eq/=; done.
Qed.

End SleepAccess.

Lemma sleep_access_lock_witness :
  holds_lock worker0_locked (T_worker 0) /\
  ~ holds_lock timer_in_wakeup T_timer /\
  (~ holds_lock start_at_sleep T_start /\ no_thread_yet start_at_sleep).
Proof.
  assert (0 <= 2 <= INT_MAX - 3) as Hr by (unfold INT_MAX; lia).
  assert (reachable 2 worker0_locked) as Hr1
    by (exists (boot2 ++ worker0_locks); vm_compute; reflexivity).
  assert (reachable 2 timer_in_wakeup) as Hr2
    by (exists (boot2 ++ timer_ticks); vm_compute; reflexivity).
  assert (reachable 2 start_at_sleep) as Hr3
    by (exists (take 3 boot2); vm_compute; reflexivity).
  split; [|split].
  - destruct (sleep_access_lock 2 Hr worker0_locked Hr1) as (H & _).
    exact (H 0%nat (store_sleep 1) eq_refl eq_refl).
  - destruct (sleep_access_lock 2 Hr timer_in_wakeup Hr2) as (_ & H & _).
    destruct (H T_timer load_sleep eq_refl eq_refl) as [[i E]|[(_ & _ & Hn)|(E & _)]];
      [discriminate E|exact Hn|discriminate E].
  - destruct (sleep_access_lock 2 Hr start_at_sleep Hr3) as (_ & H & _).
    destruct (H T_start (store_sleep 0) eq_refl eq_refl)
      as [[i E]|[([E|E] & _)|(_ & _ & Hn)]];
      [discriminate E|discriminate E|discriminate E|exact Hn].
Defined.

(** C2, as the spec states it, fails: after [_start 2] has created its
    threads and the timer has found a live service, the timer is about to
    read [m->sleep] in [wakeup] and nobody holds the mutex. *)
Lemma wakeup_reads_sleep_without_lock :
  ~ (forall s t c, reachable 2 s -> next_call 2 s t = Some c ->
                   accesses_sleep c = true -> holds_lock s t).
Proof.
  intros H.
  destruct (H timer_in_wakeup T_timer load_sleep) as (mo & Hmo & Hm).
  - exists (boot2 ++ timer_ticks). vm_compute. reflexivity.
  - reflexivity.
  - reflexivity.
  - vm_compute in Hmo. injection Hmo as <-. discriminate Hm.
Qed.

(** ** The wakeup heuristic *)

Lemma signal_inv_init thread : signal_inv thread (init thread).
Proof. constructor; simpl; done. Qed.

(** [pthread_cond_signal] can always be served: the scheduler picks a
    waiting worker when there is one. *)
Lemma signal_total ws : exists k ws', signal k ws = Some ws'.
Proof.
  unfold signal. destruct (existsb is_blocked ws) eqn:E.
  - apply existsb_exists in E as (w & Hin & Hb).
    apply list_elem_of_In in Hin. apply list_elem_of_lookup_1 in Hin as [k Hk].
    exists k. rewrite Hk. destruct w; try discriminate Hb. eauto.
  - exists 0%nat. eauto.
Qed.

Section Wakeup.

Variable thread : Z.
Hypothesis thread_range : 0 <= thread <= INT_MAX - 3.

Lemma thread_range' : 0 <= thread <= INT_MAX.
Proof. unfold INT_MAX in *. lia. Qed.

(** Once a thread of [pid] runs, [m->count] has its final value. *)
Lemma count_final s mo :
  reachable thread s -> mon s = Some mo ->
  th_monitor s <> NotCreated \/ th_timer s <> NotCreated \/ th_socket s <> NotCreated ->
  count mo = thread.
Proof.
  intros Hreach Hmo Hc.
  destruct (reachable_sleep_inv _ _ thread_range' Hreach) as [_ [_ _ _ Hcount _ _ _]].
  destruct (reachable_start_inv _ _ thread_range Hreach) as [_ _ _ Hearly].
  specialize (Hcount _ Hmo). unfold count_ok in Hcount.
  destruct (th_start s) as [|[]| | |]; try done.
  all: destruct (Hearly eq_refl) as (? & ? & ?); tauto.
Qed.

Lemma signal_inv_step s l s' :
  reachable thread s -> signal_inv thread s -> step thread s l = Some s' ->
  signal_inv thread s'.
Proof.
  intros Hreach Hinv H. pose proof Hinv as [Htr Hti Hso].
  pose proof (reachable_wf _ _ Hreach) as Hwf.
  pose proof (fun mo => count_final s mo Hreach) as Hcount.
  step_inv H Hwf.
  all: rewrite ?Est in *.
  all: constructor; simpl.
  all: try done.
  all: try (split; [intros _; auto | done]).
  all: intros _; eexists; split; [reflexivity|].
  all: assert (count m0 = thread) as Hc
         by (apply Hcount; [done | first [ by left | right; by left | right; by right ]]).
  all: unfold the_monitor in Heqb0; rewrite Heqo in Heqb0; simpl in Heqb0.
  all: apply Z.geb_le in Heqb0; rewrite Hc in Heqb0.
  all: int_arith; simpl; lia.
Qed.

Lemma reachable_signal_inv s : reachable thread s -> signal_inv thread s.
Proof.
  intros [ls H].
  assert (reachable thread s /\ signal_inv thread s) as [_ ?]; [|done]. revert H.
  apply run_invariant with (P := fun s => reachable thread s /\ signal_inv thread s).
  - intros s0 l s1 [Hr Hsi] Hs. split; [by eapply reachable_step|by eapply signal_inv_step].
  - split; [apply reachable_init|apply signal_inv_init].
Qed.

Lemma step_socket_test s mo l :
  reachable thread s -> mon s = Some mo -> exited s = false ->
  tid l = T_socket -> th_socket s = Running (So_wakeup Wk_test) ->
  step thread s l =
  Some (set_th_socket
          (if sleep mo >=? count mo - 0 then Running (So_wakeup Wk_signal) else Running So_poll)
          (log (Ev T_socket load_sleep (sleep mo)) s)).
Proof.
  intros Hreach Hmo Hex Htid Hst.
  assert (count mo = thread) as Hc by (apply (count_final s); [done..|rewrite Hst; auto]).
  unfold step. rewrite Hex, Htid, Hst. unfold the_monitor. rewrite Hmo. simpl.
  rewrite Hmo. simpl. rewrite Hc. int_arith. by destruct (sleep mo >=? thread - 0).
Qed.

Lemma step_timer_test s mo l :
  reachable thread s -> mon s = Some mo -> exited s = false ->
  tid l = T_timer -> th_timer s = Running (Ti_wakeup Wk_test) ->
  step thread s l =
  Some (set_th_timer
          (if sleep mo >=? count mo - (count mo - 1)
           then Running (Ti_wakeup Wk_signal) else Running Ti_usleep)
          (log (Ev T_timer load_sleep (sleep mo)) s)).
Proof.
  intros Hreach Hmo Hex Htid Hst.
  assert (count mo = thread) as Hc by (apply (count_final s); [done..|rewrite Hst; auto]).
  unfold step. rewrite Hex, Htid, Hst. unfold the_monitor. rewrite Hmo. simpl.
  rewrite Hmo. simpl. rewrite Hc. int_arith. by destruct (sleep mo >=? thread - (thread - 1)).
Qed.

(** The step that calls [pthread_cond_signal], in hypothesis [H1]. *)
Ltac signalled H1 Htid Hst Hex :=
  unfold step in H1; rewrite Hex, Htid, Hst in H1; simpl in H1;
  match type of H1 with
  | context [signal ?k ?ws] => destruct (signal k ws); simpl in H1; [|discriminate H1]
  end;
  injection H1 as <-.

(** C6. [wakeup] reads [m->sleep] and calls [pthread_cond_signal] if
    [m->sleep >= m->count - busy]; otherwise it changes nothing and returns.
    [_socket] calls it with [busy = 0] in every turn of its loop in which
    [skynet_socket_poll] returns a positive value, [_timer] with
    [busy = m->count - 1] in every turn of its loop in which a service is
    alive: from the head of either loop the next calls are the ones of the
    loop and the read of [m->sleep], and the thread goes on to
    [pthread_cond_signal] exactly when the test of its call site holds.
    After the signal the thread goes on with its loop, and the signal can
    always be made.  Every
    [pthread_cond_signal] ever made follows such a read that passed the
    test. *)
Theorem wakeup_heuristic s mo l :
  reachable thread s -> mon s = Some mo -> exited s = false ->
  (tid l = T_socket -> th_socket s = Running (So_wakeup Wk_test) ->
   step thread s l =
   Some (set_th_socket
           (if sleep mo >=? count mo - 0 then Running (So_wakeup Wk_signal) else Running So_poll)
           (log (Ev T_socket load_sleep (sleep mo)) s))) /\
  (tid l = T_timer -> th_timer s = Running (Ti_wakeup Wk_test) ->
   step thread s l =
   Some (set_th_timer
           (if sleep mo >=? count mo - (count mo - 1)
            then Running (Ti_wakeup Wk_signal) else Running Ti_usleep)
           (log (Ev T_timer load_sleep (sleep mo)) s))) /\
  (th_socket s = Running (So_wakeup Wk_signal) ->
   next_call thread s T_socket = Some pthread_cond_signal) /\
  (th_timer s = Running (Ti_wakeup Wk_signal) ->
   next_call thread s T_timer = Some pthread_cond_signal) /\
  signals_justified thread (trace s) /\
  (th_socket s = Running So_poll ->
   forall l0 l1, tid l0 = T_socket -> tid l1 = T_socket -> 0 < ret l0 ->
   run thread [l0; l1] s =
   Some (set_th_socket
           (if sleep mo >=? count mo - 0 then Running (So_wakeup Wk_signal) else Running So_poll)
           (log (Ev T_socket load_sleep (sleep mo))
              (log (Ev T_socket skynet_socket_poll (ret l0)) s)))) /\
  (th_timer s = Running Ti_updatetime ->
   forall l0 l1 l2, tid l0 = T_timer -> tid l1 = T_timer -> tid l2 = T_timer ->
   ret l1 <> 0 ->
   run thread [l0; l1; l2] s =
   Some (set_th_timer
           (if sleep mo >=? count mo - (count mo - 1)
            then Running (Ti_wakeup Wk_signal) else Running Ti_usleep)
           (log (Ev T_timer load_sleep (sleep mo))
              (log (Ev T_timer skynet_context_total (ret l1))
                 (log (Ev T_timer skynet_updatetime 0) s))))) /\
  (tid l = T_socket -> th_socket s = Running (So_wakeup Wk_signal) ->
   forall s', step thread s l = Some s' ->
     th_socket s' = Running So_poll /\ mon s' = mon s /\
     trace s' = Ev T_socket pthread_cond_signal 0 :: trace s) /\
  (tid l = T_timer -> th_timer s = Running (Ti_wakeup Wk_signal) ->
   forall s', step thread s l = Some s' ->
     th_timer s' = Running Ti_usleep /\ mon s' = mon s /\
     trace s' = Ev T_timer pthread_cond_signal 0 :: trace s) /\
  (th_socket s = Running (So_wakeup Wk_signal) ->
   exists l', tid l' = T_socket /\ is_Some (step thread s l')) /\
  (th_timer s = Running (Ti_wakeup Wk_signal) ->
   exists l', tid l' = T_timer /\ is_Some (step thread s l')).
Proof.
  intros Hreach Hmo Hex. repeat split.
  - by apply step_socket_test.
  - by apply step_timer_test.
  - intros Hst. unfold next_call. by rewrite Hst.
  - intros Hst. unfold next_call. by rewrite Hst.
  - by apply reachable_signal_inv.
  - intros Hst [t0 r0 p0] [t1 r1 p1]; simpl. intros -> -> Hr.
    set (s1 := set_th_socket (Running (So_wakeup Wk_test))
                 (log (Ev T_socket skynet_socket_poll r0) s)).
    assert (step thread s (Label T_socket r0 p0) = Some s1) as H1.
    { unfold step. rewrite Hex. simpl. rewrite Hst. simpl.
      assert ((r0 =? 0) = false) as -> by (apply Z.eqb_neq; lia).
      assert ((r0 <? 0) = false) as -> by (apply Z.ltb_ge; lia). done. }
    rewrite H1. simpl.
    rewrite (step_socket_test s1 mo); try done.
    by eapply reachable_step.
  - intros Hst [t0 r0 p0] [t1 r1 p1] [t2 r2 p2]; simpl. intros -> -> -> Hr.
    set (s2 := set_th_timer (Running (Ti_wakeup Wk_test))
                 (log (Ev T_timer skynet_context_total r1)
                    (log (Ev T_timer skynet_updatetime 0) s))).
    assert (run thread [Label T_timer r0 p0; Label T_timer r1 p1] s = Some s2) as H2.
    { simpl. unfold step. rewrite Hex. simpl. rewrite Hst. simpl. rewrite Hex. simpl.
      assert ((r1 =? 0) = false) as -> by (by apply Z.eqb_neq). done. }
    change (run thread ([Label T_timer r0 p0; Label T_timer r1 p1] ++ [Label T_timer r2 p2]) s
            = Some (set_th_timer
                      (if sleep mo >=? count mo - (count mo - 1)
                       then Running (Ti_wakeup Wk_signal) else Running Ti_usleep)
                      (log (Ev T_timer load_sleep (sleep mo)) s2))).
    rewrite run_app, H2. simpl.
    rewrite (step_timer_test s2 mo); try done.
    by eapply reachable_run.
  - by signalled H1 H H0 Hex.
  - by signalled H1 H H0 Hex.
  - by signalled H1 H H0 Hex.
  - by signalled H1 H H0 Hex.
  - by signalled H1 H H0 Hex.
  - by signalled H1 H H0 Hex.
  - intros Hst. destruct (signal_total (th_worker s)) as (k & ws & Hk).
    exists (Label T_socket 0 k). split; [done|].
    unfold step. rewrite Hex. simpl. rewrite Hst. simpl. rewrite Hk. simpl. eauto.
  - intros Hst. destruct (signal_total (th_worker s)) as (k & ws & Hk).
    exists (Label T_timer 0 k). split; [done|].
    unfold step. rewrite Hex. simpl. rewrite Hst. simpl. rewrite Hk. simpl. eauto.
Qed.

(** C1, as the code has it. When [skynet_socket_poll] has returned a
    positive value the socket thread calls [wakeup(m,0)], which signals the
    condition variable exactly when [m->sleep >= m->count], that is when
    every worker is asleep; with fewer sleepers it goes back to polling and
    the workers are left as they are.  The signal releases a waiting worker
    when there is one. *)
Theorem socket_wakeup_all_asleep s mo l :
  reachable thread s -> mon s = Some mo -> exited s = false -> tid l = T_socket ->
  (th_socket s = Running So_poll -> 0 < ret l ->
   exists s', step thread s l = Some s' /\ th_socket s' = Running (So_wakeup Wk_test)) /\
  (th_socket s = Running (So_wakeup Wk_test) ->
   exists s', step thread s l = Some s' /\
     (th_socket s' = Running (So_wakeup Wk_signal) <-> sleep mo = count mo) /\
     (th_socket s' = Running So_poll <-> sleep mo < count mo) /\
     th_worker s' = th_worker s /\ mon s' = mon s) /\
  (th_socket s = Running (So_wakeup Wk_signal) ->
   forall s', step thread s l = Some s' ->
     existsb is_blocked (th_worker s) = true ->
     exists pc, th_worker s !! pick l = Some (CondBlocked pc) /\
                th_worker s' = <[pick l := CondWoken pc]> (th_worker s)).
Proof.
  intros Hreach Hmo Hex Htid. split; [|split].
  - intros Hst Hr. unfold step. rewrite Hex, Htid, Hst. simpl.
    destruct (ret l =? 0) eqn:E0; [apply Z.eqb_eq in E0; lia|].
    destruct (ret l <? 0) eqn:E1; [apply Z.ltb_lt in E1; lia|].
    eauto.
  - intros Hst. eexists. split; [by apply step_socket_test|].
    destruct (sleep_bounds thread s mo thread_range' Hreach Hmo) as [Hb _].
    simpl. destruct (sleep mo >=? count mo - 0) eqn:E.
    + apply Z.geb_le in E. repeat split; try done; try lia.
    + assert (sleep mo < count mo - 0) as E'
        by (rewrite Z.geb_leb in E; by apply Z.leb_gt in E).
      repeat split; try done; try lia.
  - intros Hst s' Hs Hb. unfold step in Hs. rewrite Hex, Htid, Hst in Hs. simpl in Hs.
    unfold signal in Hs. rewrite Hb in Hs.
    destruct (th_worker s !! pick l) as [[|?|pc|?|]|]; try done.
    simpl in Hs. injection Hs as <-. eauto.
Qed.

End Wakeup.

Lemma wakeup_heuristic_witness :
  signals_justified 2 (trace one_asleep) /\
  (sleep (the_monitor one_asleep) = 1 /\ count (the_monitor one_asleep) = 2) /\
  run 2 [L T_socket 1; L T_socket 0] one_asleep =
  Some (set_th_socket (Running So_poll)
          (log (Ev T_socket load_sleep 1)
             (log (Ev T_socket skynet_socket_poll 1) one_asleep))) /\
  run 2 [L T_timer 0; L T_timer 1; L T_timer 0] one_asleep =
  Some (set_th_timer (Running (Ti_wakeup Wk_signal))
          (log (Ev T_timer load_sleep 1)
             (log (Ev T_timer skynet_context_total 1)
                (log (Ev T_timer skynet_updatetime 0) one_asleep)))).
Proof.
  pose proof (wakeup_heuristic 2 ltac:(unfold INT_MAX; lia) one_asleep
                {| count := 2; m := [100; 101]; mutex := None; sleep := 1 |}
                (L T_socket 0)) as H.
  destruct H as (_ & _ & _ & _ & H5 & H6 & H7 & _).
  - exists (boot2 ++ worker0_sleeps). vm_compute. reflexivity.
  - reflexivity.
  - reflexivity.
  - split; [exact H5|]. split; [split; reflexivity|]. split.
    + exact (H6 eq_refl (L T_socket 1) (L T_socket 0) eq_refl eq_refl ltac:(simpl; lia)).
    + exact (H7 eq_refl (L T_timer 0) (L T_timer 1) (L T_timer 0)
               eq_refl eq_refl eq_refl ltac:(simpl; lia)).
Defined.

Lemma socket_wakeup_all_asleep_witness :
  exists s', step 2 one_asleep_polled (L T_socket 0) = Some s' /\
    (th_socket s' = Running (So_wakeup Wk_signal) <-> 1 = 2) /\
    (th_socket s' = Running So_poll <-> 1 < 2) /\
    th_worker s' = th_worker one_asleep_polled /\ mon s' = mon one_asleep_polled.
Proof.
  pose proof (socket_wakeup_all_asleep 2 ltac:(unfold INT_MAX; lia) one_asleep_polled
                {| count := 2; m := [100; 101]; mutex := None; sleep := 1 |}
                (L T_socket 0)) as H.
  destruct H as (_ & H2 & _).
  - exists (boot2 ++ worker0_sleeps ++ [L T_socket 1]). vm_compute. reflexivity.
  - reflexivity.
  - reflexivity.
  - reflexivity.
  - exact (H2 eq_refl).
Defined.

(** C1, as the spec states it, fails: with two workers, one asleep on the
    condition variable and one running, a positive return of
    [skynet_socket_poll] leads to no signal; the socket thread goes back to
    polling and the sleeper stays blocked. *)
Lemma socket_wakeup_one_asleep_no_signal :
  ~ (forall s mo l s',
       reachable 2 s -> mon s = Some mo ->
       th_socket s = Running (So_wakeup Wk_test) -> 1 <= sleep mo ->
       tid l = T_socket -> step 2 s l = Some s' ->
       th_socket s' = Running (So_wakeup Wk_signal)).
Proof.
  intros H.
  specialize (H one_asleep_polled
                {| count := 2; m := [100; 101]; mutex := None; sleep := 1 |}
                (L T_socket 0)
                (set_th_socket (Running So_poll)
                   (log (Ev T_socket load_sleep 1) one_asleep_polled))).
  discriminate H.
  - exists (boot2 ++ worker0_sleeps ++ [L T_socket 1]). vm_compute. reflexivity.
  - reflexivity.
  - reflexivity.
  - simpl. lia.
  - reflexivity.
  - vm_compute. reflexivity.
Qed.

(** ** The shutdown sequence of the timer thread *)

Lemma shutdown_inv_init thread : shutdown_inv (init thread).
Proof. constructor; simpl; done. Qed.

Lemma shutdown_inv_step thread s l s' :
  wf s -> shutdown_inv s -> step thread s l = Some s' -> shutdown_inv s'.
Proof.
  intros Hwf [Htr Hti] H.
  step_inv H Hwf.
  all: rewrite ?Est in *.
  all: constructor; simpl.
  all: try done.
  all: try (split; [done|done]).
  all: try (intros Hq; apply elem_of_cons; right; by apply Hti).
  all: try (intros _; apply elem_of_cons; by left).
  all: split; [intros _; by apply Hti | done].
Qed.

Lemma reachable_shutdown_inv thread s : reachable thread s -> shutdown_inv s.
Proof.
  intros [ls H].
  assert (wf s /\ shutdown_inv s) as [_ ?]; [|done]. revert H.
  apply run_invariant with (P := fun s => wf s /\ shutdown_inv s).
  - intros s0 l s1 [Hwf Hsi] Hs. split; [by eapply wf_step|by eapply shutdown_inv_step].
  - split; [apply wf_init|apply shutdown_inv_init].
Qed.

Lemma broadcast_not_blocked (ws : list (tstate worker_pc)) i w :
  broadcast ws !! i = Some w -> is_blocked w = false.
Proof.
  intros H. apply returned_broadcast in H as (w0 & _ & ->). by destruct w0.
Qed.

Lemma timer_hist_step thread s l s' :
  wf s -> timer_hist s -> step thread s l = Some s' -> timer_hist s'.
Proof.
  intros Hwf Hinv H. unfold timer_hist in *.
  step_inv H Hwf.
  all: simpl; rewrite ?events_of_cons; simpl.
  all: rewrite ?Est in Hinv.
  all: try assumption.
  all: try done.
  all: try (destruct decide; [congruence|]).
  all: try assumption.
  - apply Z.eqb_eq in Heqb0. rewrite Heqb0. by eexists.
  - destruct Hinv as [tl ->]. by eexists.
  - destruct Hinv as [tl ->]. by eexists.
Qed.

Lemma reachable_timer_hist thread s : reachable thread s -> timer_hist s.
Proof.
  intros [ls H].
  assert (wf s /\ timer_hist s) as [_ ?]; [|done]. revert H.
  apply run_invariant with (P := fun s => wf s /\ timer_hist s).
  - intros s0 l s1 [Hwf Hsi] Hs. split; [by eapply wf_step|by eapply timer_hist_step].
  - split; [apply wf_init|done].
Qed.

(** C3. Each turn of the timer's loop starts at line 134 and reads the
    live-service count at line 135.  When that read, the only one the timer
    makes, gives zero, the timer leaves its loop, calls
    [skynet_socket_exit], then [pthread_cond_broadcast], and returns: these
    are its next calls, the struct is left as it is, and the broadcast
    releases every worker waiting on the condition variable.  The timer
    returns in no other way: when it has returned its last three calls
    are that read of zero, [skynet_socket_exit] and
    [pthread_cond_broadcast], in this order.  In every trace of the machine
    a broadcast is preceded by the timer's [skynet_socket_exit]. *)
Theorem timer_shutdown_order thread s :
  reachable thread s ->
  (exited s = false -> th_timer s = Running Ti_updatetime ->
   forall l0 l1 l2 l3,
   tid l0 = T_timer -> tid l1 = T_timer -> tid l2 = T_timer -> tid l3 = T_timer ->
   ret l1 = 0 ->
   exists s', run thread [l0; l1; l2; l3] s = Some s' /\
     trace s' = [Ev T_timer pthread_cond_broadcast 0;
                 Ev T_timer skynet_socket_exit 0;
                 Ev T_timer skynet_context_total 0;
                 Ev T_timer skynet_updatetime 0] ++ trace s /\
     timer_shutdown s s') /\
  (exited s = false -> next_call thread s T_timer = Some skynet_context_total ->
   forall l1 l2 l3, tid l1 = T_timer -> tid l2 = T_timer -> tid l3 = T_timer ->
   ret l1 = 0 ->
   exists s', run thread [l1; l2; l3] s = Some s' /\
     trace s' = [Ev T_timer pthread_cond_broadcast 0;
                 Ev T_timer skynet_socket_exit 0;
                 Ev T_timer skynet_context_total 0] ++ trace s /\
     timer_shutdown s s') /\
  (th_timer s = Returned ->
   exists tl, events_of T_timer (trace s) =
     [Ev T_timer pthread_cond_broadcast 0;
      Ev T_timer skynet_socket_exit 0;
      Ev T_timer skynet_context_total 0] ++ tl) /\
  exit_before_broadcast (trace s).
Proof.
  intros Hreach. unfold timer_shutdown.
  split; [|split; [|split]].
  - intros Hex Hst [t0 r0 p0] [t1 r1 p1] [t2 r2 p2] [t3 r3 p3]; simpl.
    intros -> -> -> -> ->.
    unfold step; simpl. rewrite Hex, Hst. repeat (simpl; rewrite Hex).
    eexists. split; [reflexivity|]. simpl. repeat split; try done.
    intros i w. apply broadcast_not_blocked.
  - intros Hex Hc [t1 r1 p1] [t2 r2 p2] [t3 r3 p3]; simpl. intros -> -> -> ->.
    assert (th_timer s = Running Ti_abort) as Hst.
    { unfold next_call, at_call in Hc.
      destruct (th_timer s) as [|pc| | |]; try discriminate Hc.
      destruct pc as [| |[]| | |]; simpl in Hc; try discriminate Hc; done. }
    unfold step; simpl. rewrite Hex, Hst. repeat (simpl; rewrite Hex).
    eexists. split; [reflexivity|]. simpl. repeat split; try done.
    intros i w. apply broadcast_not_blocked.
  - intros Hst. pose proof (reachable_timer_hist _ _ Hreach) as Hh.
    unfold timer_hist in Hh. by rewrite Hst in Hh.
  - by destruct (reachable_shutdown_inv _ _ Hreach).
Qed.

Lemma timer_shutdown_order_witness :
  exists s', run 2 [L T_timer 0; L T_timer 0; L T_timer 0; L T_timer 0] both_asleep = Some s' /\
    trace s' = [Ev T_timer pthread_cond_broadcast 0;
                Ev T_timer skynet_socket_exit 0;
                Ev T_timer skynet_context_total 0;
                Ev T_timer skynet_updatetime 0] ++ trace both_asleep /\
    th_timer s' = Returned /\
    th_worker both_asleep = [CondBlocked W_cond_wait; CondBlocked W_cond_wait] /\
    th_worker s' = [CondWoken W_cond_wait; CondWoken W_cond_wait] /\
    (exists tl, events_of T_timer (trace s') =
       [Ev T_timer pthread_cond_broadcast 0;
        Ev T_timer skynet_socket_exit 0;
        Ev T_timer skynet_context_total 0] ++ tl).
Proof.
  assert (reachable 2 both_asleep) as Hreach
    by (exists (boot2 ++ worker0_sleeps ++ worker1_sleeps); vm_compute; reflexivity).
  destruct (timer_shutdown_order 2 both_asleep Hreach) as (H & _).
  destruct (H eq_refl eq_refl (L T_timer 0) (L T_timer 0) (L T_timer 0) (L T_timer 0)
              eq_refl eq_refl eq_refl eq_refl eq_refl)
    as (s' & Hrun & Htr & Hret & Hws & _).
  exists s'. split; [exact Hrun|]. split; [exact Htr|]. split; [exact Hret|].
  split; [reflexivity|]. split; [exact Hws|].
  apply (timer_shutdown_order 2 s' (reachable_run 2 _ _ _ Hreach Hrun)).
  exact Hret.
Defined.

(** ** Fatal failures *)

Lemma step_exited thread s l : exited s = true -> step thread s l = None.
Proof. intros H. unfold step. by rewrite H. Qed.

(** Symbolic evaluation of a run whose facts are in the context. *)
Ltac eval_run :=
  unfold run, step;
  repeat first
    [ progress cbv beta iota delta
        [set_mon set_pid set_th_start set_th_monitor set_th_timer set_th_socket
         set_th_worker set_exited log]
    | progress simpl
    | match goal with
      | H : exited _ = _ |- _ => rewrite H
      | H : tid _ = _ |- _ => rewrite H
      | H : (_ =? _) = _ |- _ => rewrite H
      | H : (_ <? _) = _ |- _ => rewrite H
      | H : _ !! _ = Some _ |- _ => rewrite H
      | H : th_monitor _ = _ |- _ => rewrite H
      | H : mon _ = _ |- _ => rewrite H
      | H : mutex _ = _ |- _ => rewrite H
      | H : int_add _ _ = _ |- _ => rewrite H
      | H : int_sub _ _ = _ |- _ => rewrite H
      end
    | rewrite list_lookup_insert_eq by (rewrite ?length_insert; assumption)
    | rewrite list_insert_insert_eq
    | rewrite decide_True by reflexivity ].

Lemma dies_start thread s l pc c msg pc' :
  exited s = false -> tid l = T_start -> ret l <> 0 ->
  th_start s = Running pc ->
  (forall mo, exists k, _start thread mo pc = Call c k /\ k (ret l) = Goto pc') ->
  perform T_start c l s = Some (ret l, s, false) ->
  (forall mo, _start thread mo pc' = Call (fprintf msg) (fun _ => Goto St_exit) \/
              exists inj, pc' = inj Ct_fprintf /\
                _start thread mo pc' = Call (fprintf msg) (fun _ => Goto (inj Ct_exit)) /\
                _start thread mo (inj Ct_exit) = Call (exit 1) (fun _ => Goto (inj Ct_exit))) ->
  dies thread s l c msg.
Proof.
  intros Hex Htid Hret Hst Hcode Hperf Hnext [t2 r2 p2] [t3 r3 p3]; simpl.
  rewrite Htid. intros -> ->.
  destruct (Hcode (the_monitor s)) as (k & Hk & Hkr).
  unfold run, step. rewrite Hex, Htid, Hst. simpl. rewrite Hk, Hperf. simpl.
  rewrite Hkr. simpl. rewrite Hex. simpl.
  destruct (Hnext (the_monitor s)) as [Hn|(inj & -> & Hn & Hn')].
  - unfold the_monitor in *. simpl. rewrite Hn. simpl. rewrite Hex. simpl.
    eexists. split; [reflexivity|]. simpl. repeat split.
    all: try (intros l'; by apply step_exited).
  - unfold the_monitor in *. simpl. rewrite Hn. simpl. rewrite Hex. simpl.
    rewrite Hn'. simpl.
    eexists. split; [reflexivity|]. simpl. repeat split.
    all: try (intros l'; by apply step_exited).
Qed.

Lemma dies_unlock thread s l i :
  exited s = false -> ret l <> 0 -> tid l = T_worker i ->
  th_worker s !! i = Some (Running W_unlock) ->
  dies thread s l pthread_mutex_unlock "unlock mutex error".
Proof.
  intros Hex Hret Htid Hst [t2 r2 p2] [t3 r3 p3]; simpl. rewrite Htid. intros -> ->.
  assert ((ret l =? 0) = false) as Hr by (by apply Z.eqb_neq).
  assert (i < length (th_worker s))%nat as Hi by (by eapply lookup_lt_Some).
  eval_run.
  eexists. split; [reflexivity|]. simpl. repeat split.
  all: try (intros l'; by apply step_exited).
Qed.

(** C8. A failing [pthread_mutex_init], [pthread_cond_init],
    [pthread_create] or [pthread_mutex_unlock] (a return value other than
    zero) is followed, in the thread that made the call, by the [fprintf]
    of its message and by [exit(1)]; the call is not made again and no
    thread of the pool makes another step. *)
Theorem fatal_failures_exit thread s l :
  exited s = false -> ret l <> 0 ->
  (tid l = T_start -> th_start s = Running St_mutex_init ->
   dies thread s l pthread_mutex_init "Init mutex error") /\
  (tid l = T_start -> th_start s = Running St_cond_init ->
   dies thread s l pthread_cond_init "Init cond error") /\
  (tid l = T_start -> th_start s = Running (St_create_monitor Ct_create) ->
   dies thread s l (pthread_create 0 T_monitor) "Create thread failed") /\
  (tid l = T_start -> th_start s = Running (St_create_timer Ct_create) ->
   dies thread s l (pthread_create 1 T_timer) "Create thread failed") /\
  (tid l = T_start -> th_start s = Running (St_create_socket Ct_create) ->
   dies thread s l (pthread_create 2 T_socket) "Create thread failed") /\
  (forall i, tid l = T_start -> th_start s = Running (St_create_worker i Ct_create) ->
   dies thread s l (pthread_create (int_add i 3) (T_worker (Z.to_nat i)))
     "Create thread failed") /\
  (forall i, tid l = T_worker i -> th_worker s !! i = Some (Running W_unlock) ->
   dies thread s l pthread_mutex_unlock "unlock mutex error").
Proof.
  intros Hex Hret.
  assert ((ret l =? 0) = false) as Hr by (by apply Z.eqb_neq).
  repeat split.
  1-5: intros Htid Hst; eapply dies_start;
       [ done | done | done | done
       | intros mo; eexists; split; [reflexivity|]; simpl; by rewrite ?Hr
       | simpl; by rewrite ?Hr
       | intros mo; first [ by left | right; eexists; split; [reflexivity|]; done ] ].
  - intros i Htid Hst. eapply dies_start; [done..| | |].
    + intros mo. eexists. split; [reflexivity|]. simpl. by rewrite Hr.
    + simpl. by rewrite Hr.
    + intros mo. right. exists (St_create_worker i). done.
  - intros i Htid Hst. by eapply dies_unlock.
Qed.

Lemma fatal_failures_exit_witness :
  dies 2 at_mutex_init (L T_start 1) pthread_mutex_init "Init mutex error" /\
  dies 2 worker0_at_unlock (L (T_worker 0) 1) pthread_mutex_unlock "unlock mutex error".
Proof.
  assert (1 <> 0) as Hne by lia.
  split.
  - destruct (fatal_failures_exit 2 at_mutex_init (L T_start 1) eq_refl Hne)
      as (H & _).
    exact (H eq_refl eq_refl).
  - destruct (fatal_failures_exit 2 worker0_at_unlock (L (T_worker 0) 1) eq_refl Hne)
      as (_ & _ & _ & _ & _ & _ & H).
    exact (H 0%nat eq_refl eq_refl).
Defined.


(** ** The loop of a worker *)

(** A worker that has returned makes no step, stays returned, and adds
    nothing to the trace. *)
Lemma returned_worker_step thread s l s' i :
  wf s -> th_worker s !! i = Some Returned -> step thread s l = Some s' ->
  th_worker s' !! i = Some Returned /\
  events_of (T_worker i) (trace s') = events_of (T_worker i) (trace s).
Proof.
  intros Hwf Hi H.
  step_inv H Hwf.
  all: simpl; rewrite ?events_of_cons; simpl.
  all: try (split; [assumption|reflexivity]).
  all: try match goal with
           | Hq : th_worker _ !! ?j = Some _ |- _ =>
               destruct (decide (j = i)) as [->|Hne]; [congruence|];
               rewrite ?list_lookup_insert_ne by done;
               rewrite ?decide_False by congruence;
               by split
           end.
  all: try match goal with
           | |- <[?j := _]> _ !! _ = _ /\ _ =>
               split; [|done];
               destruct (decide (j = i)) as [E|Hne];
               [ rewrite E in *; congruence
               | by rewrite list_lookup_insert_ne by done ]
           end.
  all: split; [|done].
  all: unfold broadcast; rewrite list_lookup_fmap, Hi; done.
Qed.

Lemma returned_worker_run thread ls s s' i :
  wf s -> th_worker s !! i = Some Returned -> run thread ls s = Some s' ->
  th_worker s' !! i = Some Returned /\
  events_of (T_worker i) (trace s') = events_of (T_worker i) (trace s).
Proof.
  revert s. induction ls as [|l ls IH]; intros s Hwf Hi; simpl.
  - intros [= <-]. done.
  - destruct (step thread s l) as [s1|] eqn:Hs; [|done]. simpl. intros Hrun.
    destruct (returned_worker_step _ _ _ _ _ Hwf Hi Hs) as [Hi1 He1].
    destruct (IH _ (wf_step _ _ _ _ Hwf Hs) Hi1 Hrun) as [Hi2 He2].
    split; [done|congruence].
Qed.

(** C10. A [pthread_mutex_lock] that returns a value other than zero sends
    the worker back to line 156: it does not wait, the struct is unchanged
    ([m->sleep] in particular), and its next call is the dispatch.  A
    [pthread_mutex_unlock] that fails is fatal instead. *)
Theorem lock_failure_retries thread s i l :
  exited s = false -> tid l = T_worker i -> ret l <> 0 ->
  (th_worker s !! i = Some (Running W_lock) ->
   exists s', step thread s l = Some s' /\
     th_worker s' = <[i := Running W_dispatch]> (th_worker s) /\
     mon s' = mon s /\ exited s' = false /\
     trace s' = Ev (T_worker i) pthread_mutex_lock (ret l) :: trace s /\
     next_call thread s' (T_worker i) =
     Some (skynet_context_message_dispatch (m_at (the_monitor s) (Z.of_nat i)))) /\
  (th_worker s !! i = Some (Running W_unlock) ->
   dies thread s l pthread_mutex_unlock "unlock mutex error").
Proof.
  intros Hex Htid Hret.
  assert ((ret l =? 0) = false) as Hr by (by apply Z.eqb_neq).
  split.
  - intros Hst.
    assert (i < length (th_worker s))%nat as Hi by (by eapply lookup_lt_Some).
    eval_run. eexists. split; [reflexivity|]. simpl. repeat split; try done.
    unfold next_call. simpl. by rewrite list_lookup_insert_eq.
  - intros Hst. by eapply dies_unlock.
Qed.

Lemma lock_failure_retries_witness :
  exists s', step 2 worker0_at_lock (L (T_worker 0) 1) = Some s' /\
    th_worker s' = [Running W_dispatch; Running W_dispatch] /\
    mon s' = mon worker0_at_lock /\
    next_call 2 s' (T_worker 0) = Some (skynet_context_message_dispatch 100).
Proof.
  assert (1 <> 0) as Hne by lia.
  destruct (lock_failure_retries 2 worker0_at_lock 0%nat (L (T_worker 0) 1)
              eq_refl eq_refl Hne) as [H _].
  destruct (H eq_refl) as (s' & Hstep & Hws & Hmon & _ & _ & Hnext).
  exists s'. split; [exact Hstep|]. split; [exact Hws|]. split; [exact Hmon|exact Hnext].
Defined.

Section WorkerLoop.

Variable thread : Z.
Hypothesis thread_range : 0 <= thread <= INT_MAX.

(** A worker that is about to go to sleep can be counted: the increment of
    line 159 and the decrement of line 163 do not overflow. *)
Lemma sleep_room s mo i w :
  reachable thread s -> mon s = Some mo -> th_worker s !! i = Some w -> asleep w = false ->
  int_add (sleep mo) 1 = sleep mo + 1 /\ int_sub (sleep mo + 1) 1 = sleep mo.
Proof.
  intros Hreach Hmo Hw Ha.
  destruct (reachable_sleep_inv _ _ thread_range Hreach) as [_ [Hlen _ _ _ _ Hsleep _]].
  specialize (Hsleep _ Hmo).
  pose proof (sleeping_bounds (th_worker s)) as Hb0.
  pose proof (sleeping_bounds (<[i := CondBlocked W_cond_wait]> (th_worker s))) as Hb1.
  rewrite length_insert, (sleeping_insert _ _ _ _ Hw), Ha in Hb1. simpl in Hb1.
  rewrite Hlen, Z2Nat.id in * by lia.
  int_arith. lia.
Qed.

(** C4. One iteration of the loop of worker [i], from line 156.
    - Work was available ([skynet_context_message_dispatch] returns 0): the
      worker is at line 156 again, having made no other call; the struct
      and the other workers are unchanged.
    - No work, and [skynet_context_total] returns 0: the worker returns; in
      every continuation of the run it stays returned and makes no call.
    - No work, and a live service: the worker locks the mutex, increments
      [m->sleep], waits on the condition variable, and, once woken,
      decrements [m->sleep], unlocks the mutex and is at line 156 again,
      the struct being as it was. *)
Theorem worker_iteration s i l :
  reachable thread s -> exited s = false ->
  th_worker s !! i = Some (Running W_dispatch) -> tid l = T_worker i ->
  let me := T_worker i in
  let sm := m_at (the_monitor s) (Z.of_nat i) in
  (ret l = 0 ->
   exists s', step thread s l = Some s' /\
     th_worker s' = th_worker s /\ mon s' = mon s /\
     trace s' = Ev me (skynet_context_message_dispatch sm) 0 :: trace s) /\
  (ret l <> 0 -> forall l2, tid l2 = me -> ret l2 = 0 ->
   exists s', run thread [l; l2] s = Some s' /\
     th_worker s' = <[i := Returned]> (th_worker s) /\ mon s' = mon s /\
     trace s' = [Ev me skynet_context_total 0;
                 Ev me (skynet_context_message_dispatch sm) (ret l)] ++ trace s /\
     forall ls s'', run thread ls s' = Some s'' ->
       th_worker s'' !! i = Some Returned /\
       events_of me (trace s'') = events_of me (trace s')) /\
  (ret l <> 0 -> forall mo l2 l3 l4 l5 l6,
   mon s = Some mo -> mutex mo = None ->
   tid l2 = me -> ret l2 <> 0 -> tid l3 = me -> ret l3 = 0 ->
   tid l4 = me -> tid l5 = me -> tid l6 = me ->
   exists s1, run thread [l; l2; l3; l4; l5; l6] s = Some s1 /\
     th_worker s1 = <[i := CondBlocked W_cond_wait]> (th_worker s) /\
     mon s1 = Some (set_sleep (sleep mo + 1) mo) /\
     trace s1 = [Ev me pthread_cond_wait 0;
                 Ev me (store_sleep (sleep mo + 1)) 0;
                 Ev me load_sleep (sleep mo);
                 Ev me pthread_mutex_lock 0;
                 Ev me skynet_context_total (ret l2);
                 Ev me (skynet_context_message_dispatch sm) (ret l)] ++ trace s /\
     forall l7 l8 l9 l10 l11,
       tid l7 = me -> tid l8 = me -> tid l9 = me -> tid l10 = me -> tid l11 = me ->
       ret l11 = 0 ->
       exists s2, run thread [l7; l8; l9; l10; l11] s1 = Some s2 /\
         th_worker s2 = th_worker s /\ mon s2 = Some mo /\
         trace s2 = [Ev me pthread_mutex_unlock 0;
                     Ev me (store_sleep (sleep mo)) 0;
                     Ev me load_sleep (sleep mo + 1)] ++ trace s1).
Proof.
  intros Hreach Hex Hst Htid me sm. subst me sm.
  assert (i < length (th_worker s))%nat as Hi by (by eapply lookup_lt_Some).
  pose proof (reachable_wf _ _ Hreach) as Hwf.
  split; [|split].
  - intros Hr. apply Z.eqb_eq in Hr as Hr'.
    eval_run. eexists. split; [reflexivity|]. simpl. rewrite Hr.
    repeat split. by apply list_insert_id.
  - intros Hr [t2 r2 p2]; simpl. intros -> ->. apply Z.eqb_neq in Hr.
    eval_run. eexists. split; [reflexivity|]. simpl.
    do 3 (split; [reflexivity|]).
    intros ls s'' Hrun.
    eapply (returned_worker_run thread ls _ s'' i) in Hrun; [done| |].
    + eapply (run_invariant thread wf (fun s0 l0 s1 H0 => wf_step thread s0 l0 s1 H0)
                [l; Label (T_worker i) 0 p2] s); [done|].
      eval_run. reflexivity.
    + simpl. by rewrite list_lookup_insert_eq.
  - intros Hr mo [t2 r2 p2] [t3 r3 p3] [t4 r4 p4] [t5 r5 p5] [t6 r6 p6] Hmo Hmu; simpl.
    intros -> Hr2 -> -> -> -> ->.
    apply Z.eqb_neq in Hr, Hr2.
    destruct (sleep_room s mo i _ Hreach Hmo Hst eq_refl) as [E1 E2].
    clear Hreach Hwf. destruct s as [smon spid sst smo sti sso sws sex str].
    simpl in *. subst smon sex.
    eval_run. eexists. split; [reflexivity|]. simpl.
    split; [reflexivity|].
    split; [f_equal; destruct mo; simpl in *; by subst|].
    split; [reflexivity|].
    intros [t7 r7 p7] [t8 r8 p8] [t9 r9 p9] [t10 r10 p10] [t11 r11 p11]; simpl.
    intros -> -> -> -> -> ->.
    eval_run. eexists. split; [reflexivity|]. simpl.
    split; [by apply list_insert_id|]. split; [|reflexivity].
    f_equal. destruct mo; simpl in *; by subst.
Qed.

End WorkerLoop.

Lemma worker_iteration_witness :
  (exists s', step 2 booted (L (T_worker 0) 0) = Some s' /\
     th_worker s' = th_worker booted /\ mon s' = mon booted) /\
  (exists s', run 2 [L (T_worker 0) 1; L (T_worker 0) 0] booted = Some s' /\
     th_worker s' = [Returned; Running W_dispatch]) /\
  (exists s1, run 2 worker0_sleeps booted = Some s1 /\
     th_worker s1 = [CondBlocked W_cond_wait; Running W_dispatch] /\
     mon s1 = Some {| count := 2; m := [100; 101]; mutex := None; sleep := 1 |} /\
     exists s2, run 2 (replicate 5 (L (T_worker 0) 0)) s1 = Some s2 /\
       th_worker s2 = th_worker booted /\ mon s2 = mon booted).
Proof.
  assert (0 <= 2 <= INT_MAX) as Hr by (unfold INT_MAX; lia).
  assert (1 <> 0) as Hne by lia.
  assert (reachable 2 booted) as Hreach by (exists boot2; vm_compute; reflexivity).
  split; [|split].
  - destruct (worker_iteration 2 Hr booted 0%nat (L (T_worker 0) 0)
                Hreach eq_refl eq_refl eq_refl) as (H & _).
    destruct (H eq_refl) as (s' & Hstep & Hws & Hmon & _).
    exists s'. split; [exact Hstep|]. split; [exact Hws|exact Hmon].
  - destruct (worker_iteration 2 Hr booted 0%nat (L (T_worker 0) 1)
                Hreach eq_refl eq_refl eq_refl) as (_ & H & _).
    destruct (H Hne (L (T_worker 0) 0) eq_refl eq_refl) as (s' & Hrun & Hws & _).
    exists s'. split; [exact Hrun|exact Hws].
  - destruct (worker_iteration 2 Hr booted 0%nat (L (T_worker 0) 1)
                Hreach eq_refl eq_refl eq_refl) as (_ & _ & H).
    destruct (H Hne {| count := 2; m := [100; 101]; mutex := None; sleep := 0 |}
                (L (T_worker 0) 1) (L (T_worker 0) 0) (L (T_worker 0) 0)
                (L (T_worker 0) 0) (L (T_worker 0) 0)
                eq_refl eq_refl eq_refl Hne eq_refl eq_refl eq_refl eq_refl eq_refl)
      as (s1 & Hrun & Hws & Hmon & _ & Hwake).
    exists s1. split; [exact Hrun|]. split; [exact Hws|]. split; [exact Hmon|].
    destruct (Hwake (L (T_worker 0) 0) (L (T_worker 0) 0) (L (T_worker 0) 0)
                (L (T_worker 0) 0) (L (T_worker 0) 0)
                eq_refl eq_refl eq_refl eq_refl eq_refl eq_refl)
      as (s2 & Hrun2 & Hws2 & Hmon2 & _).
    exists s2. split; [exact Hrun2|]. split; [exact Hws2|exact Hmon2].
Defined.

(** ** The cycle of the watchdog *)

Section Watchdog.

Variable thread : Z.
Hypothesis thread_range : 0 <= thread <= INT_MAX.

Lemma count_range s mo :
  reachable thread s -> mon s = Some mo -> 0 <= count mo <= INT_MAX.
Proof.
  intros Hreach Hmo.
  destruct (reachable_sleep_inv _ _ thread_range Hreach) as [_ [_ _ _ Hcount _ _ _]].
  specialize (Hcount _ Hmo). unfold count_ok in Hcount.
  destruct (th_start s) as [|[]| | |]; unfold INT_MAX in *; lia.
Qed.

Lemma check_events_cons mo i n :
  0 < n ->
  check_events mo i n =
  Ev T_monitor (skynet_monitor_check (m_at mo i)) 0 :: check_events mo (i + 1) (n - 1).
Proof.
  intros Hn. unfold check_events. rewrite (seqZ_cons i) by lia.
  rewrite fmap_cons. reflexivity.
Qed.

(** The loop of lines 115-117, from index [i]: [k] more detectors. *)
Lemma run_checks s mo (k : nat) i evs :
  mon s = Some mo -> exited s = false -> 0 <= i -> i + Z.of_nat k <= count mo ->
  count mo <= INT_MAX ->
  run thread (replicate k (L T_monitor 0)) (watchdog_at (Running (Mo_check i)) evs s) =
  Some (watchdog_at (Running (Mo_check (i + Z.of_nat k)))
          (evs ++ check_events mo i (Z.of_nat k)) s).
Proof.
  intros Hmo Hex. revert i evs. induction k as [|k IH]; intros i evs Hi Hk Hc.
  - simpl. unfold check_events. simpl. by rewrite Z.add_0_r, app_nil_r.
  - rewrite replicate_S. cbn [run].
    assert ((i <? count mo) = true) as Hlt by (apply Z.ltb_lt; lia).
    assert (int_add i 1 = i + 1) as Hadd by (int_arith; lia).
    unfold step at 1. simpl. unfold the_monitor. simpl.
    rewrite Hex, Hmo. simpl. rewrite Hlt. simpl. rewrite Hadd.
    specialize (IH (i + 1) (evs ++ [Ev T_monitor (skynet_monitor_check (m_at mo i)) 0])).
    unfold watchdog_at in IH. simpl in IH. rewrite rev_app_distr in IH. simpl in IH.
    unfold set_th_monitor, log. simpl.
    rewrite IH by lia. unfold watchdog_at. simpl.
    replace (i + 1 + Z.of_nat k) with (i + Z.of_nat (S k)) by lia.
    rewrite <- app_assoc, (check_events_cons mo i (Z.of_nat (S k))) by lia.
    replace (Z.of_nat (S k) - 1) with (Z.of_nat k) by lia.
    reflexivity.
Qed.

(** C9, as the code has it. A cycle of the watchdog starts at line 114.
    - If [skynet_context_total] returns 0 there, the thread returns.
    - Otherwise it calls [skynet_monitor_check] on [m->m[0]], ...,
      [m->m[count-1]] in this order and enters its sleep loop.
    - In the sleep loop, with [i < 5] sleeps done, it reads the live count:
      on a nonzero value it sleeps one second and goes on with [i + 1]; on
      zero it leaves the sleep loop and goes to line 114, where the live
      count is read again (the thread has not returned).  After five sleeps
      it goes to line 114 as well. *)
Theorem watchdog_cycle s mo :
  reachable thread s -> mon s = Some mo -> exited s = false ->
  (th_monitor s = Running Mo_abort ->
   forall l, tid l = T_monitor -> ret l = 0 ->
   step thread s l =
   Some (watchdog_at Returned [Ev T_monitor skynet_context_total 0] s)) /\
  (th_monitor s = Running Mo_abort ->
   forall r, r <> 0 ->
   run thread (L T_monitor r :: replicate (Z.to_nat (count mo) + 1) (L T_monitor 0)) s =
   Some (watchdog_at (Running (Mo_inner 0))
           (Ev T_monitor skynet_context_total r :: check_events mo 0 (count mo)) s)) /\
  (forall i, th_monitor s = Running (Mo_inner i) -> 0 <= i < 5 ->
   forall l, tid l = T_monitor ->
   (ret l = 0 ->
    step thread s l =
    Some (watchdog_at (Running Mo_abort) [Ev T_monitor skynet_context_total 0] s)) /\
   (ret l <> 0 -> forall l2, tid l2 = T_monitor ->
    run thread [l; l2] s =
    Some (watchdog_at (Running (Mo_inner (i + 1)))
            [Ev T_monitor skynet_context_total (ret l); Ev T_monitor (unistd_sleep 1) 0] s))) /\
  (th_monitor s = Running (Mo_inner 5) ->
   forall l, tid l = T_monitor ->
   step thread s l = Some (watchdog_at (Running Mo_abort) [] s)).
Proof.
  intros Hreach Hmo Hex.
  pose proof (count_range _ _ Hreach Hmo) as Hc.
  clear Hreach. destruct s as [smon spid sst smo sti sso sws sex str].
  simpl in *. subst smon sex.
  split; [|split; [|split]].
  - intros -> [t r p]; simpl. intros -> ->. reflexivity.
  - intros -> r Hr. apply Z.eqb_neq in Hr.
    cbn [run]. unfold step at 1. simpl. rewrite Hr. simpl.
    rewrite Nat.add_comm, replicate_S_end, run_app.
    pose proof (run_checks
                  {| mon := Some mo; pid := spid; th_start := sst;
                     th_monitor := Running Mo_abort;
                     th_timer := sti; th_socket := sso; th_worker := sws;
                     exited := false; trace := str |}
                  mo (Z.to_nat (count mo)) 0 [Ev T_monitor skynet_context_total r]
                  eq_refl eq_refl) as Hrun.
    unfold watchdog_at in Hrun. simpl in Hrun.
    unfold set_th_monitor, log. simpl.
    rewrite Hrun by lia. simpl. rewrite Z2Nat.id by lia.
    unfold step. simpl. unfold the_monitor. simpl.
    rewrite Z.ltb_irrefl. simpl. reflexivity.
  - intros i -> Hi [t r p]; simpl. intros ->.
    assert ((i <? 5) = true) as Hlt by (apply Z.ltb_lt; lia).
    assert (int_add i 1 = i + 1) as Hadd by (int_arith; lia).
    split.
    + intros ->. unfold step. simpl. rewrite Hlt. reflexivity.
    + intros Hr [t2 r2 p2]; simpl. intros ->. apply Z.eqb_neq in Hr.
      unfold run, step. simpl. rewrite Hlt. simpl. rewrite Hr. simpl.
      rewrite Hadd. reflexivity.
  - intros -> [t r p]; simpl. intros ->. reflexivity.
Qed.

End Watchdog.

Lemma watchdog_cycle_witness :
  step 2 watchdog_sleeping (L T_monitor 0) =
  Some (watchdog_at (Running Mo_abort) [Ev T_monitor skynet_context_total 0]
          watchdog_sleeping).
Proof.
  pose proof (watchdog_cycle 2 ltac:(unfold INT_MAX; lia) watchdog_sleeping
                {| count := 2; m := [100; 101]; mutex := None; sleep := 0 |}) as H.
  destruct H as (_ & _ & H3 & _).
  - exists (boot2 ++ watchdog_checks). vm_compute. reflexivity.
  - reflexivity.
  - reflexivity.
  - destruct (H3 0 eq_refl ltac:(lia) (L T_monitor 0) eq_refl) as [H _].
    exact (H eq_refl).
Defined.

(** C9, as the spec states it, fails: the watchdog of [_start 2] has checked
    both detectors and reads a live count of zero before its first sleep;
    it does not return but goes back to line 114, and a nonzero value read
    there sends it through another round of checks. *)
Lemma watchdog_zero_in_sleep_loop :
  ~ (forall s l s' i,
       reachable 2 s -> th_monitor s = Running (Mo_inner i) -> i < 5 ->
       tid l = T_monitor -> ret l = 0 -> step 2 s l = Some s' ->
       th_monitor s' = Returned).
Proof.
  intros H.
  specialize (H watchdog_sleeping (L T_monitor 0)
                (watchdog_at (Running Mo_abort) [Ev T_monitor skynet_context_total 0]
                   watchdog_sleeping) 0).
  discriminate H.
  - exists (boot2 ++ watchdog_checks). vm_compute. reflexivity.
  - reflexivity.
  - lia.
  - reflexivity.
  - reflexivity.
  - vm_compute. reflexivity.
Qed.

(** ** The trace of [_start] *)

Ltac split_hyp H :=
  match type of H with
  | _ /\ _ =>
      let H1 := fresh H in
      let H2 := fresh H in
      destruct H as [H1 H2]; split_hyp H1; split_hyp H2
  | _ => idtac
  end.

Ltac hist_unfold H :=
  unfold hist_ok, start_log, events_of, detectors, detectors_upto, the_monitor in *;
  simpl in *;
  try match goal with
      | E : mon ?s = _ |- context [mon ?s] => rewrite E
      end;
  try match goal with
      | E : mon ?s = _ |- _ => rewrite E in H
      end;
  simpl in *;
  split_hyp H.

Ltac use_log :=
  match goal with
  | H : rev _ = _ |- _ => rewrite H
  end.

Ltac list_norm := simpl; rewrite <- ?app_assoc; simpl; try reflexivity.

Ltac hist_lists :=
  match goal with
  | H : rev _ = _ |- _ => rewrite H
  end;
  simpl; rewrite <- ?app_assoc; simpl; try reflexivity.

Lemma new_events_snoc i hs h :
  new_events i (hs ++ [h]) =
  new_events i hs ++ [st_ev skynet_monitor_new h; st_ev (store_m (i + Z.of_nat (length hs)) h) 0].
Proof.
  revert i. induction hs as [|h0 hs IH]; intros i; simpl.
  - by rewrite Z.add_0_r.
  - replace (i + Z.of_nat (S (length hs))) with (i + 1 + Z.of_nat (length hs)) by lia.
    by rewrite IH.
Qed.

Lemma seqZ_snoc (k : Z) : 0 <= k -> seqZ 0 (k + 1) = seqZ 0 k ++ [k].
Proof.
  intros Hk. replace (k + 1) with (Z.of_nat (S (Z.to_nat k))) by lia.
  rewrite seqZ_S, Z2Nat.id by lia. reflexivity.
Qed.

Lemma worker_creates_snoc k :
  0 <= k ->
  worker_creates (k + 1) =
  worker_creates k ++ [st_ev (pthread_create (k + 3) (T_worker (Z.to_nat k))) 0].
Proof. intros Hk. unfold worker_creates. by rewrite seqZ_snoc, fmap_app. Qed.

Lemma join_events_snoc k :
  0 <= k -> join_events (k + 1) = join_events k ++ [st_ev (pthread_join k) 0].
Proof. intros Hk. unfold join_events. by rewrite seqZ_snoc, fmap_app. Qed.

Lemma delete_events_snoc (hs : list Z) (i : nat) :
  (i < length hs)%nat ->
  delete_events (take (S i) hs) =
  delete_events (take i hs) ++ [st_ev (skynet_monitor_delete (default 0 (hs !! i))) 0].
Proof.
  intros Hi. destruct (lookup_lt_is_Some_2 hs i Hi) as [h Hh].
  unfold delete_events. by rewrite (take_S_r _ _ _ Hh), fmap_app, Hh.
Qed.

Section StartTrace.

Variable thread : Z.
Hypothesis thread_range : 0 <= thread <= INT_MAX - 3.

Lemma hist_init : hist_ok thread (init thread) [].
Proof. unfold hist_ok. simpl. reflexivity. Qed.

Lemma hist_step s l s' :
  reachable thread s -> (exists hs, hist_ok thread s hs) -> step thread s l = Some s' ->
  exists hs, hist_ok thread s' hs.
Proof.
  intros Hreach [hs Hh] H.
  pose proof (reachable_wf _ _ Hreach) as Hwf.
  assert (0 <= thread <= INT_MAX) as Hr' by (unfold INT_MAX in *; lia).
  destruct (reachable_sleep_inv _ _ Hr' Hreach) as [_ [_ _ _ Hcount _ _ _]].
  destruct (reachable_start_inv _ _ thread_range Hreach) as [_ Hok Hmon _].
  unfold hist_ok, start_log, detectors, detectors_upto, the_monitor in Hh.
  unfold start_ok, count_ok in *.
  step_inv H Hwf.
  all: rewrite ?Est in *.
  all: bool_hyps.
  all: try match goal with
           | E : mon _ = Some _ |- _ => specialize (Hcount _ E)
           | _ => specialize (Hcount _ eq_refl)
           end.
  all: try (exists hs; unfold hist_ok, start_log, detectors, detectors_upto, the_monitor in *;
            simpl in *; rewrite ?events_of_cons; simpl; rewrite ?Est; done).
  all: try (exists hs; unfold hist_ok, start_log, detectors, detectors_upto, the_monitor in *;
            simpl in *; rewrite ?events_of_cons; simpl; rewrite ?Est;
            destruct (th_start s) as [|[]| | |]; done).
  all: try (exists hs; hist_unfold Hh; repeat split; try done; try lia; hist_lists; done).
  all: int_arith.
  (* line 186: the array is allocated, no detector yet *)
  1: { exists []. hist_unfold Hh. rewrite length_replicate, Hh.
       repeat split; try done; lia. }
  (* line 188: the loop ends *)
  1: { exists hs. hist_unfold Hh. subst hs.
       rewrite take_ge in Hh4 |- * by lia. done. }
  (* line 189: one more detector *)
  1: { exists (hs ++ [h]). hist_unfold Hh. subst hs.
       assert (Z.to_nat i < length (m m0))%nat as Hi by lia.
       rewrite length_insert, Z2Nat.inj_add, Nat.add_1_r by lia.
       rewrite (take_S_r _ _ h) by (by apply list_lookup_insert_eq).
       rewrite take_insert_ge by lia.
       repeat split; try done; try lia.
       rewrite Hh4, new_events_snoc, length_take_le by lia. simpl.
       rewrite <- app_assoc. simpl. rewrite Z2Nat.id by lia. done. }
  (* line 195 *)
  1: { exists hs. rewrite Heqb0. hist_unfold Hh.
       repeat split; try done. hist_lists. }
  (* line 205: the loop ends *)
  1: { exists hs. hist_unfold Hh. assert (i = thread) as -> by lia.
       repeat split; try done. use_log. by rewrite app_nil_r. }
  (* line 208: one more worker *)
  1: { exists hs. hist_unfold Hh. repeat split; try done.
       use_log. rewrite worker_creates_snoc by lia. list_norm. }
  (* line 212: one more join *)
  1: { exists hs. hist_unfold Hh. repeat split; try done.
       use_log. rewrite join_events_snoc by lia. list_norm. }
  (* line 211: the loop ends *)
  1: { exists hs. hist_unfold Hh. assert (i = thread + 3) as -> by lia.
       repeat split; try done; try lia. use_log.
       unfold delete_events. simpl. rewrite app_nil_r. list_norm. }
  (* line 97: one more detector deleted *)
  1: { exists hs. unfold the_monitor in *.
       destruct (mon s) as [mo|] eqn:Hmo; [|destruct (Hmon eq_refl); congruence].
       specialize (Hcount _ eq_refl). hist_unfold Hh. subst hs.
       rewrite Z2Nat.inj_add, Nat.add_1_r by lia.
       repeat split; try done; try lia.
       use_log. rewrite delete_events_snoc by lia. unfold m_at. list_norm. }
  (* line 96: the loop ends *)
  1: { exists hs. unfold the_monitor in *.
       destruct (mon s) as [mo|] eqn:Hmo; [|destruct (Hmon eq_refl); congruence].
       specialize (Hcount _ eq_refl). hist_unfold Hh. subst hs.
       rewrite take_ge in * by lia. done. }
  (* line 101 *)
  1: { exists hs. hist_unfold Hh. rewrite Hcount.
       repeat split; try done. use_log. list_norm. }
Qed.

Lemma reachable_hist s : reachable thread s -> exists hs, hist_ok thread s hs.
Proof.
  intros [ls H].
  assert (reachable thread s /\ exists hs, hist_ok thread s hs) as [_ ?]; [|done].
  revert H.
  apply run_invariant
    with (P := fun s => reachable thread s /\ exists hs, hist_ok thread s hs).
  - intros s0 l s1 [Hr Hh] Hs. split; [by eapply reachable_step|by eapply hist_step].
  - split; [apply reachable_init|exists []; apply hist_init].
Qed.

Lemma count_calls_app p a b :
  count_calls p (a ++ b) = count_calls p a + count_calls p b.
Proof. induction a as [|e a IH]; simpl; [done|]. rewrite IH. lia. Qed.

Lemma count_calls_all {A} p (f : A -> event) (l : list A) :
  (forall x, p (what (f x)) = true) -> count_calls p (f <$> l) = Z.of_nat (length l).
Proof.
  intros Hp. induction l as [|x l IH]; [done|].
  rewrite fmap_cons. cbn [count_calls length]. rewrite Hp, IH. lia.
Qed.

Lemma count_calls_none {A} p (f : A -> event) (l : list A) :
  (forall x, p (what (f x)) = false) -> count_calls p (f <$> l) = 0.
Proof.
  intros Hp. induction l as [|x l IH]; [done|].
  rewrite fmap_cons. cbn [count_calls]. by rewrite Hp, IH.
Qed.

Lemma count_new_events p i hs :
  (forall j h, p (store_m j h) = false) ->
  count_calls p (new_events i hs) =
  if p skynet_monitor_new then Z.of_nat (length hs) else 0.
Proof.
  intros Hp. revert i. induction hs as [|h hs IH]; intros i; simpl.
  - by destruct (p skynet_monitor_new).
  - rewrite Hp, IH. destruct (p skynet_monitor_new); lia.
Qed.

Lemma start_events_counts hs :
  length hs = Z.to_nat thread ->
  count_calls is_new (start_events thread hs) = thread /\
  count_calls is_create (start_events thread hs) = thread + 3 /\
  count_calls is_join (start_events thread hs) = thread + 3 /\
  count_calls is_delete (start_events thread hs) = thread.
Proof.
  intros Hlen. unfold start_events, worker_creates, join_events, delete_events.
  rewrite !count_calls_app, !count_new_events by done.
  repeat split.
  all: repeat first
         [ rewrite (count_calls_none is_new) by done
         | rewrite (count_calls_none is_create) by done
         | rewrite (count_calls_none is_join) by done
         | rewrite (count_calls_none is_delete) by done
         | rewrite (count_calls_all is_new) by done
         | rewrite (count_calls_all is_create) by done
         | rewrite (count_calls_all is_join) by done
         | rewrite (count_calls_all is_delete) by done ].
  all: rewrite ?length_seqZ; simpl; lia.
Qed.

End StartTrace.

(** * Further properties of the thread pool *)

(** ** The mutex *)

Lemma lock_inv_init thread : lock_inv (init thread).
Proof. intros mo t Hmo. discriminate Hmo. Qed.

Lemma in_critical_wake w : in_critical (wake w) = in_critical w.
Proof. by destruct w. Qed.

Lemma critical_insert (ws : list (tstate worker_pc)) i j w w0 w' :
  ws !! i = Some w -> ws !! j = Some w0 -> in_critical w0 = true ->
  in_critical w = false \/ in_critical w' = true ->
  exists w1, <[i := w']> ws !! j = Some w1 /\ in_critical w1 = true.
Proof.
  intros Hi Hj Hc Hside. destruct (decide (j = i)) as [->|Hne].
  - exists w'. rewrite list_lookup_insert_eq by (by eapply lookup_lt_Some).
    split; [done|]. destruct Hside as [Hn|]; [|done].
    rewrite Hi in Hj. injection Hj as ->. congruence.
  - exists w0. by rewrite list_lookup_insert_ne.
Qed.

Lemma lock_inv_step thread s l s' :
  wf s -> lock_inv s -> step thread s l = Some s' -> lock_inv s'.
Proof.
  intros Hwf Hinv H. unfold lock_inv in *.
  step_inv H Hwf.
  all: intros mo0 tt0 Hmo0 Hmu0; simpl in *.
  all: try (discriminate Hmo0).
  all: try (injection Hmo0 as <-; simpl in Hmu0; try discriminate Hmu0).
  all: try (by eauto).
  all: try (injection Hmu0 as <-; eexists _, _; split; [reflexivity|];
            rewrite list_lookup_insert_eq by (by eapply lookup_lt_Some);
            split; reflexivity).
  all: try match goal with
           | E : mon ?s = Some _, Hm : mon ?s = Some _ |- _ =>
               tryif constr_eq E Hm then fail else (rewrite E in Hm; injection Hm as <-)
           end.
  all: try match goal with
           | Hmu : mutex _ = Some _ |- _ =>
               first [ destruct (Hinv _ _ eq_refl Hmu) as (i0 & w0 & -> & Hw0 & Hc0)
                     | match goal with
                       | E : mon _ = Some _ |- _ =>
                           destruct (Hinv _ _ E Hmu) as (i0 & w0 & -> & Hw0 & Hc0)
                       end ]
           end.
  all: try (by eauto).
  all: try (exists i0, (wake w0); split; [done|]; unfold broadcast;
            rewrite list_lookup_fmap, Hw0; simpl; by rewrite in_critical_wake).
  all: try match goal with
           | Hq : th_worker ?s !! ?k = Some ?w |- context [<[?k := ?w']> (th_worker ?s)] =>
               assert (in_critical w = false \/ in_critical w' = true) as Hside
                 by (first [ by left | by right ]);
               destruct (critical_insert _ _ _ _ _ _ Hq Hw0 Hc0 Hside) as (w1 & Hw1 & Hc1);
               by eauto
           end.
Qed.

Lemma reachable_lock_inv thread s : reachable thread s -> lock_inv s.
Proof.
  intros [ls H].
  assert (wf s /\ lock_inv s) as [_ ?]; [|done]. revert H.
  apply run_invariant with (P := fun s => wf s /\ lock_inv s).
  - intros s0 l s1 [Hwf Hsi] Hs. split; [by eapply wf_step|by eapply lock_inv_step].
  - split; [apply wf_init|apply lock_inv_init].
Qed.

(** ** The array [pid] *)

Lemma pid_inv_init thread : 0 <= thread <= INT_MAX - 3 -> pid_inv thread (init thread).
Proof.
  intros Hr. constructor; [|done]. simpl. rewrite length_replicate.
  unfold int_add. rewrite int_wrap_id by (unfold INT_MIN, INT_MAX in *; lia). done.
Qed.

Lemma filled_insert (ps : list (option thread_id)) k t :
  (forall j, 0 <= j < k -> ps !! Z.to_nat j = Some (Some (pid_thread (Z.to_nat j)))) ->
  0 <= k -> (Z.to_nat k < length ps)%nat -> t = pid_thread (Z.to_nat k) ->
  forall j, 0 <= j < k + 1 ->
    <[Z.to_nat k := Some t]> ps !! Z.to_nat j = Some (Some (pid_thread (Z.to_nat j))).
Proof.
  intros Hall Hk Hlen -> j Hj. destruct (decide (j = k)) as [->|Hne].
  - by rewrite list_lookup_insert_eq.
  - rewrite list_lookup_insert_ne by lia. apply Hall. lia.
Qed.

Lemma fresh_insert (ws : list (tstate worker_pc)) i k w' :
  (forall j w, i <= Z.of_nat j -> ws !! j = Some w -> w = NotCreated) ->
  Z.of_nat k < i ->
  forall j w, i <= Z.of_nat j -> <[k := w']> ws !! j = Some w -> w = NotCreated.
Proof.
  intros Hall Hk j w Hj. rewrite list_lookup_insert_ne by lia. by apply Hall.
Qed.

Lemma fresh_moved (ws : list (tstate worker_pc)) i k w0 :
  (forall j w, i <= Z.of_nat j -> ws !! j = Some w -> w = NotCreated) ->
  ws !! k = Some w0 -> w0 <> NotCreated -> Z.of_nat k < i.
Proof.
  intros Hall Hk Hne. destruct (decide (Z.of_nat k < i)); [done|].
  exfalso. apply Hne. apply (Hall k); [lia|done].
Qed.

Lemma fresh_broadcast (ws : list (tstate worker_pc)) i :
  (forall j w, i <= Z.of_nat j -> ws !! j = Some w -> w = NotCreated) ->
  forall j w, i <= Z.of_nat j -> broadcast ws !! j = Some w -> w = NotCreated.
Proof.
  intros Hall j w Hj Hw. apply returned_broadcast in Hw as (w0 & Hw0 & ->).
  by rewrite (Hall _ _ Hj Hw0).
Qed.

(** A step of a thread other than [_start] leaves [pid] as it is, and a
    thread that moves has been created. *)
Lemma pid_ok_other thread s s' :
  th_start s' = th_start s -> pid s' = pid s ->
  (th_monitor s = NotCreated -> th_monitor s' = NotCreated) ->
  (th_timer s = NotCreated -> th_timer s' = NotCreated) ->
  (th_socket s = NotCreated -> th_socket s' = NotCreated) ->
  (forall i, workers_fresh s i -> workers_fresh s' i) ->
  pid_ok thread s -> pid_ok thread s'.
Proof.
  intros Hs Hp Hm Ht Hso Hw. unfold pid_ok, pid_filled. rewrite Hs, Hp.
  destruct (th_start s) as [|[| | | | | | | | | | | |[]|[]|[]| |?[]| |]| | |]; try done.
  all: intuition auto.
Qed.

Section PidInv.

Variable thread : Z.
Hypothesis thread_range : 0 <= thread <= INT_MAX - 3.

Lemma pid_inv_step s l s' :
  reachable thread s -> pid_inv thread s -> step thread s l = Some s' -> pid_inv thread s'.
Proof.
  intros Hreach [Hlen Hpid] H.
  pose proof (reachable_wf _ _ Hreach) as Hwf.
  assert (0 <= thread <= INT_MAX) as Hr' by (unfold INT_MAX in *; lia).
  destruct (reachable_sleep_inv _ _ Hr' Hreach) as [_ [Hwlen _ Hearly _ _ _ _]].
  destruct (reachable_start_inv _ _ thread_range Hreach) as [_ Hok _ Hst].
  step_inv H Hwf.
  all: constructor; simpl; rewrite ?length_insert; try assumption.
  all: try (apply pid_ok_other with s; simpl; try done; try congruence;
            unfold workers_fresh; simpl; intros i0 Hf;
            first [ assumption
                  | apply fresh_broadcast; assumption
                  | eapply fresh_insert; [exact Hf|]; eapply fresh_moved; [exact Hf| |];
                    [eassumption|done] ]).
  all: unfold pid_ok, start_ok, pid_filled, workers_fresh in *; simpl.
  all: rewrite ?Est in *; simpl in Hearly, Hst.
  all: bool_hyps.
  all: try done.
  - destruct (Hst eq_refl) as (? & ? & ?). repeat split; try done.
    intros j w _. by apply Hearly.
  - destruct Hpid as (Hm & Ht & Hso & Hf). repeat split; try done.
    apply (filled_insert _ 0); first [done | lia | intros; lia | rewrite Hlen; lia | by rewrite pid_thread_worker by lia].
  - destruct Hpid as (Hp & Ht & Hso & Hf). repeat split; try done.
    apply (filled_insert _ 1); first [done | lia | intros; lia | rewrite Hlen; lia | by rewrite pid_thread_worker by lia].
  - destruct Hpid as (Hp & Hso & Hf). repeat split; try done.
    apply (filled_insert _ 2); first [done | lia | intros; lia | rewrite Hlen; lia | by rewrite pid_thread_worker by lia].
  - destruct Hpid as (Hp & Hf). assert (i = thread) as -> by lia. done.
  - destruct Hpid as (Hp & Hf). int_arith. split.
    + replace (i + 1 + 3) with (i + 3 + 1) by lia.
      apply filled_insert; first [done | lia | intros; lia | rewrite Hlen; lia | by rewrite pid_thread_worker by lia].
    + apply (fresh_insert _ (i + 1)); [|lia]. intros j w Hj. apply Hf. lia.
Qed.


End PidInv.

Lemma reachable_pid_inv thread s :
  0 <= thread <= INT_MAX - 3 -> reachable thread s -> pid_inv thread s.
Proof.
  intros Hr [ls H].
  assert (reachable thread s /\ pid_inv thread s) as [_ ?]; [|done]. revert H.
  apply run_invariant with (P := fun s => reachable thread s /\ pid_inv thread s).
  - intros s0 l s1 [Hreach Hsi] Hs.
    split; [by eapply reachable_step|by eapply pid_inv_step].
  - split; [apply reachable_init|by apply pid_inv_init].
Qed.

(** ** The array [m->m] *)

Lemma new_results_app a b : new_results (a ++ b) = new_results a ++ new_results b.
Proof.
  induction a as [|e a IH]; simpl; [done|].
  destruct (what e); simpl; by rewrite ?IH.
Qed.

Lemma detectors_made_log s e :
  detectors_made (log e s) = detectors_made s ++ new_results [e].
Proof. unfold detectors_made. simpl. by rewrite new_results_app. Qed.

Lemma m_ok_other thread s s' :
  th_start s' = th_start s -> m (the_monitor s') = m (the_monitor s) ->
  detectors_made s' = detectors_made s -> m_ok thread s -> m_ok thread s'.
Proof. unfold m_ok. by intros -> -> ->. Qed.

Lemma m_ok_init thread : m_ok thread (init thread).
Proof. done. Qed.

Section MInv.

Variable thread : Z.
Hypothesis thread_range : 0 <= thread <= INT_MAX - 3.

Lemma m_ok_step s l s' :
  reachable thread s -> m_ok thread s -> step thread s l = Some s' -> m_ok thread s'.
Proof.
  intros Hreach Hm H.
  pose proof (reachable_wf _ _ Hreach) as Hwf.
  destruct (reachable_start_inv _ _ thread_range Hreach) as [_ _ Hmon _].
  step_inv H Hwf.
  all: try (apply m_ok_other with s; simpl;
            first [ done
                  | unfold the_monitor; simpl;
                    repeat match goal with E : mon _ = _ |- _ => rewrite E end; done
                  | unfold detectors_made; simpl; rewrite new_results_app; simpl;
                    by rewrite app_nil_r ]).
  all: unfold m_ok, detectors_made in *; simpl.
  all: rewrite ?Est in *; rewrite ?new_results_app; simpl; rewrite ?app_nil_r.
  all: unfold the_monitor in *; simpl.
  all: repeat match goal with E : mon _ = _ |- _ => rewrite E in * end; simpl in *.
  all: bool_hyps.
  all: try done.
  - rewrite Hm, Z.sub_0_r. simpl. repeat split; try done; lia.
  - destruct Hm as (Hi & Hl & Hm). split; [lia|]. by eexists.
  - destruct Hm as (Hi & Hl & Hm). assert (i = thread) as -> by lia.
    rewrite Z.sub_diag, app_nil_r in Hm. done.
  - destruct Hm as (Hi & hs0 & -> & Hl & Hm). int_arith.
    rewrite length_app, Hm. simpl. split; [lia|]. split; [lia|].
    replace (Z.to_nat (thread - i)) with (S (Z.to_nat (thread - (i + 1)))) by lia.
    replace (Z.to_nat i) with (length hs0 + 0)%nat by lia.
    rewrite insert_app_r. simpl. by rewrite <- app_assoc.
  - by destruct Hm.
Qed.

End MInv.

Lemma reachable_m_ok thread s :
  0 <= thread <= INT_MAX - 3 -> reachable thread s -> m_ok thread s.
Proof.
  intros Hr [ls H].
  assert (reachable thread s /\ m_ok thread s) as [_ ?]; [|done]. revert H.
  apply run_invariant with (P := fun s => reachable thread s /\ m_ok thread s).
  - intros s0 l s1 [Hreach Hsi] Hs.
    split; [by eapply reachable_step|by eapply m_ok_step].
  - split; [apply reachable_init|by apply m_ok_init].
Qed.

(** ** The loop counters of the watchdog *)

Lemma count_le thread s :
  0 <= thread <= INT_MAX -> reachable thread s -> 0 <= count (the_monitor s) <= thread.
Proof.
  intros Hr Hreach.
  destruct (reachable_sleep_inv _ _ Hr Hreach) as [_ [_ _ _ Hcount _ _ _]].
  unfold the_monitor. destruct (mon s) as [mo|]; simpl; [|lia].
  specialize (Hcount _ eq_refl). unfold count_ok in Hcount.
  destruct (th_start s) as [|[]| | |]; lia.
Qed.

Section MonitorInv.

Variable thread : Z.
Hypothesis thread_range : 0 <= thread <= INT_MAX.

Lemma monitor_ok_step s l s' :
  reachable thread s -> monitor_ok thread s -> step thread s l = Some s' ->
  monitor_ok thread s'.
Proof.
  intros Hreach Hm H.
  pose proof (reachable_wf _ _ Hreach) as Hwf.
  pose proof (count_le _ _ thread_range Hreach) as Hc.
  unfold monitor_ok in *.
  step_inv H Hwf.
  all: simpl; try assumption.
  all: rewrite ?Est in *; bool_hyps; try done.
  all: int_arith; try lia.
Qed.

End MonitorInv.

Lemma reachable_monitor_ok thread s :
  0 <= thread <= INT_MAX -> reachable thread s -> monitor_ok thread s.
Proof.
  intros Hr [ls H].
  assert (reachable thread s /\ monitor_ok thread s) as [_ ?]; [|done]. revert H.
  apply run_invariant with (P := fun s => reachable thread s /\ monitor_ok thread s).
  - intros s0 l s1 [Hreach Hsi] Hs.
    split; [by eapply reachable_step|by eapply monitor_ok_step].
  - split; [apply reachable_init|done].
Qed.

(** ** What the invariants give *)

Section Pool.

Variable thread : Z.
Hypothesis thread_range : 0 <= thread <= INT_MAX - 3.

Lemma thread_range_max : 0 <= thread <= INT_MAX.
Proof. unfold INT_MAX in *. lia. Qed.

Lemma critical_alive w : in_critical w = true -> w <> NotCreated /\ w <> Returned.
Proof. by destruct w. Qed.

Lemma critical_holds s i w :
  reachable thread s -> th_worker s !! i = Some w -> in_critical w = true ->
  holds_lock s (T_worker i).
Proof.
  intros Hreach Hw Hc.
  destruct (critical_alive _ Hc) as [Hn Hr].
  destruct (worker_running_mon thread thread_range s i w Hreach Hw Hn Hr) as [mo Hmo].
  destruct (reachable_sleep_inv _ _ thread_range_max Hreach) as [_ [_ _ _ _ _ _ Hwok]].
  specialize (Hwok _ _ _ Hmo Hw). exists mo. split; [done|].
  destruct w as [|[]| | |]; simpl in *; try done; tauto.
Qed.

(** X1. The mutex of the struct.  Its owner, if any, is a worker between the
    lock of line 158 and the unlock of line 164 and outside
    [pthread_cond_wait]; a worker there owns it; so no two workers are
    there at once, and a worker that dispatches, waits or has returned does
    not hold the mutex. *)
Theorem mutex_discipline s :
  reachable thread s ->
  (forall t, holds_lock s t ->
     exists i w, t = T_worker i /\ th_worker s !! i = Some w /\ in_critical w = true) /\
  (forall i w, th_worker s !! i = Some w -> in_critical w = true ->
     holds_lock s (T_worker i)) /\
  (forall i j wi wj, th_worker s !! i = Some wi -> th_worker s !! j = Some wj ->
     in_critical wi = true -> in_critical wj = true -> i = j).
Proof.
  intros Hreach. split; [|split].
  - intros t (mo & Hmo & Hmu). by apply (reachable_lock_inv _ _ Hreach mo).
  - intros i w. by apply critical_holds.
  - intros i j wi wj Hi Hj Hci Hcj.
    destruct (critical_holds s i wi Hreach Hi Hci) as (mo & Hmo & Hmu).
    destruct (critical_holds s j wj Hreach Hj Hcj) as (mo' & Hmo' & Hmu').
    congruence.
Qed.

(** X2. [free_monitor] works on a struct that no thread uses any more: while
    [_start] is in it, the three service threads and all workers have
    returned, the mutex is unlocked, nobody waits on the condition variable
    and [m->sleep] is 0. *)
Theorem free_monitor_quiescent s f :
  reachable thread s -> th_start s = Running (St_free f) ->
  exists mo, mon s = Some mo /\ mutex mo = None /\ sleep mo = 0 /\
    th_monitor s = Returned /\ th_timer s = Returned /\ th_socket s = Returned /\
    forall i w, th_worker s !! i = Some w -> w = Returned.
Proof.
  intros Hreach Hst.
  destruct (reachable_sleep_inv _ _ thread_range_max Hreach)
    as [_ [Hlen _ _ _ _ Hsleep _]].
  destruct (reachable_start_inv _ _ thread_range Hreach) as [_ Hok Hmon _].
  unfold start_ok in Hok. rewrite Hst in Hok. destruct Hok as [J1 J2 J3 J4].
  assert (forall i w, th_worker s !! i = Some w -> w = Returned) as Hall.
  { intros i w Hw. apply (J4 i); [|done]. apply lookup_lt_Some in Hw. lia. }
  destruct (mon s) as [mo|] eqn:Hmo;
    [|destruct (Hmon eq_refl) as [E|E]; rewrite Hst in E; discriminate E].
  exists mo. split; [done|]. split; [|split].
  - destruct (mutex mo) as [t|] eqn:Hmu; [|done].
    destruct (reachable_lock_inv _ _ Hreach mo t Hmo Hmu) as (i & w & _ & Hw & Hc).
    rewrite (Hall _ _ Hw) in Hc. discriminate Hc.
  - rewrite (Hsleep _ eq_refl). clear -Hall.
    induction (th_worker s) as [|w ws IH]; [done|]. simpl.
    rewrite (Hall 0%nat w eq_refl). simpl. apply IH.
    intros i. apply (Hall (S i)).
  - repeat split; [apply J1|apply J2|apply J3|exact Hall]; lia.
Qed.

Lemma alive_struct s :
  reachable thread s -> some_alive s ->
  exists mo, mon s = Some mo /\ count mo = thread /\
    m mo = detectors_made s /\ Z.of_nat (length (m mo)) = thread.
Proof.
  intros Hreach Halive.
  destruct (reachable_sleep_inv _ _ thread_range_max Hreach)
    as [_ [Hlen Hentry Hearly Hcount _ _ _]].
  destruct (reachable_start_inv _ _ thread_range Hreach) as [_ Hok Hmon Hst].
  pose proof (reachable_m_ok _ _ thread_range Hreach) as Hm.
  unfold start_ok in Hok. unfold m_ok, the_monitor in Hm.
  assert (before_threads (th_start s) = false /\
          (forall f, th_start s <> Running (St_free f)) /\ th_start s <> Returned)
    as (Hb & Hf & Hr).
  { destruct Halive as [Ha|[Ha|[Ha|(i & w & Hw & Ha)]]].
    - split; [|split].
      + destruct (before_threads (th_start s)); [|done].
        destruct (Hst eq_refl) as (E & _). by rewrite E in Ha.
      + intros f E. rewrite E in Hok. rewrite (jn_monitor _ _ Hok) in Ha by lia. done.
      + intros E. rewrite E in Hok. rewrite (jn_monitor _ _ Hok) in Ha by lia. done.
    - split; [|split].
      + destruct (before_threads (th_start s)); [|done].
        destruct (Hst eq_refl) as (_ & E & _). by rewrite E in Ha.
      + intros f E. rewrite E in Hok. rewrite (jn_timer _ _ Hok) in Ha by lia. done.
      + intros E. rewrite E in Hok. rewrite (jn_timer _ _ Hok) in Ha by lia. done.
    - split; [|split].
      + destruct (before_threads (th_start s)); [|done].
        destruct (Hst eq_refl) as (_ & _ & E). by rewrite E in Ha.
      + intros f E. rewrite E in Hok. rewrite (jn_socket _ _ Hok) in Ha by lia. done.
      + intros E. rewrite E in Hok. rewrite (jn_socket _ _ Hok) in Ha by lia. done.
    - assert (Z.of_nat i + 3 < thread + 3) as Hi by (apply lookup_lt_Some in Hw; lia).
      split; [|split].
      + destruct (before_threads (th_start s)) eqn:Hbt; [|done].
        assert (before_workers (th_start s) = true) as Hbw
          by (by destruct (th_start s) as [|[]| | |]).
        rewrite (Hearly Hbw _ _ Hw) in Ha. done.
      + intros f E. rewrite E in Hok. rewrite (jn_worker _ _ Hok _ _ Hi Hw) in Ha. done.
      + intros E. rewrite E in Hok. rewrite (jn_worker _ _ Hok _ _ Hi Hw) in Ha. done. }
  destruct (mon s) as [mo|] eqn:Hmo.
  - specialize (Hcount _ eq_refl). unfold count_ok in Hcount. simpl in Hm.
    exists mo. split; [done|].
    destruct (th_start s) as [|[| | | | | | | | | | | | | | | | | |[]]| | |];
      simpl in Hb; try discriminate Hb; try done.
    all: try (by destruct (Hf _ eq_refl)).
    all: destruct Hm as [Hm1 Hm2]; rewrite Hm1; done.
  - destruct (Hmon eq_refl) as [E|E]; rewrite E in Hb; [discriminate Hb|done].
Qed.

(** X3. The struct outlives the threads that use it: as long as a thread
    created by [_start] has not returned, the struct is allocated, its
    [count] is [thread] and [m->m] holds the [thread] detectors that
    [skynet_monitor_new] returned, in the order of their creation. *)
Theorem struct_outlives_threads s :
  reachable thread s -> some_alive s ->
  exists mo, mon s = Some mo /\ count mo = thread /\
    m mo = detectors_made s /\ Z.of_nat (length (m mo)) = thread.
Proof. apply alive_struct. Qed.

(** X4. Every use of [m->m[i]] concerns the [i]-th detector that
    [skynet_monitor_new] returned, and stays within the array: the store
    of line 189, the detector worker [id] passes to the dispatch, the one the
    watchdog checks at index [i] and the one [free_monitor] deletes at
    index [i]. *)
Theorem detector_of_index s :
  reachable thread s ->
  (forall i h, next_call thread s T_start = Some (store_m i h) ->
     0 <= i < Z.of_nat (length (m (the_monitor s))) /\
     detectors_made s !! Z.to_nat i = Some h) /\
  (forall id h,
     next_call thread s (T_worker id) = Some (skynet_context_message_dispatch h) ->
     detectors_made s !! id = Some h) /\
  (forall i h, th_monitor s = Running (Mo_check i) ->
     next_call thread s T_monitor = Some (skynet_monitor_check h) ->
     0 <= i /\ detectors_made s !! Z.to_nat i = Some h) /\
  (forall i h, th_start s = Running (St_free (Fm_delete i)) ->
     next_call thread s T_start = Some (skynet_monitor_delete h) ->
     0 <= i /\ detectors_made s !! Z.to_nat i = Some h).
Proof.
  intros Hreach.
  destruct (reachable_sleep_inv _ _ thread_range_max Hreach)
    as [_ [Hlen _ _ Hcount _ _ _]].
  pose proof (reachable_m_ok _ _ thread_range Hreach) as Hm.
  assert (forall mo (i : Z), m mo = detectors_made s -> Z.of_nat (length (m mo)) = thread ->
            0 <= i < thread ->
            detectors_made s !! Z.to_nat i = Some (m_at mo i)) as Hat.
  { intros mo i Hmm Hl Hi. unfold m_at. rewrite <- Hmm.
    destruct (lookup_lt_is_Some_2 (m mo) (Z.to_nat i)) as [h Hh]; [lia|].
    by rewrite Hh. }
  split; [|split; [|split]].
  - intros i h Hc. unfold next_call, at_call in Hc. unfold m_ok in Hm.
    destruct (th_start s) as [|pc| | |]; try discriminate.
    destruct pc as [| | | | |i0|i0 h0| | | | | |[]|[]|[]| |?[]|i0|[]]; simpl in Hc;
      repeat case_match; simpl in Hc; simplify_eq.
    destruct Hm as (Hi & hs0 & -> & Hl & ->).
    rewrite length_app, length_replicate. split; [lia|].
    rewrite lookup_app_r by lia.
    replace (Z.to_nat i - length hs0)%nat with 0%nat by lia. done.
  - intros id h Hc. unfold next_call in Hc.
    destruct (th_worker s !! id) as [w|] eqn:Hw; [|done]. simpl in Hc.
    destruct w as [|pc| | |]; try discriminate.
    destruct (alive_struct s Hreach) as (mo & Hmo & Hco & Hmm & Hl).
    { right. right. right. by exists id, (Running pc). }
    apply lookup_lt_Some in Hw.
    unfold the_monitor in Hc. rewrite Hmo in Hc. simpl in Hc.
    destruct pc; simpl in Hc; simplify_eq.
    rewrite <- (Nat2Z.id id) at 1. apply Hat; [done|done|lia].
  - intros i h Hst Hc. unfold next_call in Hc. rewrite Hst in Hc.
    destruct (alive_struct s Hreach) as (mo & Hmo & Hco & Hmm & Hl).
    { left. by rewrite Hst. }
    pose proof (reachable_monitor_ok _ _ thread_range_max Hreach) as Hmi.
    unfold monitor_ok in Hmi. rewrite Hst in Hmi.
    unfold the_monitor in Hc. rewrite Hmo in Hc. simpl in Hc.
    destruct (i <? count mo) eqn:Hlt; simpl in Hc; simplify_eq.
    apply Z.ltb_lt in Hlt. split; [lia|]. apply Hat; [done|done|lia].
  - intros i h Hst Hc. unfold next_call in Hc. rewrite Hst in Hc.
    destruct (reachable_start_inv _ _ thread_range Hreach) as [_ _ Hmon _].
    destruct (reachable_hist _ thread_range _ Hreach) as [hs Hh].
    unfold hist_ok in Hh. unfold m_ok in Hm. rewrite Hst in Hh, Hm.
    destruct Hh as (Hi & _). destruct Hm as (Hmm & Hl).
    unfold the_monitor in *.
    destruct (mon s) as [mo|] eqn:Hmo;
      [|destruct (Hmon eq_refl) as [E|E]; rewrite Hst in E; discriminate E].
    simpl in *. specialize (Hcount _ eq_refl). unfold count_ok in Hcount.
    rewrite Hst in Hcount.
    destruct (i <? count mo) eqn:Hlt; simpl in Hc; simplify_eq.
    apply Z.ltb_lt in Hlt. split; [lia|]. apply Hat; [done|by rewrite Hmm|lia].
Qed.

(** X5. The array [pid] holds [thread + 3] handles.  [pthread_create] is
    called on [pid[k]] within it, for the thread that belongs there, which
    has not been created before; [pthread_join] is called on a [pid[k]]
    within it that a successful [pthread_create] has filled. *)
Theorem thread_handles s :
  reachable thread s ->
  length (pid s) = Z.to_nat (thread + 3) /\
  (forall k t, next_call thread s T_start = Some (pthread_create k t) ->
     0 <= k < thread + 3 /\ t = pid_thread (Z.to_nat k) /\ not_created s t) /\
  (forall k, next_call thread s T_start = Some (pthread_join k) ->
     0 <= k < thread + 3 /\
     pid s !! Z.to_nat k = Some (Some (pid_thread (Z.to_nat k)))).
Proof.
  intros Hreach.
  destruct (reachable_sleep_inv _ _ thread_range_max Hreach) as [_ [Hlen _ _ _ _ _ _]].
  destruct (reachable_start_inv _ _ thread_range Hreach) as [_ Hok _ _].
  destruct (reachable_pid_inv _ _ thread_range Hreach) as [Hpl Hpid].
  unfold pid_ok, start_ok in *.
  split; [done|]. split.
  - intros k t Hc. unfold next_call, at_call in Hc.
    destruct (th_start s) as [|pc| | |]; try discriminate.
    destruct pc as [| | | | |i0|i0 h0| | | | | |[]|[]|[]| |i0 []|i0|[]]; simpl in Hc;
      repeat case_match; simpl in Hc; simplify_eq.
    + split; [lia|]. split; [done|]. simpl. tauto.
    + split; [lia|]. split; [done|]. simpl. tauto.
    + split; [lia|]. split; [done|]. simpl. tauto.
    + destruct Hpid as [_ Hf]. int_arith. split; [lia|].
      split; [by rewrite pid_thread_worker by lia|]. simpl.
      destruct (lookup_lt_is_Some_2 (th_worker s) (Z.to_nat i0)) as [w Hw]; [lia|].
      rewrite Hw. f_equal. apply (Hf (Z.to_nat i0)); [lia|done].
  - intros k Hc. unfold next_call, at_call in Hc.
    destruct (th_start s) as [|pc| | |]; try discriminate.
    destruct pc as [| | | | |i0|i0 h0| | | | | |[]|[]|[]| |i0 []|i0|[]]; simpl in Hc;
      repeat case_match; simpl in Hc; simplify_eq.
    bool_hyps. int_arith. split; [lia|]. apply Hpid. lia.
Qed.

End Pool.

Lemma mutex_discipline_witness :
  holds_lock worker0_locked (T_worker 0) /\
  forall j wj, th_worker worker0_locked !! j = Some wj -> in_critical wj = true -> 0%nat = j.
Proof.
  assert (0 <= 2 <= INT_MAX - 3) as Hr by (unfold INT_MAX; lia).
  assert (reachable 2 worker0_locked) as Hreach
    by (exists (boot2 ++ worker0_locks); vm_compute; reflexivity).
  destruct (mutex_discipline 2 Hr worker0_locked Hreach) as (_ & H2 & H3).
  split.
  - exact (H2 0%nat _ eq_refl eq_refl).
  - intros j wj Hj Hc. exact (H3 0%nat j _ wj eq_refl Hj eq_refl Hc).
Defined.

Lemma free_monitor_quiescent_witness :
  exists mo, mon start2_freeing = Some mo /\ mutex mo = None /\ sleep mo = 0.
Proof.
  assert (0 <= 2 <= INT_MAX - 3) as Hr by (unfold INT_MAX; lia).
  assert (reachable 2 start2_freeing) as Hreach
    by (exists (boot2 ++ all_return ++ replicate 6 (L T_start 0)); vm_compute; reflexivity).
  destruct (free_monitor_quiescent 2 Hr start2_freeing (Fm_delete 0) Hreach eq_refl)
    as (mo & Hmo & Hmu & Hsl & _).
  exists mo. split; [exact Hmo|]. split; [exact Hmu|exact Hsl].
Defined.

Lemma struct_outlives_threads_witness :
  exists mo, mon lost_wakeup = Some mo /\ count mo = 2 /\
    m mo = detectors_made lost_wakeup /\ Z.of_nat (length (m mo)) = 2.
Proof.
  assert (0 <= 2 <= INT_MAX - 3) as Hr by (unfold INT_MAX; lia).
  assert (reachable 2 lost_wakeup) as Hreach
    by (exists late_sleeper; vm_compute; reflexivity).
  apply (struct_outlives_threads 2 Hr lost_wakeup Hreach).
  left. reflexivity.
Defined.

Lemma detector_of_index_witness :
  detectors_made booted !! 1%nat = Some 101.
Proof.
  assert (0 <= 2 <= INT_MAX - 3) as Hr by (unfold INT_MAX; lia).
  assert (reachable 2 booted) as Hreach by (exists boot2; vm_compute; reflexivity).
  destruct (detector_of_index 2 Hr booted Hreach) as (_ & H & _).
  exact (H 1%nat 101 eq_refl).
Defined.

Lemma thread_handles_witness :
  0 <= 0 < 2 + 3 /\ pid booted !! Z.to_nat 0 = Some (Some (pid_thread (Z.to_nat 0))).
Proof.
  assert (0 <= 2 <= INT_MAX - 3) as Hr by (unfold INT_MAX; lia).
  assert (reachable 2 booted) as Hreach by (exists boot2; vm_compute; reflexivity).
  destruct (thread_handles 2 Hr booted Hreach) as (_ & _ & H).
  exact (H 0 eq_refl).
Defined.

(** ** After the shutdown *)

Lemma quiet_step thread tr s l s' :
  wf s -> quiet_since tr s -> step thread s l = Some s' -> quiet_since tr s'.
Proof.
  intros Hwf (Ht & Hso & evs & Htr & Hall) H.
  unfold quiet_since.
  step_inv H Hwf.
  all: try congruence.
  all: simpl; rewrite ?Htr.
  all: split; [assumption|]; split; [assumption|].
  all: first [ exists evs; split; [reflexivity|assumption]
             | eexists (_ :: evs); split; [reflexivity|];
               constructor; [reflexivity|assumption] ].
Qed.

Lemma blocked_step thread s l s' i pc :
  wf s -> th_timer s = Returned -> th_socket s = Returned ->
  step thread s l = Some s' -> tid l <> T_worker i ->
  th_worker s !! i = Some (CondBlocked pc) ->
  th_worker s' !! i = Some (CondBlocked pc).
Proof.
  intros Hwf Ht Hso H Hne Hw.
  step_inv H Hwf.
  all: try congruence.
  all: simpl; try assumption.
  all: rewrite list_lookup_insert_ne; [assumption|]; congruence.
Qed.

(** X6. Once the timer and the socket thread have returned, no thread calls
    [pthread_cond_signal] or [pthread_cond_broadcast] any more: in every
    continuation of the run both stay returned and the calls made hold
    neither.  A worker that is waiting on the condition variable is
    then left waiting by every step of another thread. *)
Theorem no_wakeup_after_shutdown thread s :
  reachable thread s -> th_timer s = Returned -> th_socket s = Returned ->
  (forall ls s', run thread ls s = Some s' -> quiet_since (trace s) s') /\
  (forall l s' i pc, step thread s l = Some s' -> tid l <> T_worker i ->
     th_worker s !! i = Some (CondBlocked pc) ->
     th_worker s' !! i = Some (CondBlocked pc)).
Proof.
  intros Hreach Ht Hso. pose proof (reachable_wf _ _ Hreach) as Hwf. split.
  - intros ls s' Hrun.
    assert (wf s' /\ quiet_since (trace s) s') as [_ ?]; [|done]. revert Hrun.
    apply run_invariant with (P := fun s' => wf s' /\ quiet_since (trace s) s').
    + intros s0 l s1 [Hwf0 Hq] Hs. split; [by eapply wf_step|by eapply quiet_step].
    + split; [done|]. split; [done|]. split; [done|]. by exists [].
  - intros l s' i pc Hs Hne Hw. by eapply blocked_step.
Qed.

Lemma no_wakeup_after_shutdown_witness :
  reachable 2 lost_wakeup /\
  th_worker lost_wakeup !! 0%nat = Some (CondBlocked W_cond_wait) /\
  forall ls s', run 2 ls lost_wakeup = Some s' -> quiet_since (trace lost_wakeup) s'.
Proof.
  assert (reachable 2 lost_wakeup) as Hreach
    by (exists late_sleeper; vm_compute; reflexivity).
  split; [exact Hreach|]. split; [reflexivity|].
  apply (no_wakeup_after_shutdown 2 lost_wakeup Hreach eq_refl eq_refl).
Defined.

(** ** A failed initialisation *)

Lemma before_threads_workers st : before_threads st = true -> before_workers st = true.
Proof. by destruct st as [|[]| | |]. Qed.

Section InitFailure.

Variable thread : Z.
Hypothesis thread_range : 0 <= thread <= INT_MAX - 3.

Lemma no_create_step s l s' :
  reachable thread s -> no_create_yet s -> step thread s l = Some s' -> no_create_yet s'.
Proof.
  intros Hreach Hinv H.
  pose proof (reachable_wf _ _ Hreach) as Hwf.
  assert (0 <= thread <= INT_MAX) as Hr' by (unfold INT_MAX in *; lia).
  destruct (reachable_sleep_inv _ _ Hr' Hreach) as [_ [_ _ Hearly _ _ _ _]].
  destruct (reachable_start_inv _ _ thread_range Hreach) as [_ _ _ Hst].
  unfold no_create_yet in *.
  step_inv H Hwf.
  all: simpl; intros Hb; try discriminate Hb.
  all: rewrite ?Est in *.
  all: try (constructor; [reflexivity|by apply Hinv]).
  all: try (by apply Hinv).
  all: try (destruct (Hst Hb) as (? & ? & ?); congruence).
  all: try (specialize (Hearly (before_threads_workers _ Hb));
            match goal with
            | Hq : th_worker _ !! _ = Some _ |- _ =>
                specialize (Hearly _ _ Hq); discriminate Hearly
            end).
Qed.

Lemma reachable_no_create s : reachable thread s -> no_create_yet s.
Proof.
  intros [ls H].
  assert (reachable thread s /\ no_create_yet s) as [_ ?]; [|done]. revert H.
  apply run_invariant with (P := fun s => reachable thread s /\ no_create_yet s).
  - intros s0 l s1 [Hreach Hsi] Hs.
    split; [by eapply reachable_step|by eapply no_create_step].
  - split; [apply reachable_init|]. intros _. constructor.
Qed.

(** X8. A failure of [pthread_mutex_init] or [pthread_cond_init] ends the
    process before the pool exists: when [_start] prints its message or
    calls [exit] for it, no [pthread_create] has been called and no thread
    has been created. *)
Theorem init_failure_before_threads s :
  reachable thread s ->
  th_start s = Running St_mutex_fprintf \/ th_start s = Running St_cond_fprintf \/
  th_start s = Running St_exit ->
  Forall (fun e => is_create (what e) = false) (trace s) /\
  th_monitor s = NotCreated /\ th_timer s = NotCreated /\ th_socket s = NotCreated /\
  forall i w, th_worker s !! i = Some w -> w = NotCreated.
Proof.
  intros Hreach Hst.
  assert (before_threads (th_start s) = true) as Hb
    by (destruct Hst as [->|[->| ->]]; reflexivity).
  assert (0 <= thread <= INT_MAX) as Hr' by (unfold INT_MAX in *; lia).
  destruct (reachable_sleep_inv _ _ Hr' Hreach) as [_ [_ _ Hearly _ _ _ _]].
  destruct (reachable_start_inv _ _ thread_range Hreach) as [_ _ _ Hearly'].
  split; [by apply reachable_no_create|].
  destruct (Hearly' Hb) as (? & ? & ?). repeat split; try done.
  apply Hearly. by apply before_threads_workers.
Qed.

End InitFailure.

Lemma init_failure_before_threads_witness :
  Forall (fun e => is_create (what e) = false) (trace init_failed) /\
  th_monitor init_failed = NotCreated.
Proof.
  assert (0 <= 2 <= INT_MAX - 3) as Hr by (unfold INT_MAX; lia).
  assert (reachable 2 init_failed) as Hreach
    by (exists (take 10 boot2 ++ [L T_start 1; L T_start 0]); vm_compute; reflexivity).
  destruct (init_failure_before_threads 2 Hr init_failed Hreach) as (H1 & H2 & _).
  - right. right. reflexivity.
  - split; [exact H1|exact H2].
Defined.

(** ** The socket thread and the timer *)

(** X9. What the socket thread does with the value of [skynet_socket_poll]:
    on 0 it returns; on a positive value it goes to [wakeup]; on a negative
    value it reads the live-service count and returns if that is zero, or
    else polls again without calling [wakeup].  None of this touches the
    struct or the workers. *)
Theorem socket_poll_outcomes thread s l :
  exited s = false -> tid l = T_socket -> th_socket s = Running So_poll ->
  let poll := Ev T_socket skynet_socket_poll (ret l) in
  (ret l = 0 -> step thread s l = Some (set_th_socket Returned (log poll s))) /\
  (0 < ret l ->
   step thread s l = Some (set_th_socket (Running (So_wakeup Wk_test)) (log poll s))) /\
  (ret l < 0 -> forall l2, tid l2 = T_socket ->
   run thread [l; l2] s =
   Some (set_th_socket (if ret l2 =? 0 then Returned else Running So_poll)
           (log (Ev T_socket skynet_context_total (ret l2)) (log poll s)))).
Proof.
  intros Hex Htid Hst poll. subst poll. split; [|split].
  - intros Hr. unfold step. rewrite Hex, Htid, Hst. simpl. by rewrite Hr.
  - intros Hr. unfold step. rewrite Hex, Htid, Hst. simpl.
    assert ((ret l =? 0) = false) as -> by (apply Z.eqb_neq; lia).
    assert ((ret l <? 0) = false) as -> by (apply Z.ltb_ge; lia). done.
  - intros Hr l2 Htid2. unfold run, step. rewrite Hex, Htid, Hst. simpl.
    assert ((ret l =? 0) = false) as -> by (apply Z.eqb_neq; lia).
    assert ((ret l <? 0) = true) as -> by (apply Z.ltb_lt; lia).
    simpl. rewrite Hex, Htid2. simpl. by destruct (ret l2 =? 0).
Qed.

Lemma socket_poll_outcomes_witness :
  run 2 [L T_socket (-1); L T_socket 1] booted =
  Some (set_th_socket (Running So_poll)
          (log (Ev T_socket skynet_context_total 1)
             (log (Ev T_socket skynet_socket_poll (-1)) booted))).
Proof.
  destruct (socket_poll_outcomes 2 booted (L T_socket (-1)) eq_refl eq_refl eq_refl)
    as (_ & _ & H).
  exact (H ltac:(simpl; lia) (L T_socket 1) eq_refl).
Defined.

Lemma sleeping_pos (ws : list (tstate worker_pc)) :
  1 <= sleeping ws <-> exists i w, ws !! i = Some w /\ asleep w = true.
Proof.
  induction ws as [|w ws IH]; simpl.
  - split; [lia|]. by intros (i & w & Hw & _).
  - pose proof (sleeping_bounds ws) as Hb. destruct (asleep w) eqn:Ha.
    + split; [|lia]. intros _. by exists 0%nat, w.
    + rewrite Z.add_0_l, IH. split.
      * intros (i & w' & Hw & Ha'). by exists (S i), w'.
      * intros ([|i] & w' & Hw & Ha'); simpl in Hw; [congruence|by eauto].
Qed.

Section TimerTick.

Variable thread : Z.
Hypothesis thread_range : 0 <= thread <= INT_MAX - 3.

(** X10. The test of the timer's [wakeup(m, m->count - 1)]: it goes on to
    [pthread_cond_signal] exactly when some worker is between its
    increment and its decrement of [m->sleep], and otherwise straight to
    [usleep]; with no worker at all it never signals. *)
Theorem timer_wakes_any_sleeper s mo l :
  reachable thread s -> mon s = Some mo -> exited s = false ->
  tid l = T_timer -> th_timer s = Running (Ti_wakeup Wk_test) ->
  exists s', step thread s l = Some s' /\
    (th_timer s' = Running (Ti_wakeup Wk_signal) <->
     exists i w, th_worker s !! i = Some w /\ asleep w = true) /\
    (th_timer s' = Running Ti_usleep <->
     forall i w, th_worker s !! i = Some w -> asleep w = false) /\
    th_worker s' = th_worker s /\ mon s' = mon s.
Proof.
  intros Hreach Hmo Hex Htid Hst.
  assert (0 <= thread <= INT_MAX) as Hr' by (unfold INT_MAX in *; lia).
  destruct (reachable_sleep_inv _ _ Hr' Hreach) as [_ [_ _ _ _ _ Hsleep _]].
  specialize (Hsleep _ Hmo).
  eexists. split; [by apply (step_timer_test thread thread_range)|]. simpl.
  rewrite <- sleeping_pos, <- Hsleep.
  destruct (sleep mo >=? count mo - (count mo - 1)) eqn:E.
  - apply Z.geb_le in E. repeat split; try done; try lia.
    intros Hall. exfalso.
    assert (1 <= sleeping (th_worker s)) as Hp by lia.
    apply sleeping_pos in Hp as (i & w & Hw & Ha). rewrite (Hall _ _ Hw) in Ha. done.
  - assert (sleep mo < 1) as E' by (rewrite Z.geb_leb in E; apply Z.leb_gt in E; lia).
    repeat split; try done; try lia.
    intros _ i w Hw. destruct (asleep w) eqn:Ha; [|done]. exfalso.
    assert (1 <= sleeping (th_worker s)) as Hp by (apply sleeping_pos; eauto). lia.
Qed.

End TimerTick.

Lemma timer_wakes_any_sleeper_witness :
  exists s', step 2 timer_in_wakeup (L T_timer 0) = Some s' /\
    th_timer s' = Running Ti_usleep.
Proof.
  assert (0 <= 2 <= INT_MAX - 3) as Hr by (unfold INT_MAX; lia).
  assert (reachable 2 timer_in_wakeup) as Hreach
    by (exists (boot2 ++ timer_ticks); vm_compute; reflexivity).
  destruct (timer_wakes_any_sleeper 2 Hr timer_in_wakeup
              {| count := 2; m := [100; 101]; mutex := None; sleep := 0 |}
              (L T_timer 0) Hreach eq_refl eq_refl eq_refl eq_refl)
    as (s' & Hstep & _ & Hu & _).
  exists s'. split; [exact Hstep|]. apply Hu.
  intros [|[|i]] w Hw; simpl in Hw; [by injection Hw as <-..|discriminate Hw].
Defined.

(** ** When [_start] has returned *)

Section Returned.

Variable thread : Z.
Hypothesis thread_range : 0 <= thread <= INT_MAX - 3.

Lemma returned_halted s l :
  reachable thread s -> th_start s = Returned -> step thread s l = None.
Proof.
  intros Hreach Hst.
  assert (0 <= thread <= INT_MAX) as Hr' by (unfold INT_MAX in *; lia).
  destruct (reachable_sleep_inv _ _ Hr' Hreach) as [_ [Hlen _ _ _ _ _ _]].
  destruct (reachable_start_inv _ _ thread_range Hreach) as [_ Hok _ _].
  unfold start_ok in Hok. rewrite Hst in Hok. destruct Hok as [J1 J2 J3 J4].
  unfold step. destruct (exited s); [done|].
  destruct (tid l) as [| | | |i]; simpl.
  - by rewrite Hst.
  - by rewrite J1 by lia.
  - by rewrite J2 by lia.
  - by rewrite J3 by lia.
  - destruct (th_worker s !! i) as [w|] eqn:Hw; [|done]. simpl.
    rewrite (J4 i w); [done| |done]. apply lookup_lt_Some in Hw. lia.
Qed.

Lemma freed_step s l s' :
  reachable thread s -> freed_ok s -> step thread s l = Some s' -> freed_ok s'.
Proof.
  intros Hreach Hinv H.
  pose proof (reachable_wf _ _ Hreach) as Hwf.
  assert (th_start s <> Returned) as Hst
    by (intros E; by rewrite returned_halted in H).
  unfold freed_ok in *.
  step_inv H Hwf.
  all: simpl; try done.
  all: intros E; by destruct Hst.
Qed.

Lemma reachable_freed s : reachable thread s -> freed_ok s.
Proof.
  intros [ls H].
  assert (reachable thread s /\ freed_ok s) as [_ ?]; [|done]. revert H.
  apply run_invariant with (P := fun s => reachable thread s /\ freed_ok s).
  - intros s0 l s1 [Hreach Hsi] Hs.
    split; [by eapply reachable_step|by eapply freed_step].
  - split; [apply reachable_init|]. intros E. discriminate E.
Qed.

(** X11. When [_start] has returned the pool is gone: the struct is freed and
    no thread can make another step. *)
Theorem start_returned_clean s :
  reachable thread s -> th_start s = Returned ->
  mon s = None /\ forall l, step thread s l = None.
Proof.
  intros Hreach Hst. split; [by apply reachable_freed|].
  intros l. by apply returned_halted.
Qed.

End Returned.

Lemma start_returned_clean_witness :
  mon start2_done = None /\ forall l, step 2 start2_done l = None.
Proof.
  assert (0 <= 2 <= INT_MAX - 3) as Hr by (unfold INT_MAX; lia).
  assert (reachable 2 start2_done) as Hreach
    by (exists (boot2 ++ all_return ++ join_and_free); vm_compute; reflexivity).
  exact (start_returned_clean 2 Hr start2_done Hreach eq_refl).
Defined.

(** * skynet_start *)

Ltac main_eval :=
  unfold run_main, skynet_start, _start_master, master_calls, launcher_calls,
    master_answers, pool_part, boot_calls, init_calls;
  unfold mbind, prog_mbind, mret, prog_mret, ask;
  repeat first
    [ progress cbn [prog_bind interp returns_value then_ calls ending Z.eqb negb
                    fmap list_fmap app Nat.add]
    | match goal with
      | H : standalone _ = _ |- _ => rewrite H
      | H : (answers_of _ _ =? _) = _ |- _ => rewrite H
      | H : (?a _ =? 0) = _ |- _ => rewrite H
      | H : ?a _ = 0 |- _ => rewrite H
      end ].

Lemma run_main_failures config answers ls :
  let boot := boot_calls config (answers 0%nat) in
  let k := master_answers config in
  (answers 0%nat = 0 ->
   run_main config answers ls =
   {| calls := boot ++ [Called (libc (fprintf "launch logger error")) 0;
                        Called (libc (exit 1)) 0];
      ending := Exited 1 |}) /\
  (answers 0%nat <> 0 -> standalone config <> None -> answers 1%nat = 0 ->
   run_main config answers ls =
   {| calls := boot ++ master_calls config 0 ++
                 [Called (libc (fprintf "Init fail : mater")) 0];
      ending := Finished |}) /\
  (answers 0%nat <> 0 -> (standalone config <> None -> answers 1%nat <> 0) ->
   answers (1 + k)%nat <> 0 ->
   run_main config answers ls =
   {| calls := boot ++ master_calls config (answers 1%nat) ++
                 [Called (skynet_harbor_start (master config) (local config))
                    (answers (1 + k)%nat);
                  Called (libc (fprintf "Init fail : no master")) 0];
      ending := Finished |}).
Proof.
  intros boot k. subst boot k. split; [|split].
  - intros H0. by main_eval.
  - intros H0 Hs H1. apply Z.eqb_neq in H0.
    destruct (standalone config) as [ms|] eqn:Hst; [|done].
    by main_eval.
  - intros H0 H1 H2. apply Z.eqb_neq in H0.
    destruct (standalone config) as [ms|] eqn:Hst.
    + specialize (H1 ltac:(done)). apply Z.eqb_neq in H1.
      unfold master_answers in H2. rewrite Hst in H2. simpl in H2.
      apply Z.eqb_neq in H2. by main_eval.
    + unfold master_answers in H2. rewrite Hst in H2. simpl in H2.
      apply Z.eqb_neq in H2. by main_eval.
Qed.

(** X12. The ways [skynet_start] gives up before starting the pool.  Without
    a logger it prints a message and exits with status 1.  When the master
    cannot be started, or [skynet_harbor_start] fails, it prints a message
    and returns: [_start] is not called, and neither is
    [skynet_socket_free], although [skynet_socket_init] was. *)
Theorem skynet_start_failures config answers ls :
  let boot := boot_calls config (answers 0%nat) in
  let k := master_answers config in
  (answers 0%nat = 0 ->
   run_main config answers ls =
   {| calls := boot ++ [Called (libc (fprintf "launch logger error")) 0;
                        Called (libc (exit 1)) 0];
      ending := Exited 1 |}) /\
  (answers 0%nat <> 0 -> standalone config <> None -> answers 1%nat = 0 ->
   run_main config answers ls =
   {| calls := boot ++ master_calls config 0 ++
                 [Called (libc (fprintf "Init fail : mater")) 0];
      ending := Finished |}) /\
  (answers 0%nat <> 0 -> (standalone config <> None -> answers 1%nat <> 0) ->
   answers (1 + k)%nat <> 0 ->
   run_main config answers ls =
   {| calls := boot ++ master_calls config (answers 1%nat) ++
                 [Called (skynet_harbor_start (master config) (local config))
                    (answers (1 + k)%nat);
                  Called (libc (fprintf "Init fail : no master")) 0];
      ending := Finished |}).
Proof. apply run_main_failures. Qed.

Lemma run_main_pool config answers ls :
  let k := master_answers config in
  answers 0%nat <> 0 -> (standalone config <> None -> answers 1%nat <> 0) ->
  answers (1 + k)%nat = 0 ->
  run_main config answers ls =
  {| calls := boot_calls config (answers 0%nat) ++ master_calls config (answers 1%nat) ++
               [Called (skynet_harbor_start (master config) (local config)) 0] ++
               launcher_calls config (answers (2 + k)%nat) (answers (3 + k)%nat) ++
               calls (pool_part (thread config) ls);
     ending := ending (pool_part (thread config) ls) |}.
Proof.
  intros k H0 H1 H2. subst k. apply Z.eqb_neq in H0.
  destruct (standalone config) as [ms|] eqn:Hst.
  - specialize (H1 ltac:(done)). apply Z.eqb_neq in H1.
    unfold master_answers in *. rewrite Hst in *. simpl in H2.
    main_eval.
    destruct (answers 3%nat =? 0) eqn:H3; main_eval.
    all: destruct (run (thread config) ls (init (thread config))) as [s|]; [|done].
    all: destruct (exited s); [done|]; by destruct (is_returned (th_start s)).
  - unfold master_answers in *. rewrite Hst in *. simpl in H2.
    main_eval.
    destruct (answers 2%nat =? 0) eqn:H3; main_eval.
    all: destruct (run (thread config) ls (init (thread config))) as [s|]; [|done].
    all: destruct (exited s); [done|]; by destruct (is_returned (th_start s)).
Qed.

(** X13. Once the logger, the master (if any) and the harbor are up,
    [skynet_start] calls [_start(config->thread)] whether or not the
    launcher and the first Lua service could be created: a null launcher
    only skips the [REG] command and the service, and the result of
    creating that service is not looked at.  [skynet_socket_free] follows
    if [_start] returns. *)
Theorem skynet_start_runs_pool config answers ls :
  let k := master_answers config in
  answers 0%nat <> 0 -> (standalone config <> None -> answers 1%nat <> 0) ->
  answers (1 + k)%nat = 0 ->
  run_main config answers ls =
  {| calls := boot_calls config (answers 0%nat) ++ master_calls config (answers 1%nat) ++
               [Called (skynet_harbor_start (master config) (local config)) 0] ++
               launcher_calls config (answers (2 + k)%nat) (answers (3 + k)%nat) ++
               calls (pool_part (thread config) ls);
     ending := ending (pool_part (thread config) ls) |}.
Proof. apply run_main_pool. Qed.

Lemma not_in_forall {A : Type} (x : A) (l : list A) :
  Forall (fun e => e <> x) l -> x ∈ l -> False.
Proof. rewrite Forall_forall. intros H Hin. by destruct (H _ Hin). Qed.

Lemma pool_part_free n ls v :
  Called skynet_socket_free v ∈ calls (pool_part n ls) ->
  ending (pool_part n ls) = Finished /\
  exists s, Pool n s ∈ calls (pool_part n ls) /\
    run n ls (init n) = Some s /\ exited s = false /\ th_start s = Returned.
Proof.
  unfold pool_part.
  destruct (run n ls (init n)) as [s|]; simpl; [|by intros ?%elem_of_nil].
  destruct (exited s) eqn:Hex; simpl.
  { intros H. apply list_elem_of_singleton in H. discriminate H. }
  destruct (th_start s) as [| | | |] eqn:Hst; simpl.
  all: try (intros H; apply list_elem_of_singleton in H; discriminate H).
  intros _. split; [done|]. exists s. split; [by left|done].
Qed.

(** X14. [skynet_socket_free] is called only at the very end of a complete
    run: [skynet_start] then returns, and the pool it has run is one in
    which [_start] returned, after every thread had returned and the
    struct had been freed, so that no thread can still use the sockets. *)
Theorem socket_free_after_pool config answers ls v :
  0 <= thread config <= INT_MAX - 3 ->
  Called skynet_socket_free v ∈ calls (run_main config answers ls) ->
  ending (run_main config answers ls) = Finished /\
  exists s, Pool (thread config) s ∈ calls (run_main config answers ls) /\
    run (thread config) ls (init (thread config)) = Some s /\
    th_start s = Returned /\ joined s (thread config + 3) /\ mon s = None /\
    forall l, step (thread config) s l = None.
Proof.
  intros Hr Hin.
  destruct (run_main_failures config answers ls) as (F1 & F2 & F3).
  pose proof (run_main_pool config answers ls) as P. cbv zeta in *.
  assert (forall pre, Forall (fun e => e <> Called skynet_socket_free v) pre ->
            Called skynet_socket_free v ∈ pre ++ calls (pool_part (thread config) ls) ->
            Called skynet_socket_free v ∈ calls (pool_part (thread config) ls))
    as Hpre.
  { intros pre Hall [H|H]%elem_of_app; [|done].
    rewrite Forall_forall in Hall. by destruct (Hall _ H). }
  assert (exists pre,
            calls (run_main config answers ls) =
              pre ++ calls (pool_part (thread config) ls) /\
            Forall (fun e => e <> Called skynet_socket_free v) pre /\
            ending (run_main config answers ls) =
              ending (pool_part (thread config) ls)) as (pre & Hcalls & Hall & Hend).
  { destruct (decide (answers 0%nat = 0)) as [H0|H0].
    { rewrite (F1 H0) in Hin. exfalso. revert Hin. apply not_in_forall.
      unfold boot_calls, init_calls. simpl. repeat constructor; discriminate. }
    destruct (decide (standalone config <> None /\ answers 1%nat = 0)) as [[Hs H1]|H1].
    { rewrite (F2 H0 Hs H1) in Hin. exfalso. revert Hin. apply not_in_forall.
      unfold boot_calls, init_calls, master_calls.
      destruct (standalone config); simpl; repeat constructor; discriminate. }
    assert (standalone config <> None -> answers 1%nat <> 0) as H1' by tauto.
    destruct (decide (answers (1 + master_answers config)%nat = 0)) as [H2|H2].
    2: { rewrite (F3 H0 H1' H2) in Hin. exfalso. revert Hin. apply not_in_forall.
         unfold boot_calls, init_calls, master_calls.
         destruct (standalone config); simpl; repeat constructor; discriminate. }
    rewrite (P H0 H1' H2). cbn [calls ending].
    eexists. split; [by rewrite !app_assoc|]. split; [|done].
    unfold boot_calls, init_calls, master_calls, launcher_calls.
    destruct (standalone config); destruct (_ =? 0); simpl;
      repeat constructor; discriminate. }
  rewrite Hcalls in Hin. apply Hpre in Hin; [|done]. rename Hin into Hp.
  apply pool_part_free in Hp as (He & s & Hs & Hrs & Hex & Hret).
  rewrite Hcalls, Hend. split; [done|]. exists s.
  assert (reachable (thread config) s) as Hreach by (by exists ls).
  destruct (reachable_start_inv _ _ Hr Hreach) as [_ Hok _ _].
  unfold start_ok in Hok. rewrite Hret in Hok.
  split; [apply elem_of_app; by right|].
  split; [done|]. split; [done|]. split; [done|]. split.
  - by apply (reachable_freed _ Hr).
  - intros l. by apply (returned_halted _ Hr).
Qed.

Lemma skynet_start_failures_witness :
  ending (run_main config2 (answers_of []) []) = Exited 1 /\
  ending (run_main config2_master (answers_of [7; 0]) []) = Finished /\
  ending (run_main config2 (answers_of [7; 1]) []) = Finished.
Proof.
  destruct (skynet_start_failures config2 (answers_of []) []) as (H1 & _).
  destruct (skynet_start_failures config2_master (answers_of [7; 0]) []) as (_ & H2 & _).
  destruct (skynet_start_failures config2 (answers_of [7; 1]) []) as (_ & _ & H3).
  rewrite (H1 eq_refl).
  rewrite (H2 ltac:(discriminate) ltac:(discriminate) eq_refl).
  rewrite H3; [done|discriminate|discriminate|discriminate].
Defined.

Lemma skynet_start_runs_pool_witness :
  ending (run_main config2 (answers_of [7; 0; 0]) (boot2 ++ all_return ++ join_and_free)) =
  Finished.
Proof.
  rewrite (skynet_start_runs_pool config2 (answers_of [7; 0; 0]));
    [vm_compute; reflexivity|discriminate|intros H; by destruct H|reflexivity].
Defined.

Lemma socket_free_after_pool_witness :
  exists s, run 2 (boot2 ++ all_return ++ join_and_free) (init 2) = Some s /\
    th_start s = Returned /\ mon s = None.
Proof.
  assert (0 <= thread config2 <= INT_MAX - 3) as Hr by (simpl; unfold INT_MAX; lia).
  destruct (socket_free_after_pool config2 (answers_of [7; 0; 0])
              (boot2 ++ all_return ++ join_and_free) 0 Hr)
    as (_ & s & _ & Hrun & Hret & _ & Hmon & _).
  - vm_compute. do 10 right. left.
  - exists s. split; [exact Hrun|]. split; [exact Hret|exact Hmon].
Defined.

(** * The progress of [_start] *)

Section StartProgress.

Variable thread : Z.
Hypothesis thread_range : 0 <= thread <= INT_MAX - 3.

Lemma spawned_insert i :
  0 <= i < thread ->
  <[Z.to_nat i := Running W_dispatch]> (spawned_workers thread i) =
  spawned_workers thread (i + 1).
Proof.
  intros Hi. unfold spawned_workers.
  rewrite insert_app_r_alt by (rewrite length_replicate; lia).
  rewrite length_replicate, Nat.sub_diag.
  replace (Z.to_nat (thread - i)) with (S (Z.to_nat (thread - (i + 1)))) by lia.
  replace (Z.to_nat (i + 1)) with (Z.to_nat i + 1)%nat by lia.
  rewrite replicate_add. simpl. by rewrite <- app_assoc.
Qed.

Ltac start_done :=
  eexists; split; [reflexivity|]; simpl; repeat split; eauto;
  try (int_arith; lia); try (intuition auto; fail).

(** Every step of [_start] whose call succeeds brings it one step closer to
    its return; it can always make that step, except in [pthread_join] on
    a thread that has not returned. *)
Lemma start_progress s l pc :
  reachable thread s -> exited s = false -> tid l = T_start ->
  th_start s = Running pc -> failed (th_start s) = false ->
  calls_succeed thread s l -> join_ready thread s ->
  exists s', step thread s l = Some s' /\ exited s' = false /\
    failed (th_start s') = false /\
    ((exists pc', th_start s' = Running pc') \/ th_start s' = Returned) /\
    steps_left thread (th_start s') = steps_left thread (th_start s) - 1 /\
    trace s' = start_event thread s l ++ trace s /\
    (spawn_ok thread s -> spawn_ok thread s') /\
    (joining (th_start s) = true -> joining (th_start s') = true /\ same_threads s s').
Proof.
  intros Hreach Hex Htid Hst Hf Hcs Hjr.
  assert (0 <= thread <= INT_MAX) as Hr' by (unfold INT_MAX in *; lia).
  destruct (reachable_sleep_inv _ _ Hr' Hreach) as [_ [Hlen _ _ Hcount _ _ _]].
  destruct (reachable_start_inv _ _ thread_range Hreach) as [_ Hok Hmon _].
  destruct (reachable_pid_inv _ _ thread_range Hreach) as [Hpl Hpid].
  pose proof (reachable_m_ok _ _ thread_range Hreach) as Hm.
  destruct (reachable_hist _ thread_range _ Hreach) as [hs Hh].
  unfold start_ok, pid_ok, m_ok, hist_ok, calls_succeed, join_ready, next_call, the_monitor
    in Hok, Hpid, Hm, Hh, Hcs, Hjr.
  rewrite Hst in Hok, Hpid, Hm, Hh, Hcs, Hjr, Hmon, Hf.
  unfold step, same_threads, start_event, next_call, spawn_ok.
  rewrite Hex, Htid, Hst. unfold the_monitor.
  destruct (mon s) as [mo|] eqn:Hmo.
  2: { destruct (Hmon eq_refl) as [E|E]; [|discriminate E]. injection E as ->.
       simpl. eexists. split; [reflexivity|]. simpl. repeat split; eauto; lia. }
  specialize (Hcount _ eq_refl). unfold count_ok in Hcount. rewrite Hst in Hcount.
  clear Hmon.
  destruct pc as [| | | | |i|i h| | | | | |[]|[]|[]|i|i []|i|[i| | | |]];
    simpl in Hf; try discriminate Hf; simpl in *.
  all: unfold with_mon; rewrite ?Hmo; simpl.
  all: try (assert (ret l = 0) as Hret by (apply (Hcs _ eq_refl); eauto 6);
            rewrite Hret; simpl).
  all: repeat match goal with
              | |- context [?a <? ?b] => destruct (a <? b) eqn:?
              end; simpl.
  all: bool_hyps.
  all: try (eexists; split; [reflexivity|]; simpl; repeat split; eauto;
            first [ int_arith; lia | tauto ]).
  - exfalso. lia.
  - destruct Hpid as (-> & _). simpl. start_done.
  - destruct Hpid as (_ & -> & _). simpl. start_done.
  - destruct Hpid as (_ & -> & Hfresh). simpl. start_done.
    unfold spawned_workers. simpl. symmetry. apply replicate_as_Forall.
    split; [by rewrite Z.sub_0_r|].
    apply Forall_lookup. intros j w Hw. symmetry. apply (Hfresh j w); [lia|done].
  - assert (i = thread) as -> by lia. start_done.
  - exfalso. revert Heqb. int_arith. lia.
  - destruct Hpid as (_ & Hfresh).
    destruct (lookup_lt_is_Some_2 (th_worker s) (Z.to_nat i)) as [w Hw];
      [rewrite Hlen; lia|].
    rewrite Hw, (Hfresh (Z.to_nat i) w ltac:(lia) Hw). simpl.
    start_done.
    destruct H as (_ & _ & _ & ->). int_arith. by apply spawned_insert.
  - destruct Hok as [Hi _].
    assert ((i <? 0) = false) as -> by (apply Z.ltb_ge; lia).
    revert Heqb. int_arith. intros Heqb.
    rewrite (Hpid i) by lia. rewrite (Hjr i eq_refl).
    simpl. start_done.
Qed.

Lemma at_join s k :
  next_call thread s T_start = Some (pthread_join k) ->
  th_start s = Running (St_join k) /\ k < int_add thread 3.
Proof.
  unfold next_call, at_call. destruct (th_start s) as [|pc| | |]; try discriminate.
  destruct pc as [| | | | |i|i h| | | | | |[]|[]|[]|i|i []|i|[i| | | |]]; simpl;
    repeat case_match; simpl; intros; simplify_eq.
  bool_hyps. done.
Qed.

Lemma at_new s c :
  next_call thread s T_start = Some c -> is_new c = true ->
  exists i, th_start s = Running (St_new i) /\ i < thread /\ c = skynet_monitor_new.
Proof.
  unfold next_call, at_call. destruct (th_start s) as [|pc| | |]; try discriminate.
  destruct pc as [| | | | |i|i h| | | | | |[]|[]|[]|i|i []|i|[i| | | |]]; simpl;
    repeat case_match; simpl; intros; simplify_eq.
  bool_hyps. eauto.
Qed.

(** [pthread_join] waits: [_start] makes no step while the thread it
    joins has not returned. *)
Lemma join_waits s l k :
  reachable thread s -> tid l = T_start ->
  next_call thread s T_start = Some (pthread_join k) ->
  returned s (pid_thread (Z.to_nat k)) = false -> step thread s l = None.
Proof.
  intros Hreach Htid Hc Hr. apply at_join in Hc as [Hst Hk].
  destruct (reachable_start_inv _ _ thread_range Hreach) as [_ Hok _ _].
  destruct (reachable_pid_inv _ _ thread_range Hreach) as [_ Hpid].
  unfold start_ok, pid_ok in Hok, Hpid. rewrite Hst in Hok, Hpid. destruct Hok as [Hi _].
  unfold step. destruct (exited s); [done|]. rewrite Htid, Hst. simpl.
  rewrite (proj2 (Z.ltb_lt _ _) Hk). simpl.
  assert ((k <? 0) = false) as -> by (apply Z.ltb_ge; lia).
  revert Hk. int_arith. intros Hk. rewrite (Hpid k) by lia. by rewrite Hr.
Qed.

Lemma steps_left_joining s :
  reachable thread s -> joining (th_start s) = true ->
  0 <= steps_left thread (th_start s) <= 9 + 2 * thread /\
  (steps_left thread (th_start s) = 0 -> th_start s = Returned) /\
  (steps_left thread (th_start s) = 9 + 2 * thread -> th_start s = Running (St_join 0)).
Proof.
  intros Hreach Hj.
  destruct (reachable_start_inv _ _ thread_range Hreach) as [_ Hok _ _].
  destruct (reachable_hist _ thread_range _ Hreach) as [hs Hh].
  unfold start_ok, hist_ok in Hok, Hh.
  destruct (th_start s) as [|pc| | |]; try discriminate Hj; simpl;
    [|repeat split; intros; try done; lia].
  destruct pc as [| | | | | | | | | | | | | | | | |i|[i| | | |]]; try discriminate Hj;
    simpl; try (repeat split; intros; try done; lia).
  destruct Hok as [Hi _]. repeat split; try lia. intros E. f_equal. f_equal. lia.
Qed.

Lemma steps_left_spawning s :
  reachable thread s -> joining (th_start s) = false ->
  steps_left thread (th_start s) = 0 \/ 9 + 2 * thread < steps_left thread (th_start s).
Proof.
  intros Hreach Hj.
  destruct (reachable_start_inv _ _ thread_range Hreach) as [_ Hok _ _].
  pose proof (reachable_m_ok _ _ thread_range Hreach) as Hm.
  unfold start_ok, m_ok in Hok, Hm.
  destruct (th_start s) as [|pc| | |]; try discriminate Hj; simpl; auto.
  destruct pc as [| | | | |i|i h| | | | | |[]|[]|[]|i|i []|i|[i| | | |]];
    try discriminate Hj; simpl; auto; lia.
Qed.

Lemma joining_succeeds s l : joining (th_start s) = true -> calls_succeed thread s l.
Proof.
  unfold calls_succeed, next_call, at_call. intros Hj c Hc Hk.
  destruct (th_start s) as [|pc| | |]; try discriminate.
  destruct pc as [| | | | | | | | | | | | | | | | |i|[i| | | |]]; try discriminate Hj;
    simpl in Hc; repeat case_match; simpl in Hc; simplify_eq;
    destruct Hk as [|[|(? & ? & ?)]]; discriminate.
Qed.

Lemma joining_no_new s l :
  joining (th_start s) = true -> new_results (start_event thread s l) = [].
Proof.
  unfold start_event. intros Hj.
  destruct (next_call thread s T_start) as [c|] eqn:Hc; [|done].
  destruct (is_new c) eqn:Hn.
  - destruct (at_new _ _ Hc Hn) as (i & Hst & _). rewrite Hst in Hj. discriminate Hj.
  - by destruct c.
Qed.

Lemma joined_returned s k :
  length (th_worker s) = Z.to_nat thread -> joined s (thread + 3) ->
  0 <= k < thread + 3 -> returned s (pid_thread (Z.to_nat k)) = true.
Proof.
  intros Hlen [H1 H2 H3 H4] Hk.
  destruct (decide (k = 0)) as [->|]; [simpl; by rewrite H1 by lia|].
  destruct (decide (k = 1)) as [->|]; [simpl; by rewrite H2 by lia|].
  destruct (decide (k = 2)) as [->|]; [simpl; by rewrite H3 by lia|].
  replace k with (k - 3 + 3) by lia. rewrite pid_thread_worker by lia. simpl.
  destruct (lookup_lt_is_Some_2 (th_worker s) (Z.to_nat (k - 3))) as [w Hw];
    [rewrite Hlen; lia|].
  rewrite Hw. simpl. by rewrite (H4 (Z.to_nat (k - 3)) w ltac:(lia) Hw).
Qed.

Lemma joined_ready s : reachable thread s -> joined s (thread + 3) -> join_ready thread s.
Proof.
  intros Hreach Hj k Hc. apply at_join in Hc as [Hst Hk].
  assert (0 <= thread <= INT_MAX) as Hr' by (unfold INT_MAX in *; lia).
  destruct (reachable_sleep_inv _ _ Hr' Hreach) as [_ [Hlen _ _ _ _ _ _]].
  destruct (reachable_start_inv _ _ thread_range Hreach) as [_ Hok _ _].
  unfold start_ok in Hok. rewrite Hst in Hok. destruct Hok as [Hi _].
  revert Hk. int_arith. intros Hk. apply joined_returned; [done|done|lia].
Qed.

Lemma joined_same s s' i : same_threads s s' -> joined s i -> joined s' i.
Proof.
  intros (E1 & E2 & E3 & E4) [H1 H2 H3 H4].
  constructor; rewrite ?E1, ?E2, ?E3, ?E4; auto.
Qed.

Lemma same_threads_trans s1 s2 s3 :
  same_threads s1 s2 -> same_threads s2 s3 -> same_threads s1 s3.
Proof. unfold same_threads. intros (? & ? & ? & ?) (? & ? & ? & ?). repeat split; congruence. Qed.

Lemma start_log_step s l s' :
  trace s' = start_event thread s l ++ trace s ->
  start_log s' = start_log s ++ start_event thread s l.
Proof.
  unfold start_log, start_event. intros ->.
  destruct (next_call thread s T_start); [|by rewrite app_nil_r].
  cbn [app]. rewrite events_of_cons, decide_True by done. done.
Qed.

Lemma joining_not_failed st : joining st = true -> failed st = false.
Proof. destruct st as [|[]| | |]; try done. Qed.

(** Once the threads of [pid[0]] ... [pid[thread+2]] have returned,
    [_start] runs to its return, whatever its calls return, in the number
    of steps [steps_left] gives; the threads are left as they are. *)
Lemma start_completes ls : forall s,
  reachable thread s -> exited s = false -> joining (th_start s) = true ->
  joined s (thread + 3) -> Forall (fun l => tid l = T_start) ls ->
  Z.of_nat (length ls) = steps_left thread (th_start s) ->
  exists s', run thread ls s = Some s' /\ th_start s' = Returned /\ exited s' = false /\
    same_threads s s' /\ new_results (start_log s') = new_results (start_log s).
Proof.
  induction ls as [|l ls IH]; intros s Hreach Hex Hj Hjd Hls Hn.
  - exists s. destruct (steps_left_joining s Hreach Hj) as (_ & H0 & _).
    simpl in Hn. repeat split; auto.
  - apply Forall_cons in Hls as [Htid Hls].
    destruct (th_start s) as [|pc| | |] eqn:Hst; try discriminate Hj;
      [|simpl in Hn; lia].
    destruct (start_progress s l pc Hreach Hex Htid Hst) as
      (s1 & Hs1 & Hex1 & _ & _ & Hsl & Htr & _ & Hjs).
    { rewrite Hst. by apply joining_not_failed. }
    { apply joining_succeeds. by rewrite Hst. }
    { by apply joined_ready. }
    rewrite Hst in Hjs. destruct (Hjs Hj) as [Hj1 Hsame].
    destruct (IH s1) as (s' & Hrun & Hret & Hex' & Hsame' & Hnew); auto.
    + by eapply reachable_step.
    + by eapply joined_same.
    + rewrite Hsl, Hst, <- Hn. simpl length. lia.
    + exists s'. simpl. rewrite Hs1. simpl.
      split; [done|]. split; [done|]. split; [done|].
      split; [by eapply same_threads_trans|].
      rewrite Hnew, (start_log_step _ _ _ Htr), new_results_app, joining_no_new.
      * by rewrite app_nil_r.
      * by rewrite Hst.
Qed.

End StartProgress.

Lemma take_length_eq {A : Type} (l : list A) (k i : nat) :
  length (take k l) = i -> take k l = take i l.
Proof.
  intros <-. rewrite length_take. destruct (decide (k <= length l)%nat).
  - by rewrite Nat.min_l by lia.
  - rewrite Nat.min_r by lia. by rewrite !take_ge by lia.
Qed.

Lemma new_results_new_events i l : new_results (new_events i l) = l.
Proof. revert i. induction l as [|h l IH]; intros i; simpl; [done|]. by rewrite IH. Qed.

Lemma new_results_none {A : Type} (f : A -> event) (l : list A) :
  (forall x, is_new (what (f x)) = false) -> new_results (f <$> l) = [].
Proof.
  intros Hf. induction l as [|x l IH]; [done|].
  rewrite fmap_cons. cbn [new_results]. specialize (Hf x).
  destruct (what (f x)); try done.
Qed.

Lemma new_results_start_events thread l : new_results (start_events thread l) = l.
Proof.
  unfold start_events, worker_creates, join_events, delete_events.
  rewrite !new_results_app, new_results_new_events, !new_results_none by done.
  simpl. by rewrite app_nil_r.
Qed.

(** ** A whole run of [_start] *)

Section WholeRun.

Variable thread : Z.
Hypothesis thread_range : 0 <= thread <= INT_MAX - 3.

Variable hs : list Z.
Hypothesis hs_length : length hs = Z.to_nat thread.

Lemma start_label_succeeds s : calls_succeed thread s (start_label hs s).
Proof.
  unfold calls_succeed, start_label, next_call, at_call. intros c Hc Hk.
  destruct (th_start s) as [|pc| | |]; try done.
  destruct pc; try reflexivity.
  simpl in Hc. case_match; simpl in Hc; simplify_eq.
  destruct Hk as [|[|(? & ? & ?)]]; discriminate.
Qed.

Lemma made_from_step s s' :
  reachable thread s -> made_from hs s ->
  trace s' = start_event thread s (start_label hs s) ++ trace s -> made_from hs s'.
Proof.
  intros Hreach [k Hk] Htr. unfold made_from.
  rewrite (start_log_step _ _ _ _ Htr), new_results_app, Hk.
  unfold start_event.
  destruct (next_call thread s T_start) as [c|] eqn:Hc; [|exists k; by rewrite app_nil_r].
  destruct (is_new c) eqn:Hn.
  - destruct (at_new _ _ _ Hc Hn) as (i & Hst & Hi & ->).
    destruct (reachable_hist _ thread_range _ Hreach) as [hs0 Hh].
    unfold hist_ok in Hh. rewrite Hst in Hh. destruct Hh as (Hi0 & [Hlen Hhs0] & Hlog).
    assert (new_results (start_log s) = hs0) as Hmade
      by (by rewrite Hlog, new_results_app, new_results_new_events).
    assert (length (take k hs) = Z.to_nat i) as Hlk
      by (rewrite <- Hk, Hmade, Hhs0, length_take; lia).
    exists (S (Z.to_nat i)). unfold start_label. rewrite Hst. cbn.
    rewrite (take_length_eq _ _ _ Hlk).
    destruct (lookup_lt_is_Some_2 hs (Z.to_nat i)) as [h Hh]; [lia|].
    rewrite Hh. simpl. by rewrite (take_S_r _ _ _ Hh).
  - exists k. destruct c; try discriminate; by rewrite app_nil_r.
Qed.

(** From its entry [_start] comes to its first [pthread_join] when its
    calls succeed: all its threads are then at the entry of their
    routines. *)
Lemma start_spawns n : forall s,
  reachable thread s -> exited s = false ->
  steps_left thread (th_start s) = 9 + 2 * thread + Z.of_nat n ->
  made_from hs s -> spawn_ok thread s ->
  exists s', run thread (start_labels thread hs n s) s = Some s' /\
    th_start s' = Running (St_join 0) /\ exited s' = false /\
    made_from hs s' /\ spawn_ok thread s'.
Proof.
  induction n as [|n IH]; intros s Hreach Hex Hn Hmade Hsp.
  - exists s. simpl. repeat split; auto.
    destruct (joining (th_start s)) eqn:Hj.
    + apply (steps_left_joining _ thread_range s Hreach Hj). lia.
    + destruct (steps_left_spawning _ thread_range s Hreach Hj); lia.
  - assert (joining (th_start s) = false) as Hj.
    { destruct (joining (th_start s)) eqn:Hj; [|done].
      destruct (steps_left_joining _ thread_range s Hreach Hj) as [? _]. lia. }
    destruct (th_start s) as [|pc| | |] eqn:Hst; try (simpl in Hn; lia).
    assert (failed (Running pc) = false) as Hf.
    { destruct (failed (Running pc)) eqn:Hf; [|done]. exfalso.
      destruct pc as [| | | | |i|i h| | | | | |[]|[]|[]|i|i []|i|[i| | | |]];
        simpl in Hf; try discriminate Hf; simpl in Hn; lia. }
    destruct (start_progress thread thread_range s (start_label hs s) pc Hreach Hex eq_refl Hst)
      as (s1 & Hs1 & Hex1 & Hf1 & _ & Hsl & Htr & Hsp1 & _).
    { by rewrite Hst. }
    { apply start_label_succeeds. }
    { intros k Hc. apply at_join in Hc as [Hc _]. rewrite Hc in Hst.
      injection Hst as <-. discriminate Hj. }
    destruct (IH s1) as (s' & Hrun & Hst' & Hex' & Hmade' & Hsp'); auto.
    + by eapply reachable_step.
    + rewrite Hsl, Hst. lia.
    + by eapply made_from_step.
    + exists s'. cbn [start_labels run]. rewrite Hs1. simpl. done.
Qed.

Lemma returned_insert (j k : nat) (w : tstate worker_pc) :
  <[j := Returned]> (<[j := w]> (replicate j Returned ++ replicate (S k) (Running W_dispatch))) =
  replicate (S j) Returned ++ replicate k (Running W_dispatch).
Proof.
  rewrite list_insert_insert_eq, (replicate_S_end j).
  rewrite insert_app_r_alt by (rewrite length_replicate; lia).
  rewrite length_replicate, Nat.sub_diag, <- app_assoc. done.
Qed.

Lemma worker_returns_run s j :
  exited s = false -> th_worker s !! j = Some (Running W_dispatch) ->
  run thread (worker_returns j) s =
  Some (set_th_worker (<[j := Returned]> (<[j := Running W_abort]> (th_worker s)))
          (log (Ev (T_worker j) skynet_context_total 0)
             (log (Ev (T_worker j)
                     (skynet_context_message_dispatch (m_at (the_monitor s) (Z.of_nat j))) 1)
                s))).
Proof.
  intros Hex Hj. unfold worker_returns, run, step. rewrite Hex. simpl.
  rewrite Hj. simpl. rewrite Hex.
  rewrite list_lookup_insert_eq by (by eapply lookup_lt_Some).
  reflexivity.
Qed.

(** The workers from index [j] on return one after the other. *)
Lemma workers_return k : forall j s,
  exited s = false ->
  th_worker s = replicate j Returned ++ replicate k (Running W_dispatch) ->
  exists s', run thread (seq j k ≫= worker_returns) s = Some s' /\
    th_worker s' = replicate (j + k) Returned /\
    th_start s' = th_start s /\ th_monitor s' = th_monitor s /\
    th_timer s' = th_timer s /\ th_socket s' = th_socket s /\
    exited s' = false /\ start_log s' = start_log s.
Proof.
  induction k as [|k IH]; intros j s Hex Hw.
  - exists s. simpl. rewrite Nat.add_0_r, Hw, app_nil_r. done.
  - assert (th_worker s !! j = Some (Running W_dispatch)) as Hj.
    { rewrite Hw, lookup_app_r by (rewrite length_replicate; lia).
      by rewrite length_replicate, Nat.sub_diag. }
    cbn [seq]. rewrite bind_cons, run_app, (worker_returns_run s j Hex Hj).
    cbn [mbind option_bind]. rewrite Hw, returned_insert.
    match goal with
    | |- context [run thread _ ?s1] => destruct (IH (S j) s1) as (s' & Hrun & Hw' & H')
    end; [done|done|].
    exists s'. rewrite Hrun. split; [done|].
    split; [rewrite Hw'; f_equal; lia|].
    destruct H' as (E0 & E1 & E2 & E3 & Hex' & Hlog).
    rewrite E0, E1, E2, E3, Hlog. repeat split; done.
Qed.


Lemma monitor_returns_run s :
  exited s = false -> th_monitor s = Running Mo_abort ->
  exists s', run thread [L T_monitor 0] s = Some s' /\
    th_start s' = th_start s /\ th_monitor s' = Returned /\ th_timer s' = th_timer s /\
    th_socket s' = th_socket s /\ th_worker s' = th_worker s /\
    exited s' = false /\ start_log s' = start_log s.
Proof.
  intros Hex Hst. unfold run, step. rewrite Hex. simpl. rewrite Hst. simpl.
  eexists. split; [reflexivity|]. unfold start_log. simpl.
  rewrite !events_of_cons, !decide_False by done.
  repeat split; first [reflexivity | assumption].
Qed.

Lemma timer_returns_run s :
  exited s = false -> th_timer s = Running Ti_updatetime ->
  exists s', run thread [L T_timer 0; L T_timer 0; L T_timer 0; L T_timer 0] s = Some s' /\
    th_start s' = th_start s /\ th_monitor s' = th_monitor s /\ th_timer s' = Returned /\
    th_socket s' = th_socket s /\ th_worker s' = broadcast (th_worker s) /\
    exited s' = false /\ start_log s' = start_log s.
Proof.
  intros Hex Hst. unfold run, step. simpl. rewrite Hex, Hst. repeat (simpl; rewrite Hex).
  eexists. split; [reflexivity|]. unfold start_log. simpl.
  rewrite !events_of_cons, !decide_False by done.
  repeat split; first [reflexivity | assumption].
Qed.

Lemma socket_returns_run s :
  exited s = false -> th_socket s = Running So_poll ->
  exists s', run thread [L T_socket 0] s = Some s' /\
    th_start s' = th_start s /\ th_monitor s' = th_monitor s /\ th_timer s' = th_timer s /\
    th_socket s' = Returned /\ th_worker s' = th_worker s /\
    exited s' = false /\ start_log s' = start_log s.
Proof.
  intros Hex Hst. unfold run, step. rewrite Hex. simpl. rewrite Hst. simpl.
  eexists. split; [reflexivity|]. unfold start_log. simpl.
  rewrite !events_of_cons, !decide_False by done.
  repeat split; first [reflexivity | assumption].
Qed.

Lemma fixed_return_run s :
  exited s = false ->
  th_monitor s = Running Mo_abort -> th_timer s = Running Ti_updatetime ->
  th_socket s = Running So_poll ->
  exists s',
    run thread [L T_monitor 0; L T_timer 0; L T_timer 0; L T_timer 0; L T_timer 0;
                L T_socket 0] s = Some s' /\
    th_start s' = th_start s /\ th_monitor s' = Returned /\ th_timer s' = Returned /\
    th_socket s' = Returned /\ th_worker s' = broadcast (th_worker s) /\
    exited s' = false /\ start_log s' = start_log s.
Proof.
  intros Hex Hmo Hti Hso.
  destruct (monitor_returns_run s Hex Hmo)
    as (s1 & Hrun1 & A0 & A1 & A2 & A3 & A4 & Hex1 & Hlog1).
  destruct (timer_returns_run s1 Hex1 ltac:(by rewrite A2))
    as (s2 & Hrun2 & B0 & B1 & B2 & B3 & B4 & Hex2 & Hlog2).
  destruct (socket_returns_run s2 Hex2 ltac:(by rewrite B3, A3))
    as (s3 & Hrun3 & C0 & C1 & C2 & C3 & C4 & Hex3 & Hlog3).
  exists s3. split.
  - change (run thread ([L T_monitor 0] ++
                        [L T_timer 0; L T_timer 0; L T_timer 0; L T_timer 0] ++
                        [L T_socket 0]) s = Some s3).
    rewrite run_app, Hrun1. cbn [mbind option_bind]. rewrite run_app, Hrun2. exact Hrun3.
  - repeat split; congruence.
Qed.

(** The pool returns: from the state in which every thread is at the entry
    of its routine, the schedule [pool_returns] leads to the state in which
    all have returned; [_start] has not moved. *)
Lemma pool_returns_run s :
  exited s = false ->
  th_monitor s = Running Mo_abort -> th_timer s = Running Ti_updatetime ->
  th_socket s = Running So_poll ->
  th_worker s = replicate (Z.to_nat thread) (Running W_dispatch) ->
  exists s', run thread (pool_returns thread) s = Some s' /\
    th_start s' = th_start s /\ exited s' = false /\
    joined s' (thread + 3) /\ start_log s' = start_log s.
Proof.
  intros Hex Hmo Hti Hso Hw. unfold pool_returns.
  destruct (fixed_return_run s Hex Hmo Hti Hso)
    as (s1 & Hrun1 & F0 & F1 & F2 & F3 & Fw & Hex1 & Hlog1).
  rewrite run_app, Hrun1. cbn [mbind option_bind].
  destruct (workers_return (Z.to_nat thread) 0%nat s1)
    as (s' & Hrun & Hw' & E0 & E1 & E2 & E3 & Hex' & Hlog); [done| |].
  { rewrite Fw, Hw. unfold broadcast. by rewrite fmap_replicate. }
  exists s'. rewrite Hrun.
  split; [done|]. split; [by rewrite E0|]. split; [done|]. split; [|by rewrite Hlog].
  constructor; intros; rewrite ?E1, ?E2, ?E3; try done.
  rewrite Hw' in *.
  match goal with
  | H : replicate _ _ !! _ = Some _ |- _ => by apply lookup_replicate in H as [-> _]
  end.
Qed.

(** A whole run: [_start] creates the detectors [hs] and its threads, the
    threads return, and [_start] joins them, releases the struct and
    returns; its calls are those of [start_events]. *)
Lemma whole_run_returns :
  exists s', run thread (whole_run thread hs) (init thread) = Some s' /\
    th_start s' = Returned /\ exited s' = false /\ joined s' (thread + 3) /\
    start_log s' = start_events thread hs.
Proof.
  destruct (start_spawns (Z.to_nat (12 + 4 * thread)) (init thread))
    as (s1 & Hrun1 & Hst1 & Hex1 & Hmade1 & Hsp1).
  { apply reachable_init. }
  { done. }
  { simpl. lia. }
  { by exists 0%nat. }
  { by unfold spawn_ok. }
  unfold spawn_ok in Hsp1. rewrite Hst1 in Hsp1. destruct Hsp1 as (Hmo & Hti & Hso & Hw).
  unfold spawned_workers in Hw. rewrite Z.sub_diag, app_nil_r in Hw.
  destruct (pool_returns_run s1 Hex1 Hmo Hti Hso Hw) as (s2 & Hrun2 & Hst2 & Hex2 & Hj2 & Hlog2).
  assert (reachable thread s1) as Hreach1
    by (eapply reachable_run; [apply reachable_init|exact Hrun1]).
  assert (reachable thread s2) as Hreach2 by (by eapply reachable_run).
  destruct (start_completes thread thread_range
              (replicate (Z.to_nat (9 + 2 * thread)) (L T_start 0)) s2)
    as (s3 & Hrun3 & Hst3 & Hex3 & Hsame & Hnew); auto.
  { by rewrite Hst2, Hst1. }
  { by apply Forall_replicate. }
  { rewrite length_replicate, Hst2, Hst1. simpl. lia. }
  exists s3. split.
  { unfold whole_run. rewrite run_app, Hrun1. cbn [mbind option_bind].
    by rewrite run_app, Hrun2. }
  split; [done|]. split; [done|]. split; [by eapply joined_same|].
  destruct (reachable_hist _ thread_range s3) as [hs' Hh]; [by eapply reachable_run|].
  unfold hist_ok in Hh. rewrite Hst3 in Hh. destruct Hh as [Hlen Hlog].
  rewrite Hlog. f_equal. destruct Hmade1 as [k Hk].
  assert (hs' = take k hs) as ->
    by (by rewrite <- Hk, <- Hlog2, <- Hnew, Hlog, new_results_start_events).
  rewrite length_take in Hlen. apply take_ge. lia.
Qed.

End WholeRun.

Section StartLifecycle.

Variable thread : Z.
Hypothesis thread_range : 0 <= thread <= INT_MAX - 3.

(** C7. [_start thread] runs from its entry to its return, and does so in
    one way.

    Progress.  In a reachable state in which [_start] is at a program point
    that is not on a path to [exit(1)], a step of [_start] whose call
    succeeds is possible unless the call is a [pthread_join] of a thread
    that has not returned; it makes the next call of the routine and no
    other, and brings [_start] one step closer to its return
    ([steps_left]).  At a [pthread_join] of a thread that has not returned
    [_start] makes no step.  Once the threads of [pid[0 .. thread+2]] have
    returned, [_start] returns after exactly [steps_left] steps, whatever
    its calls return, and leaves the threads as they are.  From the entry,
    for every list [hs] of [thread] detectors, the schedule [whole_run]
    leads to the return of [_start], all threads joined, the calls of
    [_start] being [start_events thread hs].

    Order.  A call that releases the struct (a [skynet_monitor_delete], the
    destruction of the mutex or of the condition variable, a [skynet_free])
    is made by [_start] only when the thread of every [pid[k]],
    [k < thread + 3], has returned; and once [_start] has returned, all
    these threads have returned and the calls [_start] has made are, in
    order: the allocation of the struct and of its array, [thread] times
    [skynet_monitor_new] with the store into [m->m[i]], the two
    initialisations, [pthread_create] for [_monitor], [_timer], [_socket]
    and the workers [0 .. thread-1], [pthread_join] of [pid[0 .. thread+2]],
    [skynet_monitor_delete] of every detector in index order, the two
    destructions and the two frees.  So it has created [thread] detectors
    and [thread + 3] threads, joined [thread + 3] and deleted [thread]
    detectors. *)
Theorem start_lifecycle s :
  reachable thread s ->
  (forall c, next_call thread s T_start = Some c -> releases c = true ->
             joined s (thread + 3)) /\
  (th_start s = Returned ->
   joined s (thread + 3) /\
   exists hs, length hs = Z.to_nat thread /\
     start_log s = start_events thread hs /\
     count_calls is_new (start_log s) = thread /\
     count_calls is_create (start_log s) = thread + 3 /\
     count_calls is_join (start_log s) = thread + 3 /\
     count_calls is_delete (start_log s) = thread) /\
  (forall pc l,
     th_start s = Running pc -> exited s = false -> failed (th_start s) = false ->
     tid l = T_start -> calls_succeed thread s l -> join_ready thread s ->
     exists s', step thread s l = Some s' /\ exited s' = false /\
       failed (th_start s') = false /\
       steps_left thread (th_start s') = steps_left thread (th_start s) - 1 /\
       trace s' = start_event thread s l ++ trace s) /\
  (forall l k,
     tid l = T_start -> next_call thread s T_start = Some (pthread_join k) ->
     returned s (pid_thread (Z.to_nat k)) = false -> step thread s l = None) /\
  (exited s = false -> joining (th_start s) = true -> joined s (thread + 3) ->
   forall ls, Forall (fun l => tid l = T_start) ls ->
     Z.of_nat (length ls) = steps_left thread (th_start s) ->
     exists s', run thread ls s = Some s' /\ th_start s' = Returned /\
       exited s' = false /\ same_threads s s') /\
  (forall hs, length hs = Z.to_nat thread ->
     exists s', run thread (whole_run thread hs) (init thread) = Some s' /\
       th_start s' = Returned /\ exited s' = false /\ joined s' (thread + 3) /\
       start_log s' = start_events thread hs).
Proof.
  intros Hreach.
  destruct (reachable_start_inv _ _ thread_range Hreach) as [_ Hok _ _].
  destruct (reachable_hist _ thread_range _ Hreach) as [hs Hh].
  unfold start_ok in Hok. unfold hist_ok in Hh.
  split; [|split; [|split; [|split; [|split]]]].
  - intros c Hc Hrel. unfold next_call, at_call in Hc.
    destruct (th_start s) as [|pc| | |]; try discriminate.
    destruct pc as [| | | | | | | | | | | |[]|[]|[]| |?[]| |[]]; simpl in Hc;
      repeat case_match; simpl in Hc; simplify_eq; try discriminate; done.
  - intros Hret. rewrite Hret in Hok, Hh. destruct Hh as [Hlen Hlog].
    split; [done|]. exists hs. rewrite Hlog.
    split; [done|]. split; [done|]. by apply start_events_counts.
  - intros pc l Hst Hex Hf Htid Hcs Hjr.
    destruct (start_progress thread thread_range s l pc Hreach Hex Htid Hst Hf Hcs Hjr)
      as (s' & Hs & Hex' & Hf' & _ & Hsl & Htr & _).
    exists s'. auto.
  - intros l k Htid Hc Hr. by eapply join_waits.
  - intros Hex Hj Hjd ls Hls Hn.
    destruct (start_completes thread thread_range ls s Hreach Hex Hj Hjd Hls Hn)
      as (s' & Hrun & Hret & Hex' & Hsame & _).
    exists s'. auto.
  - intros hs0 Hlen. by apply whole_run_returns.
Qed.

End StartLifecycle.

Lemma start_lifecycle_witness :
  reachable 2 start2_done /\
  th_start start2_done = Returned /\
  joined start2_done 5 /\
  count_calls is_create (start_log start2_done) = 5 /\
  count_calls is_delete (start_log start2_done) = 2 /\
  (exists s', step 2 at_mutex_init (L T_start 0) = Some s' /\
     steps_left 2 (th_start s') = 22 /\
     trace s' = Ev T_start pthread_mutex_init 0 :: trace at_mutex_init) /\
  step 2 booted (L T_start 0) = None /\
  (exists s', run 2 join_and_free pool2_returned = Some s' /\ th_start s' = Returned) /\
  whole_run 2 [100; 101] = boot2 ++ all_return ++ join_and_free /\
  (exists s', run 2 (whole_run 2 [100; 101]) (init 2) = Some s' /\
     th_start s' = Returned /\ start_log s' = start_events 2 [100; 101]).
Proof.
  assert (0 <= 2 <= INT_MAX - 3) as Hr by (unfold INT_MAX; lia).
  assert (reachable 2 start2_done) as Hdone
    by (exists (boot2 ++ all_return ++ join_and_free); vm_compute; reflexivity).
  assert (reachable 2 at_mutex_init) as Hinit
    by (exists (take 10 boot2); vm_compute; reflexivity).
  assert (reachable 2 booted) as Hboot by (exists boot2; vm_compute; reflexivity).
  assert (reachable 2 pool2_returned) as Hpool
    by (exists (boot2 ++ all_return); vm_compute; reflexivity).
  destruct (start_lifecycle 2 Hr start2_done Hdone) as (_ & H & _).
  destruct (H eq_refl) as (Hj & hs & _ & _ & _ & Hc & _ & Hd).
  destruct (start_lifecycle 2 Hr at_mutex_init Hinit) as (_ & _ & Hstep & _).
  destruct (Hstep St_mutex_init (L T_start 0) eq_refl eq_refl eq_refl eq_refl)
    as (s1 & Hs1 & _ & _ & Hsl & Htr).
  { intros c _ _. reflexivity. }
  { intros k Hk. vm_compute in Hk. discriminate Hk. }
  destruct (start_lifecycle 2 Hr booted Hboot) as (_ & _ & _ & Hwait & _).
  destruct (start_lifecycle 2 Hr pool2_returned Hpool) as (_ & _ & _ & _ & Hfin & Hwhole).
  destruct (Hfin eq_refl eq_refl) with (ls := join_and_free)
    as (s2 & Hrun2 & Hret2 & _).
  { constructor; vm_compute; try reflexivity; intros; try lia.
    repeat match goal with
           | j : nat |- _ => destruct j; simplify_eq; try done
           end. }
  { by apply Forall_replicate. }
  { reflexivity. }
  destruct (Hwhole [100; 101] eq_refl) as (s3 & Hrun3 & Hret3 & _ & _ & Hlog3).
  split; [exact Hdone|]. split; [reflexivity|]. split; [exact Hj|].
  split; [exact Hc|]. split; [exact Hd|].
  split; [exists s1; split; [exact Hs1|]; split; [by rewrite Hsl|exact Htr]|].
  split; [exact (Hwait (L T_start 0) 0 eq_refl eq_refl eq_refl)|].
  split; [exists s2; by split|].
  split; [vm_compute; reflexivity|].
  exists s3. by repeat split.
Defined.
